(** * Bay Navigator: the safety layer (SafetyService and SafetyProvider)

    A shallow embedding of [lib/services/safety_service.dart] and
    [lib/providers/safety_provider.dart].  Asynchronous methods run to
    completion one at a time (the single-caller model of the app), so a
    [Future<T>] is a computation in a state-and-exception monad: it takes
    the current world, and gives back either a value or a thrown exception
    together with the world as the method left it.

    The collaborators the app does not own (the preference store, the
    connectivity plugin, the URL launcher and the host platform) are
    described by an environment [Env] that fixes how each of their calls
    answers during one method call. *)

From Stdlib Require Import Ascii String List NArith Lia.
From stdpp Require Import base option strings list gmap.

Local Open Scope string_scope.

(** ** Dart core library operations used by the service *)

Module Dart.

(** [String.toLowerCase] on the ASCII range: the letters A..Z are mapped
    to a..z, every other byte is kept. *)
Definition lowerAscii (c : ascii) : ascii :=
  let n := nat_of_ascii c in
  if (65 <=? n)%nat && (n <=? 90)%nat then ascii_of_nat (n + 32) else c.

Fixpoint toLowerCase (s : string) : string :=
  match s with
  | EmptyString => EmptyString
  | String c rest => String (lowerAscii c) (toLowerCase rest)
  end.

(** [List.contains]. *)
Definition contains (l : list string) (x : string) : bool :=
  bool_decide (x ∈ l).

(** [List.insert(0, x)]. *)
Definition insert0 (x : string) (l : list string) : list string := x :: l.

(** [List.remove(x)]: removes the first occurrence of [x], if any. *)
Fixpoint remove (x : string) (l : list string) : list string :=
  match l with
  | [] => []
  | y :: rest => if decide (y = x) then rest else y :: remove x rest
  end.

(** [List.removeLast()]: [None] stands for the [RangeError] that Dart
    raises on an empty list. *)
Definition removeLast (l : list string) : option (list string) :=
  match l with
  | [] => None
  | _ => Some (take (length l - 1) l)
  end.

(** [Iterable.firstWhere(test, orElse: ...)]. *)
Fixpoint firstWhere {A} (test : A -> bool) (orElse : A) (l : list A) : A :=
  match l with
  | [] => orElse
  | x :: rest => if test x then x else firstWhere test orElse rest
  end.

End Dart.

(** ** Data models *)

Inductive IconData :=
| Icons_security | Icons_phone_android | Icons_history | Icons_dialpad
| Icons_schedule | Icons_calculate_outlined | Icons_note_outlined
| Icons_wb_sunny_outlined | Icons_build_outlined | Icons_folder_outlined.

Record QuickExitDestination := {
  qed_id : string;
  qed_name : string;
  qed_url : string;
  qed_description : string
}.

Record SafetyTip := {
  tip_icon : IconData;
  tip_title : string;
  tip_description : string
}.

Inductive NetworkPrivacyLevel := good | moderate | caution | offline | unknown.

Record NetworkPrivacyStatus := {
  level : NetworkPrivacyLevel;
  connectionType : string;
  warning : option string;
  suggestion : option string
}.

Record DisguisedAppIcon := {
  dai_id : string;
  dai_name : string;
  androidActivityAlias : string;
  iosIconName : string;
  iconData : IconData;
  backgroundColor : N
}.

Record DisguiseResult := {
  success : bool;
  message : string;
  requiresRestart : bool
}.

(** [ConnectivityResult] of the connectivity plugin. *)
Inductive ConnectivityResult :=
| CR_bluetooth | CR_wifi | CR_ethernet | CR_mobile | CR_none | CR_vpn | CR_other.

#[global] Instance ConnectivityResult_eq_dec : EqDecision ConnectivityResult.
Proof. solve_decision. Defined.

#[global] Instance IconData_eq_dec : EqDecision IconData.
Proof. solve_decision. Defined.

(** ** Exceptions and the state-and-exception monad *)

Inductive Exn :=
| StoreUnavailable     (* SharedPreferences.getInstance() failed *)
| StoreWriteFailed     (* a set.../remove call of the store threw *)
| TypeError            (* a stored value has another type than the getter's *)
| RangeError           (* removeLast on an empty list *)
| FormatException      (* Uri.parse rejected the text *)
| LaunchFailed         (* canLaunchUrl / launchUrl threw *)
| ConnectivityFailed.  (* checkConnectivity threw *)

(** The text Dart interpolates for [$e]. *)
Definition exnToString (e : Exn) : string :=
  match e with
  | StoreUnavailable => "PlatformException(getInstance)"
  | StoreWriteFailed => "PlatformException(write)"
  | TypeError => "TypeError"
  | RangeError => "RangeError"
  | FormatException => "FormatException"
  | LaunchFailed => "PlatformException(launch)"
  | ConnectivityFailed => "PlatformException(connectivity)"
  end.

Inductive Res (A : Type) :=
| Ok (a : A)
| Thrown (e : Exn).
Arguments Ok {A} a.
Arguments Thrown {A} e.

Definition M (S A : Type) : Type := S -> Res A * S.

Definition ret {S A} (a : A) : M S A := fun s => (Ok a, s).

Definition bind {S A B} (m : M S A) (k : A -> M S B) : M S B :=
  fun s =>
    match m s with
    | (Ok a, s') => k a s'
    | (Thrown e, s') => (Thrown e, s')
    end.

Definition throw {S A} (e : Exn) : M S A := fun s => (Thrown e, s).

(** [try { m } catch (e) { h e }]: what [m] did to the state before it
    threw stays done. *)
Definition tryCatch {S A} (m : M S A) (h : Exn -> M S A) : M S A :=
  fun s =>
    match m s with
    | (Ok a, s') => (Ok a, s')
    | (Thrown e, s') => h e s'
    end.

Definition gets {S A} (f : S -> A) : M S A := fun s => (Ok (f s), s).
Definition modify {S} (f : S -> S) : M S unit := fun s => (Ok tt, f s).

(** Runs a computation of a component inside a larger state. *)
Definition lift {S T A} (proj : T -> S) (upd : S -> T -> T) (m : M S A) : M T A :=
  fun t => let '(r, s') := m (proj t) in (r, upd s' t).

Notation "'do' x <- m ; k" := (bind m (fun x => k))
  (at level 10, x name, m at level 100, k at level 200).
Notation "'run' m ; k" := (bind m (fun _ => k))
  (at level 10, m at level 100, k at level 200).


(** ** The collaborators *)

(** A value of the preference store ([SharedPreferences]). *)
Inductive PrefValue :=
| PBool (b : bool)
| PString (s : string)
| PStringList (l : list string).

(** How a write call ([setBool], [setString], [setStringList], [remove])
    on a key ends: the value is stored and the call answers [true]; nothing
    is stored and the call answers [false]; nothing is stored and the call
    throws. *)
Inductive WriteOutcome := Commit | Reject | WriteThrows.

Inductive Platform := Android | IOS | OtherPlatform.

Record Env := {
  getInstanceFails : bool;                      (* SharedPreferences.getInstance() throws *)
  writeOutcome : string -> WriteOutcome;
  uriParses : string -> bool;                   (* Uri.parse accepts the text *)
  canLaunchAnswer : string -> option bool;      (* canLaunchUrl; None: it throws *)
  launchAnswer : string -> option bool;         (* launchUrl; None: it throws *)
  platform : Platform;
  connectivityReading : option (list ConnectivityResult)  (* None: checkConnectivity throws *)
}.

(** Calls that leave the app, in the order they are made. *)
Inductive Event :=
| CanLaunchUrl (uri : string)
| LaunchUrl (uri : string)
| SystemNavigatorPop
| CheckConnectivity
| ListenNetworkPrivacyStream
| NotifyListeners.

#[global] Instance Event_eq_dec : EqDecision Event.
Proof. solve_decision. Defined.

(** What an onlooker finds of the history data at the time of a call:
    the engine's two session lists and the store. *)
Record View := {
  seenSessionRecent : list string;
  seenSessionSearch : list string;
  seenStore : gmap string PrefValue
}.

(** ** SafetyService (lib/services/safety_service.dart) *)

Module SafetyService.

(** The fields of the singleton instance; [_prefs] tells whether the
    [SharedPreferences] instance has been obtained and cached. *)
Record t := {
  _prefs : bool;
  _isIncognitoSession : bool;
  _sessionRecentPrograms : list string;
  _sessionSearchHistory : list string
}.

(** A freshly started process. *)
Definition fresh : t :=
  {| _prefs := false; _isIncognitoSession := false;
     _sessionRecentPrograms := []; _sessionSearchHistory := [] |}.

Record World := {
  store : gmap string PrefValue;
  service : t;
  trace : list (Event * View)
}.

Definition view (w : World) : View :=
  {| seenSessionRecent := _sessionRecentPrograms (service w);
     seenSessionSearch := _sessionSearchHistory (service w);
     seenStore := store w |}.

Definition withStore (f : gmap string PrefValue -> gmap string PrefValue) (w : World) : World :=
  {| store := f (store w); service := service w; trace := trace w |}.

Definition withService (f : t -> t) (w : World) : World :=
  {| store := store w; service := f (service w); trace := trace w |}.

Definition set_prefs (b : bool) (s : t) : t :=
  {| _prefs := b; _isIncognitoSession := _isIncognitoSession s;
     _sessionRecentPrograms := _sessionRecentPrograms s;
     _sessionSearchHistory := _sessionSearchHistory s |}.

Definition set_isIncognitoSession (b : bool) (s : t) : t :=
  {| _prefs := _prefs s; _isIncognitoSession := b;
     _sessionRecentPrograms := _sessionRecentPrograms s;
     _sessionSearchHistory := _sessionSearchHistory s |}.

Definition set_sessionRecentPrograms (l : list string) (s : t) : t :=
  {| _prefs := _prefs s; _isIncognitoSession := _isIncognitoSession s;
     _sessionRecentPrograms := l;
     _sessionSearchHistory := _sessionSearchHistory s |}.

Definition set_sessionSearchHistory (l : list string) (s : t) : t :=
  {| _prefs := _prefs s; _isIncognitoSession := _isIncognitoSession s;
     _sessionRecentPrograms := _sessionRecentPrograms s;
     _sessionSearchHistory := l |}.

(** Records a call that leaves the app, with what is to be found then. *)
Definition emit (e : Event) : M World unit :=
  modify (fun w => {| store := store w; service := service w;
                      trace := trace w ++ [(e, view w)] |}).

(** Preference keys *)
Definition _quickExitEnabledKey := "bay_navigator:quick_exit_enabled".
Definition _quickExitUrlKey := "bay_navigator:quick_exit_url".
Definition _incognitoModeKey := "bay_navigator:incognito_mode".
Definition _showSafetyTipsKey := "bay_navigator:show_safety_tips".
Definition _networkWarningsKey := "bay_navigator:network_warnings".
Definition _recentProgramsKey := "bay_navigator:recent_programs".
Definition _searchHistoryKey := "bay_navigator:search_history".
Definition _disguisedModeKey := "bay_navigator:disguised_mode".
Definition _disguisedIconKey := "bay_navigator:disguised_icon".

Definition calculator : DisguisedAppIcon :=
  {| dai_id := "calculator"; dai_name := "Calculator";
     androidActivityAlias := ".CalculatorAlias"; iosIconName := "CalculatorIcon";
     iconData := Icons_calculate_outlined; backgroundColor := 0xFF424242%N |}.

Definition disguisedIcons : list DisguisedAppIcon := [
  calculator;
  {| dai_id := "notes"; dai_name := "My Notes";
     androidActivityAlias := ".NotesAlias"; iosIconName := "NotesIcon";
     iconData := Icons_note_outlined; backgroundColor := 0xFFFFC107%N |};
  {| dai_id := "weather"; dai_name := "Weather";
     androidActivityAlias := ".WeatherAlias"; iosIconName := "WeatherIcon";
     iconData := Icons_wb_sunny_outlined; backgroundColor := 0xFF2196F3%N |};
  {| dai_id := "utilities"; dai_name := "Utilities";
     androidActivityAlias := ".UtilitiesAlias"; iosIconName := "UtilitiesIcon";
     iconData := Icons_build_outlined; backgroundColor := 0xFF607D8B%N |};
  {| dai_id := "files"; dai_name := "Files";
     androidActivityAlias := ".FilesAlias"; iosIconName := "FilesIcon";
     iconData := Icons_folder_outlined; backgroundColor := 0xFF4CAF50%N |}
].

(** Default safe exit destinations *)
Definition google : QuickExitDestination :=
  {| qed_id := "google"; qed_name := "Google";
     qed_url := "https://www.google.com"; qed_description := "Opens Google search" |}.

Definition defaultDestinations : list QuickExitDestination := [
  google;
  {| qed_id := "weather"; qed_name := "Weather.gov";
     qed_url := "https://www.weather.gov"; qed_description := "Opens weather forecast" |};
  {| qed_id := "news"; qed_name := "AP News";
     qed_url := "https://apnews.com"; qed_description := "Opens news website" |};
  {| qed_id := "recipes"; qed_name := "AllRecipes";
     qed_url := "https://www.allrecipes.com"; qed_description := "Opens recipe website" |}
].

(** Sensitive program categories that should show safety tips *)
Definition sensitiveCategories : list string :=
  ["crisis"; "domestic-violence"; "mental-health"; "lgbtq"; "teen-health";
   "substance-abuse"; "housing-emergency"].

(** Sensitive eligibility groups *)
Definition sensitiveEligibilities : list string :=
  ["lgbtq"; "youth"; "immigrants"; "unhoused"; "reentry"].

(** [defaultDestinations[0].url] *)
Definition defaultUrl : string := qed_url (List.hd google defaultDestinations).


Section Service.
Context (env : Env).

(** [_preferences]: [_prefs ??= await SharedPreferences.getInstance()]. *)
Definition _preferences : M World unit :=
  fun w =>
    if _prefs (service w) then (Ok tt, w)
    else if getInstanceFails env then (Thrown StoreUnavailable, w)
    else (Ok tt, withService (set_prefs true) w).

(** The getters of [SharedPreferences]: [None] is Dart's [null] for an
    absent key; a value of another type makes the cast fail. *)
Definition getBool (key : string) : M World (option bool) :=
  fun w =>
    match store w !! key with
    | None => (Ok None, w)
    | Some (PBool b) => (Ok (Some b), w)
    | Some _ => (Thrown TypeError, w)
    end.

Definition getString (key : string) : M World (option string) :=
  fun w =>
    match store w !! key with
    | None => (Ok None, w)
    | Some (PString s) => (Ok (Some s), w)
    | Some _ => (Thrown TypeError, w)
    end.

Definition getStringList (key : string) : M World (option (list string)) :=
  fun w =>
    match store w !! key with
    | None => (Ok None, w)
    | Some (PStringList l) => (Ok (Some l), w)
    | Some _ => (Thrown TypeError, w)
    end.

Definition write (key : string)
    (f : gmap string PrefValue -> gmap string PrefValue) : M World bool :=
  fun w =>
    match writeOutcome env key with
    | Commit => (Ok true, withStore f w)
    | Reject => (Ok false, w)
    | WriteThrows => (Thrown StoreWriteFailed, w)
    end.

Definition setBool (key : string) (value : bool) : M World bool :=
  write key (insert key (PBool value)).
Definition setString (key : string) (value : string) : M World bool :=
  write key (insert key (PString value)).
Definition setStringList (key : string) (value : list string) : M World bool :=
  write key (insert key (PStringList value)).
Definition remove (key : string) : M World bool :=
  write key (delete key).

(** *** Quick exit (panic button) *)

Definition isQuickExitEnabled : M World bool :=
  run _preferences;
  do v <- getBool _quickExitEnabledKey;
  ret (default false v).

Definition setQuickExitEnabled (enabled : bool) : M World unit :=
  run _preferences;
  run setBool _quickExitEnabledKey enabled;
  ret tt.

Definition getQuickExitUrl : M World string :=
  run _preferences;
  do v <- getString _quickExitUrlKey;
  ret (default defaultUrl v).

Definition setQuickExitUrl (url : string) : M World unit :=
  run _preferences;
  run setString _quickExitUrlKey url;
  ret tt.

(** *** Incognito mode *)

Definition isIncognitoModeEnabled : M World bool :=
  run _preferences;
  do v <- getBool _incognitoModeKey;
  ret (default false v).

Definition clearAllHistory : M World unit :=
  run _preferences;
  run remove _recentProgramsKey;
  run remove _searchHistoryKey;
  run modify (withService (set_sessionRecentPrograms []));
  modify (withService (set_sessionSearchHistory [])).

Definition setIncognitoModeEnabled (enabled : bool) : M World unit :=
  run _preferences;
  run setBool _incognitoModeKey enabled;
  run modify (withService (set_isIncognitoSession enabled));
  if enabled then clearAllHistory else ret tt.

Definition isIncognitoSession : M World bool :=
  gets (fun w => _isIncognitoSession (service w)).

Definition startIncognitoSession : M World unit :=
  run modify (withService (set_isIncognitoSession true));
  run modify (withService (set_sessionRecentPrograms []));
  modify (withService (set_sessionSearchHistory [])).

Definition endIncognitoSession : M World unit :=
  run modify (withService (set_isIncognitoSession false));
  run modify (withService (set_sessionRecentPrograms []));
  modify (withService (set_sessionSearchHistory [])).

(** *** History management *)

(** The session branch of [addRecentProgram] and [addSearchQuery], as a
    function of the session list: [None] is the [RangeError] of
    [removeLast]. *)
Definition sessionAdd (x : string) (l : list string) : option (list string) :=
  if negb (Dart.contains l x) then
    let l1 := Dart.insert0 x l in
    if (10 <? length l1)%nat then Dart.removeLast l1 else Some l1
  else Some l.

(** The persisted branch, as a function of the list read from the store. *)
Definition persistedAdd (x : string) (l : list string) : option (list string) :=
  let l1 := Dart.remove x l in
  let l2 := Dart.insert0 x l1 in
  if (20 <? length l2)%nat then Dart.removeLast l2 else Some l2.

Definition orRangeError {S A} (o : option A) : M S A :=
  match o with Some a => ret a | None => throw RangeError end.

Definition addRecentProgram (programId : string) : M World unit :=
  do incognito <- gets (fun w => _isIncognitoSession (service w));
  if (incognito : bool) then
    do l <- gets (fun w => _sessionRecentPrograms (service w));
    do l' <- orRangeError (sessionAdd programId l);
    modify (withService (set_sessionRecentPrograms l'))
  else
    run _preferences;
    do stored <- getStringList _recentProgramsKey;
    do recent <- orRangeError (persistedAdd programId (default [] stored));
    run setStringList _recentProgramsKey recent;
    ret tt.

Definition getRecentPrograms : M World (list string) :=
  do incognito <- gets (fun w => _isIncognitoSession (service w));
  if (incognito : bool) then
    gets (fun w => _sessionRecentPrograms (service w))
  else
    run _preferences;
    do stored <- getStringList _recentProgramsKey;
    ret (default [] stored).

Definition addSearchQuery (query : string) : M World unit :=
  do incognito <- gets (fun w => _isIncognitoSession (service w));
  if (incognito : bool) then
    do l <- gets (fun w => _sessionSearchHistory (service w));
    do l' <- orRangeError (sessionAdd query l);
    modify (withService (set_sessionSearchHistory l'))
  else
    run _preferences;
    do stored <- getStringList _searchHistoryKey;
    do history <- orRangeError (persistedAdd query (default [] stored));
    run setStringList _searchHistoryKey history;
    ret tt.

Definition getSearchHistory : M World (list string) :=
  do incognito <- gets (fun w => _isIncognitoSession (service w));
  if (incognito : bool) then
    gets (fun w => _sessionSearchHistory (service w))
  else
    run _preferences;
    do stored <- getStringList _searchHistoryKey;
    ret (default [] stored).

(** [clearSessionData]: the [||] evaluates [isIncognitoModeEnabled] only
    when no incognito session is active. *)
Definition clearSessionData : M World unit :=
  run modify (withService (set_sessionRecentPrograms []));
  run modify (withService (set_sessionSearchHistory []));
  do incognito <- gets (fun w => _isIncognitoSession (service w));
  do purge <- (if (incognito : bool) then ret true else isIncognitoModeEnabled);
  if (purge : bool) then clearAllHistory else ret tt.

(** *** The calls that leave the app *)

Definition uriParse (url : string) : M World string :=
  if uriParses env url then ret url else throw FormatException.

Definition canLaunchUrl (uri : string) : M World bool :=
  run emit (CanLaunchUrl uri);
  match canLaunchAnswer env uri with
  | Some b => ret b
  | None => throw LaunchFailed
  end.

Definition launchUrl (uri : string) : M World bool :=
  run emit (LaunchUrl uri);
  match launchAnswer env uri with
  | Some b => ret b
  | None => throw LaunchFailed
  end.

Definition isAndroid : bool := match platform env with Android => true | _ => false end.
Definition isIOS : bool := match platform env with IOS => true | _ => false end.

Definition executeQuickExit : M World unit :=
  do url <- getQuickExitUrl;
  run clearSessionData;
  do uri <- uriParse url;
  do can <- canLaunchUrl uri;
  run (if (can : bool) then (run launchUrl uri; ret tt) else ret tt);
  if isAndroid || isIOS then emit SystemNavigatorPop else ret tt.

(** *** Safety tips *)

Definition shouldShowSafetyTips : M World bool :=
  run _preferences;
  do v <- getBool _showSafetyTipsKey;
  ret (default true v).

Definition setShowSafetyTips (show : bool) : M World unit :=
  run _preferences;
  run setBool _showSafetyTipsKey show;
  ret tt.

Definition isProgramSensitive (category : option string)
    (eligibility : option (list string)) : bool :=
  if match category with
     | Some c => Dart.contains sensitiveCategories (Dart.toLowerCase c)
     | None => false
     end
  then true
  else
    match eligibility with
    | Some tags =>
        existsb (fun elig => Dart.contains sensitiveEligibilities (Dart.toLowerCase elig)) tags
    | None => false
    end.

Definition baseTips : list SafetyTip := [
  {| tip_icon := Icons_security;
     tip_title := "Check your surroundings";
     tip_description := "Make sure you're in a private, safe location before making calls." |};
  {| tip_icon := Icons_phone_android;
     tip_title := "Consider using a different phone";
     tip_description := "If your phone is monitored, use a friend's phone or a public phone." |};
  {| tip_icon := Icons_history;
     tip_title := "Clear your history";
     tip_description := "Use Incognito Mode or clear your browser/app history after visiting." |}
].

Definition categoryTips : list SafetyTip := [
  {| tip_icon := Icons_dialpad;
     tip_title := "Use *67 to hide your number";
     tip_description := "Dial *67 before the number to block your caller ID." |};
  {| tip_icon := Icons_schedule;
     tip_title := "Plan your call";
     tip_description := "Choose a time when you know you'll have privacy." |}
].

(** [category?.toLowerCase() == text]: with a null [category] the left
    side is null, and the comparison is false. *)
Definition lowerEquals (category : option string) (text : string) : bool :=
  bool_decide (Dart.toLowerCase <$> category = Some text).

Definition getSafetyTips (category : option string) : list SafetyTip :=
  let tips := baseTips in
  if lowerEquals category "domestic-violence" || lowerEquals category "crisis"
  then tips ++ categoryTips
  else tips.

(** *** Network privacy warnings *)

Definition isNetworkWarningsEnabled : M World bool :=
  run _preferences;
  do v <- getBool _networkWarningsKey;
  ret (default true v).

Definition setNetworkWarningsEnabled (enabled : bool) : M World unit :=
  run _preferences;
  run setBool _networkWarningsKey enabled;
  ret tt.

(** [Connectivity().checkConnectivity()] *)
Definition checkConnectivity : M World (list ConnectivityResult) :=
  run emit CheckConnectivity;
  match connectivityReading env with
  | Some reading => ret reading
  | None => throw ConnectivityFailed
  end.

Definition unknownStatus : NetworkPrivacyStatus :=
  {| level := unknown; connectionType := "Unknown";
     warning := None; suggestion := None |}.

Definition getNetworkPrivacyStatus : M World NetworkPrivacyStatus :=
  tryCatch
    (do connectivityResult <- checkConnectivity;
     if bool_decide (CR_wifi ∈ connectivityResult) then
       ret {| level := caution; connectionType := "WiFi";
              warning := Some "You're on WiFi. Network owner may be able to see your activity.";
              suggestion := Some "Consider using mobile data for sensitive lookups." |}
     else if bool_decide (CR_mobile ∈ connectivityResult) then
       ret {| level := moderate; connectionType := "Mobile Data";
              warning := None;
              suggestion := Some "Mobile data is generally more private than public WiFi." |}
     else if bool_decide (CR_vpn ∈ connectivityResult) then
       ret {| level := good; connectionType := "VPN";
              warning := None;
              suggestion := Some "VPN detected. Your traffic is encrypted." |}
     else if bool_decide (CR_none ∈ connectivityResult) then
       ret {| level := offline; connectionType := "Offline";
              warning := Some "You're offline.";
              suggestion := Some "Some features may not work without internet." |}
     else ret unknownStatus)
    (fun _ => ret unknownStatus).

(** *** Disguised app mode *)

Definition isDisguisedModeEnabled : M World bool :=
  run _preferences;
  do v <- getBool _disguisedModeKey;
  ret (default false v).

Definition setDisguisedModeEnabled (enabled : bool) : M World unit :=
  run _preferences;
  run setBool _disguisedModeKey enabled;
  ret tt.

Definition getDisguisedIconId : M World (option string) :=
  run _preferences;
  getString _disguisedIconKey.

Definition setDisguisedIcon (iconId : string) : M World unit :=
  run _preferences;
  run setString _disguisedIconKey iconId;
  ret tt.

Definition getCurrentDisguisedIcon : M World (option DisguisedAppIcon) :=
  do iconId <- getDisguisedIconId;
  match iconId with
  | None => ret None
  | Some id =>
      ret (Some (Dart.firstWhere (fun icon => bool_decide (dai_id icon = id))
                   (List.hd calculator disguisedIcons) disguisedIcons))
  end.

Definition applyDisguisedIcon (iconId : string) : M World DisguiseResult :=
  tryCatch
    (run setDisguisedIcon iconId;
     run setDisguisedModeEnabled true;
     if isIOS then
       ret {| success := true;
              message := "App icon changed. iOS will show a confirmation alert.";
              requiresRestart := false |}
     else if isAndroid then
       ret {| success := true;
              message := "App icon changed. You may need to restart the app for changes to appear on some devices.";
              requiresRestart := true |}
     else
       ret {| success := true; message := "Disguised mode enabled.";
              requiresRestart := false |})
    (fun e =>
       ret {| success := false;
              message := "Failed to change app icon: " ++ exnToString e;
              requiresRestart := false |}).

Definition resetToDefaultIcon : M World DisguiseResult :=
  tryCatch
    (run setDisguisedModeEnabled false;
     run _preferences;
     run remove _disguisedIconKey;
     ret {| success := true; message := "App icon reset to default.";
            requiresRestart := isAndroid |})
    (fun e =>
       ret {| success := false;
              message := "Failed to reset app icon: " ++ exnToString e;
              requiresRestart := false |}).

End Service.
End SafetyService.

(** ** SafetyProvider (lib/providers/safety_provider.dart) *)

Module SafetyProvider.

(** The cached fields; [_networkSubscription] tells whether the
    subscription to the network stream is held (non-null). *)
Record t := {
  _initialized : bool;
  _quickExitEnabled : bool;
  _quickExitUrl : string;
  _incognitoModeEnabled : bool;
  _isIncognitoSession : bool;
  _showSafetyTips : bool;
  _networkWarningsEnabled : bool;
  _networkStatus : option NetworkPrivacyStatus;
  _networkSubscription : bool;
  _disguisedModeEnabled : bool;
  _currentDisguisedIcon : option DisguisedAppIcon
}.

(** The field initialisers of the class. *)
Definition fresh : t :=
  {| _initialized := false;
     _quickExitEnabled := false;
     _quickExitUrl := SafetyService.defaultUrl;
     _incognitoModeEnabled := false;
     _isIncognitoSession := false;
     _showSafetyTips := true;
     _networkWarningsEnabled := true;
     _networkStatus := None;
     _networkSubscription := false;
     _disguisedModeEnabled := false;
     _currentDisguisedIcon := None |}.

Definition set_initialized (v : bool) (p : t) : t :=
  {| _initialized := v;
     _quickExitEnabled := _quickExitEnabled p;
     _quickExitUrl := _quickExitUrl p;
     _incognitoModeEnabled := _incognitoModeEnabled p;
     _isIncognitoSession := _isIncognitoSession p;
     _showSafetyTips := _showSafetyTips p;
     _networkWarningsEnabled := _networkWarningsEnabled p;
     _networkStatus := _networkStatus p;
     _networkSubscription := _networkSubscription p;
     _disguisedModeEnabled := _disguisedModeEnabled p;
     _currentDisguisedIcon := _currentDisguisedIcon p |}.

Definition set_quickExitEnabled (v : bool) (p : t) : t :=
  {| _initialized := _initialized p;
     _quickExitEnabled := v;
     _quickExitUrl := _quickExitUrl p;
     _incognitoModeEnabled := _incognitoModeEnabled p;
     _isIncognitoSession := _isIncognitoSession p;
     _showSafetyTips := _showSafetyTips p;
     _networkWarningsEnabled := _networkWarningsEnabled p;
     _networkStatus := _networkStatus p;
     _networkSubscription := _networkSubscription p;
     _disguisedModeEnabled := _disguisedModeEnabled p;
     _currentDisguisedIcon := _currentDisguisedIcon p |}.

Definition set_quickExitUrl (v : string) (p : t) : t :=
  {| _initialized := _initialized p;
     _quickExitEnabled := _quickExitEnabled p;
     _quickExitUrl := v;
     _incognitoModeEnabled := _incognitoModeEnabled p;
     _isIncognitoSession := _isIncognitoSession p;
     _showSafetyTips := _showSafetyTips p;
     _networkWarningsEnabled := _networkWarningsEnabled p;
     _networkStatus := _networkStatus p;
     _networkSubscription := _networkSubscription p;
     _disguisedModeEnabled := _disguisedModeEnabled p;
     _currentDisguisedIcon := _currentDisguisedIcon p |}.

Definition set_incognitoModeEnabled (v : bool) (p : t) : t :=
  {| _initialized := _initialized p;
     _quickExitEnabled := _quickExitEnabled p;
     _quickExitUrl := _quickExitUrl p;
     _incognitoModeEnabled := v;
     _isIncognitoSession := _isIncognitoSession p;
     _showSafetyTips := _showSafetyTips p;
     _networkWarningsEnabled := _networkWarningsEnabled p;
     _networkStatus := _networkStatus p;
     _networkSubscription := _networkSubscription p;
     _disguisedModeEnabled := _disguisedModeEnabled p;
     _currentDisguisedIcon := _currentDisguisedIcon p |}.

Definition set_isIncognitoSession (v : bool) (p : t) : t :=
  {| _initialized := _initialized p;
     _quickExitEnabled := _quickExitEnabled p;
     _quickExitUrl := _quickExitUrl p;
     _incognitoModeEnabled := _incognitoModeEnabled p;
     _isIncognitoSession := v;
     _showSafetyTips := _showSafetyTips p;
     _networkWarningsEnabled := _networkWarningsEnabled p;
     _networkStatus := _networkStatus p;
     _networkSubscription := _networkSubscription p;
     _disguisedModeEnabled := _disguisedModeEnabled p;
     _currentDisguisedIcon := _currentDisguisedIcon p |}.

Definition set_showSafetyTips (v : bool) (p : t) : t :=
  {| _initialized := _initialized p;
     _quickExitEnabled := _quickExitEnabled p;
     _quickExitUrl := _quickExitUrl p;
     _incognitoModeEnabled := _incognitoModeEnabled p;
     _isIncognitoSession := _isIncognitoSession p;
     _showSafetyTips := v;
     _networkWarningsEnabled := _networkWarningsEnabled p;
     _networkStatus := _networkStatus p;
     _networkSubscription := _networkSubscription p;
     _disguisedModeEnabled := _disguisedModeEnabled p;
     _currentDisguisedIcon := _currentDisguisedIcon p |}.

Definition set_networkWarningsEnabled (v : bool) (p : t) : t :=
  {| _initialized := _initialized p;
     _quickExitEnabled := _quickExitEnabled p;
     _quickExitUrl := _quickExitUrl p;
     _incognitoModeEnabled := _incognitoModeEnabled p;
     _isIncognitoSession := _isIncognitoSession p;
     _showSafetyTips := _showSafetyTips p;
     _networkWarningsEnabled := v;
     _networkStatus := _networkStatus p;
     _networkSubscription := _networkSubscription p;
     _disguisedModeEnabled := _disguisedModeEnabled p;
     _currentDisguisedIcon := _currentDisguisedIcon p |}.

Definition set_networkStatus (v : option NetworkPrivacyStatus) (p : t) : t :=
  {| _initialized := _initialized p;
     _quickExitEnabled := _quickExitEnabled p;
     _quickExitUrl := _quickExitUrl p;
     _incognitoModeEnabled := _incognitoModeEnabled p;
     _isIncognitoSession := _isIncognitoSession p;
     _showSafetyTips := _showSafetyTips p;
     _networkWarningsEnabled := _networkWarningsEnabled p;
     _networkStatus := v;
     _networkSubscription := _networkSubscription p;
     _disguisedModeEnabled := _disguisedModeEnabled p;
     _currentDisguisedIcon := _currentDisguisedIcon p |}.

Definition set_networkSubscription (v : bool) (p : t) : t :=
  {| _initialized := _initialized p;
     _quickExitEnabled := _quickExitEnabled p;
     _quickExitUrl := _quickExitUrl p;
     _incognitoModeEnabled := _incognitoModeEnabled p;
     _isIncognitoSession := _isIncognitoSession p;
     _showSafetyTips := _showSafetyTips p;
     _networkWarningsEnabled := _networkWarningsEnabled p;
     _networkStatus := _networkStatus p;
     _networkSubscription := v;
     _disguisedModeEnabled := _disguisedModeEnabled p;
     _currentDisguisedIcon := _currentDisguisedIcon p |}.

Definition set_disguisedModeEnabled (v : bool) (p : t) : t :=
  {| _initialized := _initialized p;
     _quickExitEnabled := _quickExitEnabled p;
     _quickExitUrl := _quickExitUrl p;
     _incognitoModeEnabled := _incognitoModeEnabled p;
     _isIncognitoSession := _isIncognitoSession p;
     _showSafetyTips := _showSafetyTips p;
     _networkWarningsEnabled := _networkWarningsEnabled p;
     _networkStatus := _networkStatus p;
     _networkSubscription := _networkSubscription p;
     _disguisedModeEnabled := v;
     _currentDisguisedIcon := _currentDisguisedIcon p |}.

Definition set_currentDisguisedIcon (v : option DisguisedAppIcon) (p : t) : t :=
  {| _initialized := _initialized p;
     _quickExitEnabled := _quickExitEnabled p;
     _quickExitUrl := _quickExitUrl p;
     _incognitoModeEnabled := _incognitoModeEnabled p;
     _isIncognitoSession := _isIncognitoSession p;
     _showSafetyTips := _showSafetyTips p;
     _networkWarningsEnabled := _networkWarningsEnabled p;
     _networkStatus := _networkStatus p;
     _networkSubscription := _networkSubscription p;
     _disguisedModeEnabled := _disguisedModeEnabled p;
     _currentDisguisedIcon := v |}.

(** The provider together with the world of the service singleton it
    holds in [_safetyService]. *)
Record App := {
  provider : t;
  world : SafetyService.World
}.

(** A call into [_safetyService]. *)
Definition _safetyService {A} (m : M SafetyService.World A) : M App A :=
  lift world (fun w a => {| provider := provider a; world := w |}) m.

(** An assignment to cached fields. *)
Definition assign (f : t -> t) : M App unit :=
  modify (fun a => {| provider := f (provider a); world := world a |}).

Definition notifyListeners : M App unit :=
  _safetyService (SafetyService.emit NotifyListeners).

Section Provider.
Context (env : Env).

(** The body of the [try] of [initialize]. *)
Definition loadSettings : M App unit :=
  do v <- _safetyService (SafetyService.isQuickExitEnabled env);
  run assign (set_quickExitEnabled v);
  do v <- _safetyService (SafetyService.getQuickExitUrl env);
  run assign (set_quickExitUrl v);
  do v <- _safetyService (SafetyService.isIncognitoModeEnabled env);
  run assign (set_incognitoModeEnabled v);
  do v <- _safetyService SafetyService.isIncognitoSession;
  run assign (set_isIncognitoSession v);
  do v <- _safetyService (SafetyService.shouldShowSafetyTips env);
  run assign (set_showSafetyTips v);
  do v <- _safetyService (SafetyService.isNetworkWarningsEnabled env);
  run assign (set_networkWarningsEnabled v);
  do v <- _safetyService (SafetyService.getNetworkPrivacyStatus env);
  run assign (set_networkStatus (Some v));
  do v <- _safetyService (SafetyService.isDisguisedModeEnabled env);
  run assign (set_disguisedModeEnabled v);
  do v <- _safetyService (SafetyService.getCurrentDisguisedIcon env);
  run assign (set_currentDisguisedIcon v);
  run _safetyService (SafetyService.emit ListenNetworkPrivacyStream);
  run assign (set_networkSubscription true);
  do incognito <- gets (fun a => _incognitoModeEnabled (provider a));
  if (incognito : bool) then
    run _safetyService SafetyService.startIncognitoSession;
    assign (set_isIncognitoSession true)
  else ret tt.

Definition initialize : M App unit :=
  do initialized <- gets (fun a => _initialized (provider a));
  if (initialized : bool) then ret tt
  else
    run tryCatch loadSettings (fun _ => ret tt);
    run assign (set_initialized true);
    notifyListeners.

(** The listener registered on [networkPrivacyStream]: the stream maps
    each connectivity change to [getNetworkPrivacyStatus()]. *)
Definition onConnectivityChanged : M App unit :=
  do subscribed <- gets (fun a => _networkSubscription (provider a));
  if (subscribed : bool) then
    do status <- _safetyService (SafetyService.getNetworkPrivacyStatus env);
    run assign (set_networkStatus (Some status));
    notifyListeners
  else ret tt.

Definition dispose : M App unit :=
  assign (set_networkSubscription false).

Definition setQuickExitEnabled (enabled : bool) : M App unit :=
  run assign (set_quickExitEnabled enabled);
  run _safetyService (SafetyService.setQuickExitEnabled env enabled);
  notifyListeners.

Definition setQuickExitUrl (url : string) : M App unit :=
  run assign (set_quickExitUrl url);
  run _safetyService (SafetyService.setQuickExitUrl env url);
  notifyListeners.

Definition executeQuickExit : M App unit :=
  _safetyService (SafetyService.executeQuickExit env).

Definition setIncognitoModeEnabled (enabled : bool) : M App unit :=
  run assign (set_incognitoModeEnabled enabled);
  run assign (set_isIncognitoSession enabled);
  run _safetyService (SafetyService.setIncognitoModeEnabled env enabled);
  notifyListeners.

Definition startIncognitoSession : M App unit :=
  run _safetyService SafetyService.startIncognitoSession;
  run assign (set_isIncognitoSession true);
  notifyListeners.

Definition endIncognitoSession : M App unit :=
  run _safetyService SafetyService.endIncognitoSession;
  run assign (set_isIncognitoSession false);
  notifyListeners.

Definition addRecentProgram (programId : string) : M App unit :=
  _safetyService (SafetyService.addRecentProgram env programId).

Definition getRecentPrograms : M App (list string) :=
  _safetyService (SafetyService.getRecentPrograms env).

Definition addSearchQuery (query : string) : M App unit :=
  _safetyService (SafetyService.addSearchQuery env query).

Definition getSearchHistory : M App (list string) :=
  _safetyService (SafetyService.getSearchHistory env).

Definition clearAllHistory : M App unit :=
  run _safetyService (SafetyService.clearAllHistory env);
  notifyListeners.

Definition setShowSafetyTips (show : bool) : M App unit :=
  run assign (set_showSafetyTips show);
  run _safetyService (SafetyService.setShowSafetyTips env show);
  notifyListeners.

Definition setNetworkWarningsEnabled (enabled : bool) : M App unit :=
  run assign (set_networkWarningsEnabled enabled);
  run _safetyService (SafetyService.setNetworkWarningsEnabled env enabled);
  notifyListeners.

Definition refreshNetworkStatus : M App unit :=
  do status <- _safetyService (SafetyService.getNetworkPrivacyStatus env);
  run assign (set_networkStatus (Some status));
  notifyListeners.

Definition applyDisguisedIcon (icon : DisguisedAppIcon) : M App DisguiseResult :=
  do result <- _safetyService (SafetyService.applyDisguisedIcon env (dai_id icon));
  run (if success result then
         run assign (set_disguisedModeEnabled true);
         run assign (set_currentDisguisedIcon (Some icon));
         notifyListeners
       else ret tt);
  ret result.

Definition resetToDefaultIcon : M App DisguiseResult :=
  do result <- _safetyService (SafetyService.resetToDefaultIcon env);
  run (if success result then
         run assign (set_disguisedModeEnabled false);
         run assign (set_currentDisguisedIcon None);
         notifyListeners
       else ret tt);
  ret result.

End Provider.
End SafetyProvider.

(** ** Runs of the service, and the states they reach *)

Import SafetyService.

(** The type each preference key is written with. *)
Inductive PrefType := TBool | TString | TStringList.

Definition hasType (ty : PrefType) (v : PrefValue) : bool :=
  match ty, v with
  | TBool, PBool _ => true
  | TString, PString _ => true
  | TStringList, PStringList _ => true
  | _, _ => false
  end.

Definition schema : list (string * PrefType) := [
  (_quickExitEnabledKey, TBool);
  (_quickExitUrlKey, TString);
  (_incognitoModeKey, TBool);
  (_showSafetyTipsKey, TBool);
  (_networkWarningsKey, TBool);
  (_recentProgramsKey, TStringList);
  (_searchHistoryKey, TStringList);
  (_disguisedModeKey, TBool);
  (_disguisedIconKey, TString)
].

Definition slotTyped (σ : gmap string PrefValue) (slot : string * PrefType) : Prop :=
  match σ !! slot.1 with
  | Some v => hasType slot.2 v = true
  | None => True
  end.

(** Every key of the service holds, if anything, a value of its type. *)
Definition wellTyped (σ : gmap string PrefValue) : Prop :=
  Forall (slotTyped σ) schema.

(** The store can be obtained and carries out every write. *)
Definition storeWorks (env : Env) : Prop :=
  getInstanceFails env = false /\ forall key, writeOutcome env key = Commit.

(** The persisted values as the getters read them. *)
Definition storedBool (σ : gmap string PrefValue) (key : string) (dflt : bool) : bool :=
  match σ !! key with Some (PBool b) => b | _ => dflt end.

Definition storedList (σ : gmap string PrefValue) (key : string) : list string :=
  match σ !! key with Some (PStringList l) => l | _ => [] end.

Definition storedString (σ : gmap string PrefValue) (key : string) : option string :=
  match σ !! key with Some (PString s) => Some s | _ => None end.

(** The public methods of the service, as commands; [Restart] is the
    process being killed and started again: the store stays, the fields
    of the singleton are initialised anew. *)
Inductive Command :=
| IsQuickExitEnabled
| SetQuickExitEnabled (enabled : bool)
| GetQuickExitUrl
| SetQuickExitUrl (url : string)
| ExecuteQuickExit
| IsIncognitoModeEnabled
| SetIncognitoModeEnabled (enabled : bool)
| StartIncognitoSession
| EndIncognitoSession
| AddRecentProgram (programId : string)
| GetRecentPrograms
| AddSearchQuery (query : string)
| GetSearchHistory
| ClearAllHistory
| ClearSessionData
| ShouldShowSafetyTips
| SetShowSafetyTips (show : bool)
| IsNetworkWarningsEnabled
| SetNetworkWarningsEnabled (enabled : bool)
| GetNetworkPrivacyStatus
| IsDisguisedModeEnabled
| SetDisguisedModeEnabled (enabled : bool)
| GetDisguisedIconId
| SetDisguisedIcon (iconId : string)
| GetCurrentDisguisedIcon
| ApplyDisguisedIcon (iconId : string)
| ResetToDefaultIcon
| Restart.

Definition discard {S A} (m : M S A) : M S unit :=
  fun s => match m s with
           | (Ok _, s') => (Ok tt, s')
           | (Thrown e, s') => (Thrown e, s')
           end.

Definition command (env : Env) (c : Command) : M World unit :=
  match c with
  | IsQuickExitEnabled => discard (isQuickExitEnabled env)
  | SetQuickExitEnabled enabled => setQuickExitEnabled env enabled
  | GetQuickExitUrl => discard (getQuickExitUrl env)
  | SetQuickExitUrl url => setQuickExitUrl env url
  | ExecuteQuickExit => executeQuickExit env
  | IsIncognitoModeEnabled => discard (isIncognitoModeEnabled env)
  | SetIncognitoModeEnabled enabled => setIncognitoModeEnabled env enabled
  | StartIncognitoSession => startIncognitoSession
  | EndIncognitoSession => endIncognitoSession
  | AddRecentProgram programId => addRecentProgram env programId
  | GetRecentPrograms => discard (getRecentPrograms env)
  | AddSearchQuery query => addSearchQuery env query
  | GetSearchHistory => discard (getSearchHistory env)
  | ClearAllHistory => clearAllHistory env
  | ClearSessionData => clearSessionData env
  | ShouldShowSafetyTips => discard (shouldShowSafetyTips env)
  | SetShowSafetyTips show => setShowSafetyTips env show
  | IsNetworkWarningsEnabled => discard (isNetworkWarningsEnabled env)
  | SetNetworkWarningsEnabled enabled => setNetworkWarningsEnabled env enabled
  | GetNetworkPrivacyStatus => discard (getNetworkPrivacyStatus env)
  | IsDisguisedModeEnabled => discard (isDisguisedModeEnabled env)
  | SetDisguisedModeEnabled enabled => setDisguisedModeEnabled env enabled
  | GetDisguisedIconId => discard (getDisguisedIconId env)
  | SetDisguisedIcon iconId => setDisguisedIcon env iconId
  | GetCurrentDisguisedIcon => discard (getCurrentDisguisedIcon env)
  | ApplyDisguisedIcon iconId => discard (applyDisguisedIcon env iconId)
  | ResetToDefaultIcon => discard (resetToDefaultIcon env)
  | Restart => modify (withService (fun _ => fresh))
  end.

(** The world a command leaves, whether it returned or threw. *)
Definition step (env : Env) (c : Command) (w : World) : World :=
  snd (command env c w).

(** A run under one environment. *)
Definition exec (env : Env) (cs : list Command) (w : World) : World :=
  foldl (fun w c => step env c w) w cs.

(** The app right after installation. *)
Definition installed : World :=
  {| store := ∅; service := fresh; trace := [] |}.

(** The states the app can be in: any commands, each under any behaviour
    of the collaborators. *)
Inductive Reachable : World -> Prop :=
| reach_installed : Reachable installed
| reach_step env c w : Reachable w -> Reachable (step env c w).

(** The argument of the last [setQuickExitUrl] of a run, if any. *)
Fixpoint lastUrl (cs : list Command) : option string :=
  match cs with
  | [] => None
  | c :: rest =>
      match lastUrl rest with
      | Some url => Some url
      | None => match c with SetQuickExitUrl url => Some url | _ => None end
      end
  end.

(** A history list of at most [cap] pairwise different entries. *)
Definition historyOk (cap : nat) (l : list string) : Prop :=
  NoDup l /\ length l <= cap.

Definition historiesOk (w : World) : Prop :=
  historyOk 10 (_sessionRecentPrograms (service w)) /\
  historyOk 10 (_sessionSearchHistory (service w)) /\
  historyOk 20 (storedList (store w) _recentProgramsKey) /\
  historyOk 20 (storedList (store w) _searchHistoryKey).

(** The entries a session makes, in the order of the calls. *)
Inductive Added :=
| Program (programId : string)
| Query (query : string).

Definition add (env : Env) (a : Added) : M World unit :=
  match a with
  | Program programId => addRecentProgram env programId
  | Query query => addSearchQuery env query
  end.

Definition addAll (env : Env) (adds : list Added) (w : World) : World :=
  foldl (fun w a => snd (add env a w)) w adds.

Definition programsOf (adds : list Added) : list string :=
  omap (fun a => match a with Program p => Some p | Query _ => None end) adds.

Definition queriesOf (adds : list Added) : list string :=
  omap (fun a => match a with Query q => Some q | Program _ => None end) adds.

(** The calls of [notifyListeners] in a trace. *)
Definition isNotify (ev : Event * View) : bool :=
  bool_decide (ev.1 = NotifyListeners).

Definition notifications (t : list (Event * View)) : nat :=
  length (filter (fun ev => isNotify ev = true) t).

Definition sessionListsEmpty (v : View) : Prop :=
  seenSessionRecent v = [] /\ seenSessionSearch v = [].

Definition persistedPurged (σ : gmap string PrefValue) : Prop :=
  σ !! _recentProgramsKey = None /\ σ !! _searchHistoryKey = None.

(** ** Specifications of computations *)

(** From a state where [P] holds, [m] ends in a state where [Q] holds of
    its value if it returns, and where [E] holds of the exception if it
    throws. *)
Definition hoare {S A} (P : S -> Prop) (m : M S A)
    (Q : A -> S -> Prop) (E : Exn -> S -> Prop) : Prop :=
  forall s, P s ->
    match m s with
    | (Ok a, s') => Q a s'
    | (Thrown e, s') => E e s'
    end.

(** The invariant of the history data. *)
Definition Inv (w : World) : Prop :=
  wellTyped (store w) /\ historiesOk w.

(** [m] keeps [I], however it ends. *)
Definition preserves {S A} (I : S -> Prop) (m : M S A) : Prop :=
  hoare I m (fun _ => I) (fun _ => I).

(** The value under [key] in the store is [v]. *)
Definition holds (key : string) (v : option PrefValue) (w : World) : Prop :=
  store w !! key = v.

(** The instance of the store is at hand: cached already, or obtainable. *)
Definition available (env : Env) (w : World) : Prop :=
  _prefs (service w) = true \/ getInstanceFails env = false.

(** The persisted incognito setting, as [isIncognitoModeEnabled] reads it. *)
Definition incognitoSetting (w : World) : bool :=
  storedBool (store w) _incognitoModeKey false.

(** The quick-exit URL as [getQuickExitUrl] reads it. *)
Definition quickExitUrlOf (w : World) : string :=
  default defaultUrl (storedString (store w) _quickExitUrlKey).

(** The session list after the calls [xs], by the session branch alone. *)
Definition sessionReplay (xs : list string) (l : list string) : list string :=
  foldl (fun l x => default l (sessionAdd x l)) l xs.

(** The world of a session: [startIncognitoSession()], then the
    additions. *)
Definition sessionWorld (env : Env) (w : World) (adds : list Added) : World :=
  addAll env adds (snd (startIncognitoSession w)).

(** The writes a command asks of the store: the key, and the value to
    store or [None] for a removal.  The two history lists written by
    [addRecentProgram] and [addSearchQuery] depend on what is stored and
    are not listed. *)
Definition writes (c : Command) : list (string * option PrefValue) :=
  match c with
  | SetQuickExitEnabled enabled => [(_quickExitEnabledKey, Some (PBool enabled))]
  | SetQuickExitUrl url => [(_quickExitUrlKey, Some (PString url))]
  | SetIncognitoModeEnabled enabled =>
      [(_incognitoModeKey, Some (PBool enabled));
       (_recentProgramsKey, None); (_searchHistoryKey, None)]
  | ExecuteQuickExit | ClearAllHistory | ClearSessionData =>
      [(_recentProgramsKey, None); (_searchHistoryKey, None)]
  | SetShowSafetyTips show => [(_showSafetyTipsKey, Some (PBool show))]
  | SetNetworkWarningsEnabled enabled => [(_networkWarningsKey, Some (PBool enabled))]
  | SetDisguisedModeEnabled enabled => [(_disguisedModeKey, Some (PBool enabled))]
  | SetDisguisedIcon iconId => [(_disguisedIconKey, Some (PString iconId))]
  | ApplyDisguisedIcon iconId =>
      [(_disguisedIconKey, Some (PString iconId)); (_disguisedModeKey, Some (PBool true))]
  | ResetToDefaultIcon =>
      [(_disguisedModeKey, Some (PBool false)); (_disguisedIconKey, None)]
  | _ => []
  end.

(** The writes under which the invariant stays: removals, and values of
    the key's type under the keys that hold no history list. *)
Definition typedWrite (key : string) (v : option PrefValue) : Prop :=
  match v with
  | None => True
  | Some v =>
      key <> _recentProgramsKey /\ key <> _searchHistoryKey /\
      exists ty, (key, ty) ∈ schema /\ hasType ty v = true
  end.



(** The store fails by throwing: the instance cannot be obtained, or
    every write throws. *)
Definition storeThrows (env : Env) (w : World) : Prop :=
  (_prefs (service w) = false /\ getInstanceFails env = true) \/
  (forall key, writeOutcome env key = WriteThrows).

(** ** The provider's runs *)

Definition isOk {A} (r : Res A) : bool :=
  match r with Ok _ => true | Thrown _ => false end.

(** From [a] to [a'], [notifyListeners] was called [n] times. *)
Definition notifiedTimes (n : nat) (a a' : SafetyProvider.App) : Prop :=
  notifications (trace (SafetyProvider.world a')) =
  notifications (trace (SafetyProvider.world a)) + n.

(** The provider as constructed, over a world. *)
Definition appOver (w : World) : SafetyProvider.App :=
  {| SafetyProvider.provider := SafetyProvider.fresh; SafetyProvider.world := w |}.

(** The icon [getCurrentDisguisedIcon] resolves a stored id to. *)
Definition iconOf (w : World) : option DisguisedAppIcon :=
  match storedString (store w) _disguisedIconKey with
  | None => None
  | Some id =>
      Some (Dart.firstWhere (fun icon => bool_decide (dai_id icon = id))
              calculator disguisedIcons)
  end.

(** The status [getNetworkPrivacyStatus] answers under [env]. *)
Definition statusOf (env : Env) : NetworkPrivacyStatus :=
  match fst (getNetworkPrivacyStatus env installed) with
  | Ok status => status
  | Thrown _ => unknownStatus
  end.

(** The cached fields of [p] are what the service holds in [w]; the
    session flag counts the session that [initialize] starts when the
    persisted incognito setting is on. *)
Definition loadedFrom (env : Env) (w : World) (p : SafetyProvider.t) : Prop :=
  SafetyProvider._quickExitEnabled p = storedBool (store w) _quickExitEnabledKey false /\
  SafetyProvider._quickExitUrl p = quickExitUrlOf w /\
  SafetyProvider._incognitoModeEnabled p = incognitoSetting w /\
  SafetyProvider._isIncognitoSession p =
    _isIncognitoSession (service w) || incognitoSetting w /\
  SafetyProvider._showSafetyTips p = storedBool (store w) _showSafetyTipsKey true /\
  SafetyProvider._networkWarningsEnabled p = storedBool (store w) _networkWarningsKey true /\
  SafetyProvider._networkStatus p = Some (statusOf env) /\
  SafetyProvider._disguisedModeEnabled p = storedBool (store w) _disguisedModeKey false /\
  SafetyProvider._currentDisguisedIcon p = iconOf w /\
  SafetyProvider._networkSubscription p = true.

(** The outcome [r] of a provider method called in [a]: the cache is as
    [cached] says, the outcome is [serviceOutcome], and the listeners
    were notified once if the method returned and not at all if it
    threw. *)
Definition notifiesIfReturned {A} (r : Res A * SafetyProvider.App)
    (a : SafetyProvider.App) (serviceOutcome : Res A)
    (cached : SafetyProvider.t -> Prop) : Prop :=
  cached (SafetyProvider.provider (snd r)) /\
  fst r = serviceOutcome /\
  notifiedTimes (if isOk (fst r) then 1 else 0) a (snd r).

(** The outcome [r] of a disguise method of the provider called in [a]:
    it returns the service's result; the cache follows and the listeners
    are notified once when the result reports success, and nothing
    happens to the cache or the listeners when it does not. *)
Definition notifiesOnSuccess (r : Res DisguiseResult * SafetyProvider.App)
    (a : SafetyProvider.App) (serviceOutcome : Res DisguiseResult)
    (cached : SafetyProvider.t -> Prop) : Prop :=
  exists result,
    fst r = Ok result /\ serviceOutcome = Ok result /\
    if success result
    then cached (SafetyProvider.provider (snd r)) /\ notifiedTimes 1 a (snd r)
    else SafetyProvider.provider (snd r) = SafetyProvider.provider a /\
         notifiedTimes 0 a (snd r).

(** ** Sample collaborators and worlds *)

(** Everything works: the store writes, every URL opens, the phone is on
    WiFi. *)
Definition workingEnv : Env :=
  {| getInstanceFails := false;
     writeOutcome := fun _ => Commit;
     uriParses := fun _ => true;
     canLaunchAnswer := fun _ => Some true;
     launchAnswer := fun _ => Some true;
     platform := Android;
     connectivityReading := Some [CR_wifi] |}.

(** The store works, but no URL can be opened and the launcher throws. *)
Definition failingOpenerEnv : Env :=
  {| getInstanceFails := false;
     writeOutcome := fun _ => Commit;
     uriParses := fun _ => true;
     canLaunchAnswer := fun _ => None;
     launchAnswer := fun _ => None;
     platform := Android;
     connectivityReading := Some [CR_wifi] |}.

(** The [SharedPreferences] instance cannot be obtained. *)
Definition noStoreEnv : Env :=
  {| getInstanceFails := true;
     writeOutcome := fun _ => WriteThrows;
     uriParses := fun _ => true;
     canLaunchAnswer := fun _ => Some true;
     launchAnswer := fun _ => Some true;
     platform := Android;
     connectivityReading := None |}.

(** The instance is there, but every write throws. *)
Definition writeThrowsEnv : Env :=
  {| getInstanceFails := false;
     writeOutcome := fun _ => WriteThrows;
     uriParses := fun _ => true;
     canLaunchAnswer := fun _ => Some true;
     launchAnswer := fun _ => Some true;
     platform := Android;
     connectivityReading := Some [CR_mobile] |}.

(** Every write answers [false] and stores nothing. *)
Definition writeRejectsEnv : Env :=
  {| getInstanceFails := false;
     writeOutcome := fun _ => Reject;
     uriParses := fun _ => true;
     canLaunchAnswer := fun _ => Some true;
     launchAnswer := fun _ => Some true;
     platform := IOS;
     connectivityReading := Some [CR_vpn] |}.

(** A world with persisted history, outside any incognito session. *)
Definition browsedWorld : World :=
  {| store := <[_recentProgramsKey := PStringList ["calfresh"; "medi-cal"]]>
              (<[_searchHistoryKey := PStringList ["shelter"]]> ∅);
     service := fresh;
     trace := [] |}.

(** A world inside an incognito session with entries in both session
    lists, and persisted history from before. *)
Definition incognitoWorld : World :=
  {| store := <[_recentProgramsKey := PStringList ["calfresh"]]> ∅;
     service := {| _prefs := true; _isIncognitoSession := true;
                   _sessionRecentPrograms := ["hotline"; "shelter-a"];
                   _sessionSearchHistory := ["restraining order"] |};
     trace := [] |}.

(** ** The getters of NetworkPrivacyStatus *)

(** The icons the status getter answers with. *)
Inductive StatusIconData :=
| Icons_shield | Icons_signal_cellular_alt | Icons_wifi
| Icons_signal_wifi_off | Icons_help_outline.

Module Status.

(** [indicatorColor]: the ARGB value of the colour. *)
Definition indicatorColor (st : NetworkPrivacyStatus) : N :=
  match level st with
  | good => 0xFF4CAF50%N
  | moderate => 0xFF2196F3%N
  | caution => 0xFFFF9800%N
  | offline => 0xFF9E9E9E%N
  | unknown => 0xFF9E9E9E%N
  end.

Definition icon (st : NetworkPrivacyStatus) : StatusIconData :=
  match level st with
  | good => Icons_shield
  | moderate => Icons_signal_cellular_alt
  | caution => Icons_wifi
  | offline => Icons_signal_wifi_off
  | unknown => Icons_help_outline
  end.

End Status.

(** ** The widgets (lib/widgets/safety_widgets.dart)

    A [build] method is modelled by what it decides to show and the data
    it shows; layout and styling are left out. *)

Module IncognitoIndicator.

(** [None] is [SizedBox.shrink()], otherwise the text of the banner. *)
Definition build (safety : SafetyProvider.t) : option string :=
  if negb (SafetyProvider._isIncognitoSession safety) then None
  else Some "Incognito Mode - History not saved".

End IncognitoIndicator.

#[global] Instance NetworkPrivacyLevel_eq_dec : EqDecision NetworkPrivacyLevel.
Proof. solve_decision. Defined.

Module NetworkPrivacyIndicator.

Inductive Shown :=
| Shrink
| CompactIcon (message : string) (icon : StatusIconData) (color : N)
| WarningBanner (icon : StatusIconData) (connectionType : string)
    (warning : option string).

(** [safety.networkStatus == null] *)
Definition isNull {A} (o : option A) : bool :=
  match o with None => true | Some _ => false end.

(** The [!] of [safety.networkStatus!] cannot fail after the test; its
    branch for null stands for the error it would raise. *)
Definition build (compact : bool) (safety : SafetyProvider.t) : Shown :=
  if negb (SafetyProvider._networkWarningsEnabled safety) ||
     isNull (SafetyProvider._networkStatus safety)
  then Shrink
  else
    match SafetyProvider._networkStatus safety with
    | None => Shrink
    | Some status =>
        if compact then
          CompactIcon
            (default (default (connectionType status) (suggestion status))
               (warning status))
            (Status.icon status) (Status.indicatorColor status)
        else if negb (bool_decide (level status = caution)) then Shrink
        else WarningBanner (Status.icon status) (connectionType status)
               (warning status)
    end.

(** The close button of the banner. *)
Definition dismiss (env : Env) : M SafetyProvider.App unit :=
  SafetyProvider.setNetworkWarningsEnabled env false.

End NetworkPrivacyIndicator.

Module SafetyTipsDialog.

(** What [showIfNeeded] does: call [onContinue] at once, or show the
    dialog, whose [build] lists [getSafetyTips(category)] under a line
    naming the program. *)
Inductive Shown :=
| Continue
| ShowDialog (intro : string) (tips : list SafetyTip).

Definition showIfNeeded (safety : SafetyProvider.t) (category : option string)
    (eligibility : option (list string)) (programName : string) : Shown :=
  if negb (SafetyProvider._showSafetyTips safety) then Continue
  else if negb (isProgramSensitive category eligibility) then Continue
  else ShowDialog
         ("Before contacting " ++ programName ++ ", please consider these safety tips:")
         (getSafetyTips category).

(** Ticking the box of the dialog. *)
Definition onChanged (env : Env) (value : option bool) : M SafetyProvider.App unit :=
  if bool_decide (value = Some true) then SafetyProvider.setShowSafetyTips env false
  else ret tt.

End SafetyTipsDialog.

Module SafetyModeCard.

(** The tap on the card; the value is the text of the snack bar, shown
    when the widget is still mounted. *)
Definition onTap (mounted : bool) : M SafetyProvider.App (option string) :=
  do inSession <- gets (fun a =>
                    SafetyProvider._isIncognitoSession (SafetyProvider.provider a));
  if (inSession : bool) then
    run SafetyProvider.endIncognitoSession;
    ret (if mounted then Some "Incognito mode ended" else None)
  else
    run SafetyProvider.startIncognitoSession;
    ret (if mounted
         then Some "Incognito mode started - history won't be saved"
         else None).

(** The title of the card. *)
Definition title (safety : SafetyProvider.t) : string :=
  if SafetyProvider._isIncognitoSession safety
  then "Incognito Mode Active" else "Start Incognito Session".

End SafetyModeCard.

(** ** Runs of the provider *)

(** The commands whose code assigns the session flag of the service. *)
Definition assignsFlag (c : Command) : bool :=
  match c with
  | SetIncognitoModeEnabled _ | StartIncognitoSession | EndIncognitoSession
  | Restart => true
  | _ => false
  end.

(** The public methods of the provider, and the two events it is driven
    by: a change of connectivity reaching its listener, and disposal. *)
Inductive ProviderCommand :=
| PInitialize
| PSetQuickExitEnabled (enabled : bool)
| PSetQuickExitUrl (url : string)
| PExecuteQuickExit
| PSetIncognitoModeEnabled (enabled : bool)
| PStartIncognitoSession
| PEndIncognitoSession
| PAddRecentProgram (programId : string)
| PGetRecentPrograms
| PAddSearchQuery (query : string)
| PGetSearchHistory
| PClearAllHistory
| PSetShowSafetyTips (show : bool)
| PSetNetworkWarningsEnabled (enabled : bool)
| PRefreshNetworkStatus
| PApplyDisguisedIcon (icon : DisguisedAppIcon)
| PResetToDefaultIcon
| PConnectivityChanged
| PDispose.

Definition providerCommand (env : Env) (c : ProviderCommand) : M SafetyProvider.App unit :=
  match c with
  | PInitialize => SafetyProvider.initialize env
  | PSetQuickExitEnabled enabled => SafetyProvider.setQuickExitEnabled env enabled
  | PSetQuickExitUrl url => SafetyProvider.setQuickExitUrl env url
  | PExecuteQuickExit => SafetyProvider.executeQuickExit env
  | PSetIncognitoModeEnabled enabled => SafetyProvider.setIncognitoModeEnabled env enabled
  | PStartIncognitoSession => SafetyProvider.startIncognitoSession
  | PEndIncognitoSession => SafetyProvider.endIncognitoSession
  | PAddRecentProgram programId => SafetyProvider.addRecentProgram env programId
  | PGetRecentPrograms => discard (SafetyProvider.getRecentPrograms env)
  | PAddSearchQuery query => SafetyProvider.addSearchQuery env query
  | PGetSearchHistory => discard (SafetyProvider.getSearchHistory env)
  | PClearAllHistory => SafetyProvider.clearAllHistory env
  | PSetShowSafetyTips show => SafetyProvider.setShowSafetyTips env show
  | PSetNetworkWarningsEnabled enabled => SafetyProvider.setNetworkWarningsEnabled env enabled
  | PRefreshNetworkStatus => SafetyProvider.refreshNetworkStatus env
  | PApplyDisguisedIcon icon => discard (SafetyProvider.applyDisguisedIcon env icon)
  | PResetToDefaultIcon => discard (SafetyProvider.resetToDefaultIcon env)
  | PConnectivityChanged => SafetyProvider.onConnectivityChanged env
  | PDispose => SafetyProvider.dispose
  end.

(** The session flag the provider shows is the one the service routes
    history by. *)
Definition flagsAgree (a : SafetyProvider.App) : Prop :=
  SafetyProvider._isIncognitoSession (SafetyProvider.provider a) =
  _isIncognitoSession (service (SafetyProvider.world a)).

(** The session flag of the service is [b]. *)
Definition flagIs (b : bool) (w : World) : Prop :=
  _isIncognitoSession (service w) = b.

(** A world outside any session whose persisted list of recent programs
    is full. *)
Definition fullWorld : World :=
  {| store := <[_recentProgramsKey :=
                  PStringList ["p01"; "p02"; "p03"; "p04"; "p05"; "p06"; "p07";
                               "p08"; "p09"; "p10"; "p11"; "p12"; "p13"; "p14";
                               "p15"; "p16"; "p17"; "p18"; "p19"; "p20"]]> ∅;
     service := fresh;
     trace := [] |}.

(** The calls that take the user away from the app: the questions to
    and the calls of the URL launcher, and the closing of the app. *)
Definition leavesApp (e : Event) : bool :=
  match e with
  | CanLaunchUrl _ | LaunchUrl _ | SystemNavigatorPop => true
  | _ => false
  end.

(** Every call recorded so far that took the user away from the app
    found both session lists empty. *)
Definition exitsSeeNoHistory (w : World) : Prop :=
  Forall (fun call => leavesApp call.1 = true -> sessionListsEmpty call.2) (trace w).

(** The settings the provider caches are those the store holds, as the
    getters of the service read them. *)
Definition cacheAgrees (a : SafetyProvider.App) : Prop :=
  SafetyProvider._quickExitEnabled (SafetyProvider.provider a) =
    storedBool (store (SafetyProvider.world a)) _quickExitEnabledKey false /\
  SafetyProvider._quickExitUrl (SafetyProvider.provider a) =
    quickExitUrlOf (SafetyProvider.world a) /\
  SafetyProvider._incognitoModeEnabled (SafetyProvider.provider a) =
    incognitoSetting (SafetyProvider.world a) /\
  SafetyProvider._showSafetyTips (SafetyProvider.provider a) =
    storedBool (store (SafetyProvider.world a)) _showSafetyTipsKey true /\
  SafetyProvider._networkWarningsEnabled (SafetyProvider.provider a) =
    storedBool (store (SafetyProvider.world a)) _networkWarningsKey true /\
  SafetyProvider._disguisedModeEnabled (SafetyProvider.provider a) =
    storedBool (store (SafetyProvider.world a)) _disguisedModeKey false /\
  SafetyProvider._currentDisguisedIcon (SafetyProvider.provider a) =
    iconOf (SafetyProvider.world a).

(** The cached settings of the provider, and the settings of the store:
    every key but the two history lists. *)
Definition cachedSettings (p : SafetyProvider.t) :=
  (SafetyProvider._quickExitEnabled p, SafetyProvider._quickExitUrl p,
   SafetyProvider._incognitoModeEnabled p, SafetyProvider._showSafetyTips p,
   SafetyProvider._networkWarningsEnabled p, SafetyProvider._disguisedModeEnabled p,
   SafetyProvider._currentDisguisedIcon p).

Definition settingsKept (σ : gmap string PrefValue) (w : World) : Prop :=
  forall key, key <> _recentProgramsKey -> key <> _searchHistoryKey ->
    store w !! key = σ !! key.

(** The cache and the settings are those of [a]. *)
Definition cacheKept (a a' : SafetyProvider.App) : Prop :=
  cachedSettings (SafetyProvider.provider a') =
    cachedSettings (SafetyProvider.provider a) /\
  settingsKept (store (SafetyProvider.world a)) (SafetyProvider.world a').

(** The methods of the service that only answer a question. *)
Definition isGetter (c : Command) : bool :=
  match c with
  | IsQuickExitEnabled | GetQuickExitUrl | IsIncognitoModeEnabled
  | GetRecentPrograms | GetSearchHistory | ShouldShowSafetyTips
  | IsNetworkWarningsEnabled | GetNetworkPrivacyStatus | IsDisguisedModeEnabled
  | GetDisguisedIconId | GetCurrentDisguisedIcon => true
  | _ => false
  end.

(** The store, the session flag and the two session lists are those of
    [w]. *)
Definition sameData (w w' : World) : Prop :=
  store w' = store w /\
  _isIncognitoSession (service w') = _isIncognitoSession (service w) /\
  _sessionRecentPrograms (service w') = _sessionRecentPrograms (service w) /\
  _sessionSearchHistory (service w') = _sessionSearchHistory (service w).

(** ** The wording of the claim on the safety tips

    "Case-insensitively equal", said without [toLowerCase], to compare
    [getSafetyTips] with: two texts of the same length whose characters,
    place by place, are equal or are one ASCII letter in its two cases. *)
Definition isUpperLetter (n : nat) : bool := (65 <=? n)%nat && (n <=? 90)%nat.

Definition spec_sameLetter (a b : ascii) : bool :=
  let x := nat_of_ascii a in
  let y := nat_of_ascii b in
  (x =? y)%nat || (isUpperLetter x && (y =? x + 32)%nat)
  || (isUpperLetter y && (x =? y + 32)%nat).

Fixpoint spec_equalsIgnoringCase (s t : string) : bool :=
  match s, t with
  | EmptyString, EmptyString => true
  | String a s', String b t' => spec_sameLetter a b && spec_equalsIgnoringCase s' t'
  | _, _ => false
  end.

(** The categories the claim singles out; null is none of them. *)
Definition spec_isCrisisCategory (category : option string) : bool :=
  match category with
  | None => false
  | Some c =>
      spec_equalsIgnoringCase c "domestic-violence" || spec_equalsIgnoringCase c "crisis"
  end.

(** A text without upper-case ASCII letters. *)
Fixpoint noUpperLetter (t : string) : bool :=
  match t with
  | EmptyString => true
  | String b t' => negb (isUpperLetter (nat_of_ascii b)) && noUpperLetter t'
  end.

(** * Properties *)

(** ** The list operations *)

Section ListFacts.
Implicit Types (x y : string) (l : list string).

Lemma remove_elem_of x y l : y ∈ Dart.remove x l -> y ∈ l.
Proof.
  induction l as [|z l IH]; simpl; [done|].
  destruct (decide (z = x)); intros Hy.
  - by apply list_elem_of_further.
  - apply elem_of_cons in Hy as [->|Hy]; [apply list_elem_of_here|].
    apply list_elem_of_further; auto.
Qed.

Lemma remove_NoDup x l : NoDup l -> NoDup (Dart.remove x l) /\ x ∉ Dart.remove x l.
Proof.
  induction 1 as [|z l Hz Hl IH]; simpl.
  - split; [constructor|apply not_elem_of_nil].
  - destruct (decide (z = x)) as [->|Hne]; [done|].
    destruct IH as [IH1 IH2]. split.
    + constructor; [|done]. intros Hin. by apply Hz, (remove_elem_of x).
    + apply not_elem_of_cons; split; [congruence|done].
Qed.

Lemma remove_length x l : length (Dart.remove x l) <= length l.
Proof.
  induction l as [|z l IH]; simpl; [lia|].
  destruct (decide (z = x)); simpl; lia.
Qed.

Lemma remove_length_present x l :
  x ∈ l -> S (length (Dart.remove x l)) = length l.
Proof.
  induction l as [|z l IH]; simpl; intros Hx.
  - by apply elem_of_nil in Hx.
  - destruct (decide (z = x)) as [->|Hne]; [done|]. simpl.
    apply elem_of_cons in Hx as [->|Hx]; [done|]. by rewrite IH.
Qed.

Lemma removeLast_cons x l :
  Dart.removeLast (x :: l) = Some (take (length l) (x :: l)).
Proof. unfold Dart.removeLast. simpl. by rewrite Nat.sub_0_r. Qed.

Lemma take_cons_front x l :
  0 < length l -> take (length l) (x :: l) = x :: take (length l - 1) l.
Proof. destruct l as [|y l]; simpl; [lia|]. by rewrite Nat.sub_0_r. Qed.

Lemma take_NoDup n l : NoDup l -> NoDup (take n l).
Proof. intros Hl. eapply sublist_NoDup; [done|apply sublist_take]. Qed.

(** The session branch never fails, keeps the entries pairwise different
    and within the cap. *)
Lemma sessionAdd_ok x l :
  historyOk 10 l ->
  exists l', sessionAdd x l = Some l' /\ historyOk 10 l' /\ x ∈ l' /\
             (forall y, y ∈ l' -> y = x \/ y ∈ l).
Proof.
  intros [Hnd Hlen]. unfold sessionAdd, Dart.contains, Dart.insert0.
  destruct (bool_decide_reflect (x ∈ l)) as [Hin|Hout]; cbn [negb].
  - exists l. repeat split; auto.
  - destruct (Nat.ltb_spec 10 (length (x :: l))) as [Hbig|Hsmall];
      cbn [length] in *.
    + rewrite removeLast_cons. eexists; split; [done|].
      assert (length l = 10) as Hten by lia.
      repeat split.
      * apply take_NoDup. by constructor.
      * rewrite length_take. simpl. lia.
      * rewrite take_cons_front by lia. apply list_elem_of_here.
      * intros y Hy. apply elem_of_take in Hy as (i & Hy & _).
        apply list_elem_of_lookup_2 in Hy.
        apply elem_of_cons in Hy as [->|Hy]; auto.
    + exists (x :: l). repeat split.
      * by constructor.
      * simpl in *. lia.
      * apply list_elem_of_here.
      * intros y Hy. apply elem_of_cons in Hy as [->|Hy]; auto.
Qed.

(** The persisted branch never fails, keeps the entries pairwise
    different and within the cap, and puts the added entry first. *)
Lemma persistedAdd_ok x l :
  historyOk 20 l ->
  exists l', persistedAdd x l = Some (x :: l') /\ historyOk 20 (x :: l') /\
             (forall y, y ∈ l' -> y ∈ l).
Proof.
  intros [Hnd Hlen]. unfold persistedAdd, Dart.insert0.
  destruct (remove_NoDup x l Hnd) as [Hnd' Hx].
  pose proof (remove_length x l) as Hrl.
  destruct (Nat.ltb_spec 20 (length (x :: Dart.remove x l))) as [Hbig|Hsmall].
  - simpl in Hbig. rewrite removeLast_cons, take_cons_front by lia.
    eexists; split; [done|]. split; [split|].
    + constructor.
      * intros Hin. apply Hx. apply elem_of_take in Hin as (i & Hin & _).
        by apply list_elem_of_lookup_2 in Hin.
      * by apply take_NoDup.
    + simpl. rewrite length_take. lia.
    + intros y Hy. apply elem_of_take in Hy as (i & Hy & _).
      apply list_elem_of_lookup_2 in Hy. by apply (remove_elem_of x).
  - exists (Dart.remove x l). split; [done|]. split; [split|].
    + by constructor.
    + done.
    + intros y. apply remove_elem_of.
Qed.

(** In the persisted branch an entry that is already there moves to the
    front. *)
Lemma persistedAdd_moves_to_front x l :
  historyOk 20 l -> x ∈ l ->
  persistedAdd x l = Some (x :: Dart.remove x l) /\
  x :: Dart.remove x l ≡ₚ l.
Proof.
  intros [Hnd Hlen] Hx. unfold persistedAdd, Dart.insert0.
  pose proof (remove_length_present x l Hx) as Hrl.
  destruct (Nat.ltb_spec 20 (length (x :: Dart.remove x l))) as [Hbig|_];
    [simpl in Hbig; lia|]. split; [done|].
  clear Hlen Hrl. induction Hnd as [|z l Hz Hl IH]; [by apply elem_of_nil in Hx|].
  simpl. destruct (decide (z = x)) as [->|Hne]; [done|].
  apply elem_of_cons in Hx as [->|Hx]; [done|].
  rewrite Permutation_swap. by rewrite IH.
Qed.

End ListFacts.

(** ** Safety tips *)

Lemma lowerEquals_Some c text :
  lowerEquals (Some c) text = bool_decide (Dart.toLowerCase c = text).
Proof.
  unfold lowerEquals. simpl. apply bool_decide_ext.
  split; [by intros [= ->]|by intros ->].
Qed.

Lemma lowerEquals_None text : lowerEquals None text = false.
Proof. reflexivity. Qed.

Example getSafetyTips_mixed_case :
  getSafetyTips (Some "Domestic-Violence") = (baseTips ++ categoryTips)%list /\
  getSafetyTips (Some "CRISIS") = (baseTips ++ categoryTips)%list /\
  getSafetyTips (Some "food") = baseTips.
Proof. repeat split; reflexivity. Qed.

Example isProgramSensitive_cases :
  isProgramSensitive (Some "Crisis") None = true /\
  isProgramSensitive (Some "food") (Some ["veterans"]) = false /\
  isProgramSensitive None (Some ["unhoused"]) = true.
Proof. repeat split; reflexivity. Qed.

Lemma lowerAscii_sameLetter a b :
  isUpperLetter (nat_of_ascii b) = false ->
  Dart.lowerAscii a = b <-> spec_sameLetter a b = true.
Proof.
  unfold Dart.lowerAscii, spec_sameLetter, isUpperLetter.
  pose proof (nat_ascii_bounded a) as Ha. pose proof (nat_ascii_bounded b) as Hb.
  set (x := nat_of_ascii a) in *. set (y := nat_of_ascii b) in *.
  intros Hlower.
  destruct (Nat.leb_spec 65 x), (Nat.leb_spec x 90); cbn [andb orb];
    destruct (Nat.leb_spec 65 y), (Nat.leb_spec y 90); cbn [andb orb] in *;
    try discriminate;
    rewrite ?orb_false_r, ?orb_true_iff, ?Nat.eqb_eq; split;
    try (intros <-; unfold y;
         first [rewrite nat_ascii_embedding by lia; lia
               |fold x; lia
               |right; rewrite nat_ascii_embedding by lia; lia]);
    try (intros Hxy; first [destruct Hxy as [Hxy|Hxy]; try lia|idtac];
         first [rewrite <- (ascii_nat_embedding b); fold y; by rewrite <- Hxy
               |rewrite <- (ascii_nat_embedding a), <- (ascii_nat_embedding b);
                fold x; fold y; by rewrite Hxy]).
Qed.

Lemma toLowerCase_equalsIgnoringCase c t :
  noUpperLetter t = true ->
  Dart.toLowerCase c = t <-> spec_equalsIgnoringCase c t = true.
Proof.
  revert t. induction c as [|a c IH]; intros [|b t]; simpl; try done.
  rewrite !andb_true_iff, negb_true_iff. intros [Hb Ht].
  rewrite <- (lowerAscii_sameLetter a b Hb), <- (IH t Ht).
  split; [by intros [= -> ->]|by intros [-> ->]].
Qed.

Lemma lowerEquals_spec category t :
  noUpperLetter t = true ->
  lowerEquals category t =
    match category with
    | Some c => spec_equalsIgnoringCase c t
    | None => false
    end.
Proof.
  intros Ht. destruct category as [c|]; [|reflexivity].
  rewrite lowerEquals_Some.
  destruct (spec_equalsIgnoringCase c t) eqn:Hspec.
  - apply bool_decide_eq_true_2. by apply toLowerCase_equalsIgnoringCase.
  - apply bool_decide_eq_false_2. intros Hlow.
    apply (toLowerCase_equalsIgnoringCase c t Ht) in Hlow. congruence.
Qed.

(** C10. [getSafetyTips] is total on its nullable argument: with a null
    category it returns exactly the three base tips in their order.  For
    every category, null included, the answer is decided by whether the
    category equals "domestic-violence" or "crisis" up to the case of
    its letters, said without [toLowerCase]: if it does, the answer is
    the three base tips followed by the two extra tips, "Use *67 to hide
    your number" and "Plan your call"; if not, it is the answer for
    null.  So "CRISIS" and "Domestic-Violence" get the five tips and
    "food" the three.  In the code's own terms the test is on the
    lower-cased category. *)
Theorem getSafetyTips_null_is_base :
  getSafetyTips None = baseTips /\
  getSafetyTips None =
    [ {| tip_icon := Icons_security;
         tip_title := "Check your surroundings";
         tip_description :=
           "Make sure you're in a private, safe location before making calls." |};
      {| tip_icon := Icons_phone_android;
         tip_title := "Consider using a different phone";
         tip_description :=
           "If your phone is monitored, use a friend's phone or a public phone." |};
      {| tip_icon := Icons_history;
         tip_title := "Clear your history";
         tip_description :=
           "Use Incognito Mode or clear your browser/app history after visiting." |} ] /\
  map tip_title (getSafetyTips None) =
    ["Check your surroundings"; "Consider using a different phone";
     "Clear your history"] /\
  (forall category,
     getSafetyTips category =
       if spec_isCrisisCategory category
       then (getSafetyTips None ++
             [ {| tip_icon := Icons_dialpad;
                  tip_title := "Use *67 to hide your number";
                  tip_description :=
                    "Dial *67 before the number to block your caller ID." |};
               {| tip_icon := Icons_schedule;
                  tip_title := "Plan your call";
                  tip_description :=
                    "Choose a time when you know you'll have privacy." |} ])%list
       else getSafetyTips None) /\
  map tip_title (getSafetyTips (Some "crisis")) =
    ["Check your surroundings"; "Consider using a different phone";
     "Clear your history"; "Use *67 to hide your number"; "Plan your call"] /\
  map tip_title (getSafetyTips (Some "CRISIS")) =
    ["Check your surroundings"; "Consider using a different phone";
     "Clear your history"; "Use *67 to hide your number"; "Plan your call"] /\
  map tip_title (getSafetyTips (Some "Domestic-Violence")) =
    ["Check your surroundings"; "Consider using a different phone";
     "Clear your history"; "Use *67 to hide your number"; "Plan your call"] /\
  map tip_title (getSafetyTips (Some "food")) =
    ["Check your surroundings"; "Consider using a different phone";
     "Clear your history"] /\
  (forall c,
     let lower := Dart.toLowerCase c in
     getSafetyTips (Some c) =
       if bool_decide (lower = "domestic-violence" \/ lower = "crisis")
       then (getSafetyTips None ++ categoryTips)%list
       else getSafetyTips None).
Proof.
  split; [reflexivity|]. split; [reflexivity|]. split; [reflexivity|].
  split; [|repeat (split; [reflexivity|])].
  - intros category. unfold getSafetyTips, spec_isCrisisCategory.
    rewrite !lowerEquals_spec by reflexivity.
    destruct category as [c|]; [|reflexivity].
    by destruct (spec_equalsIgnoringCase c "domestic-violence"
                 || spec_equalsIgnoringCase c "crisis").
  - intros c lower. unfold getSafetyTips.
    rewrite !lowerEquals_Some, !lowerEquals_None. fold lower. simpl.
    destruct (bool_decide_reflect (lower = "domestic-violence")) as [H1|H1];
      destruct (bool_decide_reflect (lower = "crisis")) as [H2|H2]; simpl;
      destruct (bool_decide_reflect
                  (lower = "domestic-violence" \/ lower = "crisis")) as [H|H];
      try reflexivity; exfalso; tauto.
Qed.

(** ** Network privacy status *)

(** C9. [getNetworkPrivacyStatus] always answers, and classifies the
    reading by the first match in the order wifi, mobile, vpn, none; any
    other reading, the empty one included, and a failing connectivity
    query give the unknown status. *)
Theorem getNetworkPrivacyStatus_classifies env w :
  exists st,
    fst (getNetworkPrivacyStatus env w) = Ok st /\
    match connectivityReading env with
    | None =>
        level st = unknown /\ connectionType st = "Unknown" /\ warning st = None
    | Some reading =>
        if decide (CR_wifi ∈ reading) then
          level st = caution /\ connectionType st = "WiFi" /\ is_Some (warning st)
        else if decide (CR_mobile ∈ reading) then
          level st = moderate /\ connectionType st = "Mobile Data" /\ warning st = None
        else if decide (CR_vpn ∈ reading) then
          level st = good /\ connectionType st = "VPN" /\ warning st = None
        else if decide (CR_none ∈ reading) then
          level st = offline /\ connectionType st = "Offline" /\ is_Some (warning st)
        else
          level st = unknown /\ connectionType st = "Unknown" /\ warning st = None
    end.
Proof.
  unfold getNetworkPrivacyStatus, tryCatch, checkConnectivity, bind, emit, modify.
  destruct (connectivityReading env) as [reading|]; simpl.
  - unfold bool_decide.
    repeat (destruct (decide_rel elem_of _ reading) as [?|?]; simpl;
            [eexists; split; [reflexivity|]; simpl; eauto|]).
    eexists; split; [reflexivity|]; simpl; eauto.
  - eexists; split; [reflexivity|]; simpl; eauto.
Qed.

(** ** Rules for computations *)

Section Rules.
Context {S : Type}.
Implicit Types (P : S -> Prop) (E : Exn -> S -> Prop).

Lemma hoare_ret {A} P (a : A) (Q : A -> S -> Prop) E :
  (forall s, P s -> Q a s) -> hoare P (ret a) Q E.
Proof. intros H s Hs. simpl. auto. Qed.

Lemma hoare_throw {A} P e (Q : A -> S -> Prop) E :
  (forall s, P s -> E e s) -> hoare P (throw e) Q E.
Proof. intros H s Hs. simpl. auto. Qed.

Lemma hoare_bind {A B} P (m : M S A) (k : A -> M S B)
    (Q : A -> S -> Prop) (R : B -> S -> Prop) E :
  hoare P m Q E -> (forall a, hoare (Q a) (k a) R E) -> hoare P (bind m k) R E.
Proof.
  intros Hm Hk s Hs. unfold bind. specialize (Hm s Hs).
  destruct (m s) as [[a|e] s']; [by apply Hk|done].
Qed.

Lemma hoare_tryCatch {A} P (m : M S A) (h : Exn -> M S A)
    (Q : A -> S -> Prop) E' E :
  hoare P m Q E' -> (forall e, hoare (E' e) (h e) Q E) ->
  hoare P (tryCatch m h) Q E.
Proof.
  intros Hm Hh s Hs. unfold tryCatch. specialize (Hm s Hs).
  destruct (m s) as [[a|e] s']; [done|by apply Hh].
Qed.

Lemma hoare_gets {A} P (f : S -> A) (Q : A -> S -> Prop) E :
  (forall s, P s -> Q (f s) s) -> hoare P (gets f) Q E.
Proof. intros H s Hs. simpl. auto. Qed.

Lemma hoare_modify P (f : S -> S) (Q : unit -> S -> Prop) E :
  (forall s, P s -> Q tt (f s)) -> hoare P (modify f) Q E.
Proof. intros H s Hs. simpl. auto. Qed.

Lemma hoare_conseq {A} P P' (m : M S A) (Q Q' : A -> S -> Prop) E E' :
  hoare P' m Q' E' -> (forall s, P s -> P' s) ->
  (forall a s, Q' a s -> Q a s) -> (forall e s, E' e s -> E e s) ->
  hoare P m Q E.
Proof.
  intros Hm HP HQ HE s Hs. specialize (Hm s (HP s Hs)).
  destruct (m s) as [[a|e] s']; auto.
Qed.

Lemma hoare_discard {A} P (m : M S A) (Q : unit -> S -> Prop) E :
  hoare P m (fun _ => Q tt) E -> hoare P (discard m) Q E.
Proof.
  intros Hm s Hs. unfold discard. specialize (Hm s Hs).
  by destruct (m s) as [[a|e] s'].
Qed.

End Rules.

(** ** The invariant under the primitives *)

Lemma schema_keys_NoDup : NoDup (schema.*1).
Proof. apply (bool_decide_unpack _). by vm_compute. Qed.

Lemma wellTyped_lookup σ key ty v :
  wellTyped σ -> (key, ty) ∈ schema -> σ !! key = Some v -> hasType ty v = true.
Proof.
  intros Hσ Hin Hv. unfold wellTyped in Hσ.
  rewrite Forall_forall in Hσ. specialize (Hσ _ Hin).
  unfold slotTyped in Hσ. simpl in Hσ. by rewrite Hv in Hσ.
Qed.

Lemma wellTyped_empty : wellTyped ∅.
Proof.
  apply Forall_forall. intros [k ty] _. unfold slotTyped. simpl.
  by rewrite lookup_empty.
Qed.

Lemma wellTyped_delete σ key : wellTyped σ -> wellTyped (delete key σ).
Proof.
  unfold wellTyped. rewrite !Forall_forall. intros Hσ slot Hin.
  specialize (Hσ slot Hin). unfold slotTyped in *.
  rewrite lookup_delete. by case_decide.
Qed.

Lemma wellTyped_insert σ key ty v :
  (key, ty) ∈ schema -> hasType ty v = true ->
  wellTyped σ -> wellTyped (<[key:=v]> σ).
Proof.
  intros Hin Hty. unfold wellTyped. rewrite !Forall_forall.
  intros Hσ [k' ty'] Hin'. specialize (Hσ _ Hin').
  unfold slotTyped in *. simpl in *.
  rewrite lookup_insert. case_decide as Hk; [|done]. subst k'.
  assert (ty' = ty) as ->; [|done].
  pose proof schema_keys_NoDup as Hnd.
  apply list_elem_of_lookup in Hin as [i Hi], Hin' as [j Hj].
  assert (i = j) as ->.
  { eapply NoDup_lookup; [exact Hnd| |].
    - rewrite list_lookup_fmap, Hi. reflexivity.
    - rewrite list_lookup_fmap, Hj. reflexivity. }
  congruence.
Qed.

(** ** The store at work *)

Lemma preferences_available env w :
  available env w ->
  _preferences env w = (Ok tt, withService (set_prefs true) w).
Proof.
  destruct w as [σ [p i r s] t]. unfold available, _preferences; simpl.
  intros [H|H]; rewrite H; [done|by destruct p].
Qed.

Lemma preferences_unavailable env w :
  _prefs (service w) = false -> getInstanceFails env = true ->
  _preferences env w = (Thrown StoreUnavailable, w).
Proof. intros Hp Hf. unfold _preferences. by rewrite Hp, Hf. Qed.

Lemma storeWorks_available env w : storeWorks env -> available env w.
Proof. intros [Hi _]. by right. Qed.

Ltac unfold_monad :=
  unfold discard, orRangeError, emit in *;
  unfold bind, ret, gets, modify, throw, tryCatch in *.

Ltac unfold_world :=
  unfold withService, withStore, set_prefs, set_isIncognitoSession,
         set_sessionRecentPrograms, set_sessionSearchHistory in *;
  simpl in *.

Ltac unfold_prefs :=
  unfold setBool, setString, setStringList, remove, write,
         getBool, getString, getStringList in *.

(** Evaluates the store calls of a goal under a store that works. *)
Ltac store_at_work Hworks :=
  let Hi := fresh "Hinstance" in
  let Hw := fresh "Hwrites" in
  pose proof Hworks as [Hi Hw];
  unfold_monad; unfold_prefs;
  repeat first
    [ rewrite preferences_available by (by right)
    | rewrite Hw
    | progress cbn [fst snd] ].

Lemma clearAllHistory_at_work env w :
  storeWorks env ->
  clearAllHistory env w =
    (Ok tt,
     {| store := delete _searchHistoryKey (delete _recentProgramsKey (store w));
        service := {| _prefs := true;
                      _isIncognitoSession := _isIncognitoSession (service w);
                      _sessionRecentPrograms := [];
                      _sessionSearchHistory := [] |};
        trace := trace w |}).
Proof. intros Hworks. unfold clearAllHistory. by store_at_work Hworks. Qed.

Lemma setIncognitoModeEnabled_at_work env enabled w :
  storeWorks env ->
  setIncognitoModeEnabled env enabled w =
    (Ok tt,
     {| store :=
          if enabled then
            delete _searchHistoryKey
              (delete _recentProgramsKey (<[_incognitoModeKey:=PBool true]> (store w)))
          else <[_incognitoModeKey:=PBool false]> (store w);
        service := {| _prefs := true;
                      _isIncognitoSession := enabled;
                      _sessionRecentPrograms :=
                        if enabled then [] else _sessionRecentPrograms (service w);
                      _sessionSearchHistory :=
                        if enabled then [] else _sessionSearchHistory (service w) |};
        trace := trace w |}).
Proof.
  intros Hworks. unfold setIncognitoModeEnabled, clearAllHistory.
  destruct enabled; by store_at_work Hworks.
Qed.

(** ** Enabling incognito mode *)

(** Whatever the store does, when [setIncognitoModeEnabled] returns the
    session flag equals its argument. *)
Lemma setIncognitoModeEnabled_mirrors env enabled w :
  fst (setIncognitoModeEnabled env enabled w) = Ok tt ->
  _isIncognitoSession (service (snd (setIncognitoModeEnabled env enabled w))) = enabled.
Proof.
  unfold setIncognitoModeEnabled, clearAllHistory.
  unfold_monad. unfold_prefs. unfold _preferences.
  destruct (_prefs (service w)) eqn:Hp; [|destruct (getInstanceFails env)];
    simpl; try done;
    destruct (writeOutcome env _incognitoModeKey); simpl; try done;
    destruct enabled; simpl; try done; rewrite ?Hp; simpl;
    destruct (writeOutcome env _recentProgramsKey); simpl; try done;
    destruct (writeOutcome env _searchHistoryKey); simpl; done.
Qed.

(** C4. Whenever [setIncognitoModeEnabled(enabled)] returns, the session
    flag equals [enabled], for both values.  With a store that carries
    out its writes it does return, the persisted setting equals
    [enabled] too, and after [setIncognitoModeEnabled(true)] neither
    persisted history list is left in the store, whatever they held
    before. *)
Theorem setIncognitoModeEnabled_purges_and_mirrors env enabled w :
  (fst (setIncognitoModeEnabled env enabled w) = Ok tt ->
   _isIncognitoSession (service (snd (setIncognitoModeEnabled env enabled w))) = enabled) /\
  (storeWorks env ->
   fst (setIncognitoModeEnabled env enabled w) = Ok tt /\
   incognitoSetting (snd (setIncognitoModeEnabled env enabled w)) = enabled /\
   (enabled = true ->
    persistedPurged (store (snd (setIncognitoModeEnabled env enabled w))) /\
    storedList (store (snd (setIncognitoModeEnabled env enabled w))) _recentProgramsKey = [] /\
    storedList (store (snd (setIncognitoModeEnabled env enabled w))) _searchHistoryKey = [])).
Proof.
  split; [apply setIncognitoModeEnabled_mirrors|].
  intros Hworks. rewrite setIncognitoModeEnabled_at_work by done. simpl.
  split; [done|]. split.
  - unfold incognitoSetting, storedBool. simpl.
    destruct enabled; by simplify_map_eq.
  - intros ->. unfold persistedPurged, storedList. by simplify_map_eq.
Qed.

Lemma setIncognitoModeEnabled_purges_and_mirrors_witness :
  storeWorks workingEnv /\
  storedList (store browsedWorld) _recentProgramsKey = ["calfresh"; "medi-cal"] /\
  fst (setIncognitoModeEnabled workingEnv true browsedWorld) = Ok tt /\
  _isIncognitoSession
    (service (snd (setIncognitoModeEnabled workingEnv true browsedWorld))) = true /\
  persistedPurged (store (snd (setIncognitoModeEnabled workingEnv true browsedWorld))).
Proof.
  assert (storeWorks workingEnv) as Hworks by (split; [reflexivity|intros; reflexivity]).
  split; [exact Hworks|]. split; [reflexivity|].
  destruct (setIncognitoModeEnabled_purges_and_mirrors workingEnv true browsedWorld)
    as [Hmirror Hpurge].
  destruct (Hpurge Hworks) as (Hreturns & _ & Hpurged).
  split; [exact Hreturns|]. split; [exact (Hmirror Hreturns)|].
  apply (Hpurged eq_refl).
Defined.

(** ** Quick exit *)

Lemma getBool_typed key w :
  wellTyped (store w) -> (key, TBool) ∈ schema ->
  forall dflt,
    (do v <- getBool key; ret (default dflt v)) w =
    (Ok (storedBool (store w) key dflt), w).
Proof.
  intros Hty Hin dflt. unfold bind, ret, getBool, storedBool.
  destruct (store w !! key) as [v|] eqn:Hv; [|done].
  pose proof (wellTyped_lookup _ _ _ _ Hty Hin Hv) as Hv'.
  by destruct v.
Qed.

Lemma getString_typed key w :
  wellTyped (store w) -> (key, TString) ∈ schema ->
  getString key w = (Ok (storedString (store w) key), w).
Proof.
  intros Hty Hin. unfold getString, storedString.
  destruct (store w !! key) as [v|] eqn:Hv; [|done].
  pose proof (wellTyped_lookup _ _ _ _ Hty Hin Hv) as Hv'.
  by destruct v.
Qed.

Ltac in_schema := unfold schema; set_solver.

Lemma getQuickExitUrl_at_work env w :
  available env w -> wellTyped (store w) ->
  getQuickExitUrl env w = (Ok (quickExitUrlOf w), withService (set_prefs true) w).
Proof.
  intros Hav Hty. unfold getQuickExitUrl, bind at 1.
  rewrite preferences_available by done.
  unfold bind. rewrite getString_typed by (done || in_schema). done.
Qed.

Lemma isIncognitoModeEnabled_at_work env w :
  available env w -> wellTyped (store w) ->
  isIncognitoModeEnabled env w = (Ok (incognitoSetting w), withService (set_prefs true) w).
Proof.
  intros Hav Hty. unfold isIncognitoModeEnabled, bind at 1.
  rewrite preferences_available by done.
  rewrite getBool_typed by (done || in_schema). done.
Qed.

(** The world [clearSessionData] leaves when the store works. *)
Lemma clearSessionData_at_work env w :
  storeWorks env -> wellTyped (store w) ->
  clearSessionData env w =
    (Ok tt,
     {| store :=
          if _isIncognitoSession (service w) || incognitoSetting w
          then delete _searchHistoryKey (delete _recentProgramsKey (store w))
          else store w;
        service := {| _prefs := true;
                      _isIncognitoSession := _isIncognitoSession (service w);
                      _sessionRecentPrograms := [];
                      _sessionSearchHistory := [] |};
        trace := trace w |}).
Proof.
  intros Hworks Hty. unfold clearSessionData.
  unfold bind at 1 2 3 4, modify, gets. cbn [fst snd withService service].
  cbn [set_sessionSearchHistory set_sessionRecentPrograms _isIncognitoSession].
  destruct (_isIncognitoSession (service w)) eqn:Hinc.
  - unfold ret. rewrite clearAllHistory_at_work by done. simpl.
    by rewrite Hinc.
  - rewrite isIncognitoModeEnabled_at_work; [|by apply storeWorks_available|done].
    change (incognitoSetting _) with (incognitoSetting w). simpl.
    destruct (incognitoSetting w).
    + rewrite clearAllHistory_at_work by done. simpl. by rewrite Hinc.
    + unfold ret. unfold_world. by rewrite Hinc.
Qed.

(** With a store that works, [executeQuickExit] is its navigation part
    run in the world [clearSessionData] leaves. *)
Lemma executeQuickExit_at_work env w :
  storeWorks env -> wellTyped (store w) ->
  executeQuickExit env w =
    (do uri <- uriParse env (quickExitUrlOf w);
     do can <- canLaunchUrl env uri;
     run (if (can : bool) then (run launchUrl env uri; ret tt) else ret tt);
     if isAndroid env || isIOS env then emit SystemNavigatorPop else ret tt)
      {| store :=
           if _isIncognitoSession (service w) || incognitoSetting w
           then delete _searchHistoryKey (delete _recentProgramsKey (store w))
           else store w;
         service := {| _prefs := true;
                       _isIncognitoSession := _isIncognitoSession (service w);
                       _sessionRecentPrograms := [];
                       _sessionSearchHistory := [] |};
         trace := trace w |}.
Proof.
  intros Hworks Hty. unfold executeQuickExit. unfold bind at 1.
  rewrite getQuickExitUrl_at_work; [|by apply storeWorks_available|done].
  unfold bind at 1. by rewrite clearSessionData_at_work.
Qed.

(** With a store that works: every call that leaves the app finds both
    session lists empty and the store as the method finally leaves it;
    the first of them, when the URL parses, asks whether the URL can be
    opened; the persisted lists are removed exactly when a session was
    active or the persisted setting was on. *)
Lemma executeQuickExit_calls_at_work env w :
  storeWorks env -> wellTyped (store w) ->
  exists calls,
    trace (snd (executeQuickExit env w)) = (trace w ++ calls)%list /\
    Forall (fun call =>
              sessionListsEmpty call.2 /\
              seenStore call.2 = store (snd (executeQuickExit env w))) calls /\
    (uriParses env (quickExitUrlOf w) = true ->
     exists v rest, calls = (CanLaunchUrl (quickExitUrlOf w), v) :: rest) /\
    _sessionRecentPrograms (service (snd (executeQuickExit env w))) = [] /\
    _sessionSearchHistory (service (snd (executeQuickExit env w))) = [] /\
    store (snd (executeQuickExit env w)) =
      if _isIncognitoSession (service w) || incognitoSetting w
      then delete _searchHistoryKey (delete _recentProgramsKey (store w))
      else store w.
Proof.
  intros Hworks Hty. rewrite executeQuickExit_at_work by done.
  set (purged := if _isIncognitoSession (service w) || incognitoSetting w
                 then _ else _).
  unfold uriParse, canLaunchUrl, launchUrl. unfold_monad.
  destruct (uriParses env (quickExitUrlOf w)); simpl.
  - destruct (canLaunchAnswer env (quickExitUrlOf w)) as [[|]|]; simpl.
    + destruct (launchAnswer env (quickExitUrlOf w)) as [b|]; simpl.
      * destruct (isAndroid env || isIOS env); simpl;
          (eexists; split; [rewrite <- ?(assoc_L app); reflexivity|]);
          repeat split; eauto; repeat constructor.
      * eexists; split; [rewrite <- ?(assoc_L app); reflexivity|].
        repeat split; eauto; repeat constructor.
    + destruct (isAndroid env || isIOS env); simpl;
        (eexists; split; [rewrite <- ?(assoc_L app); reflexivity|]);
        repeat split; eauto; repeat constructor.
    + eexists; split; [reflexivity|].
      repeat split; eauto; repeat constructor.
  - exists []. rewrite app_nil_r. repeat split; [constructor|done].
Qed.

Ltac typed_store := repeat (constructor; [by vm_compute|]); constructor.

Lemma storeWorks_workingEnv : storeWorks workingEnv.
Proof. split; [reflexivity|intros; reflexivity]. Qed.

Lemma storeWorks_failingOpenerEnv : storeWorks failingOpenerEnv.
Proof. split; [reflexivity|intros; reflexivity]. Qed.

(** ** Incognito sessions *)

Lemma sessionAdd_total x l : is_Some (sessionAdd x l).
Proof.
  unfold sessionAdd, Dart.insert0.
  destruct (negb (Dart.contains l x)); [|done].
  destruct (10 <? length (x :: l))%nat; [|done].
  by rewrite removeLast_cons.
Qed.

Lemma addRecentProgram_in_session env x w :
  _isIncognitoSession (service w) = true ->
  addRecentProgram env x w =
    (Ok tt, withService
              (set_sessionRecentPrograms
                 (default (_sessionRecentPrograms (service w))
                    (sessionAdd x (_sessionRecentPrograms (service w))))) w).
Proof.
  intros Hinc. unfold addRecentProgram. unfold_monad. cbn [fst snd]. rewrite Hinc.
  by destruct (sessionAdd_total x (_sessionRecentPrograms (service w))) as [l' ->].
Qed.

Lemma addSearchQuery_in_session env x w :
  _isIncognitoSession (service w) = true ->
  addSearchQuery env x w =
    (Ok tt, withService
              (set_sessionSearchHistory
                 (default (_sessionSearchHistory (service w))
                    (sessionAdd x (_sessionSearchHistory (service w))))) w).
Proof.
  intros Hinc. unfold addSearchQuery. unfold_monad. cbn [fst snd]. rewrite Hinc.
  by destruct (sessionAdd_total x (_sessionSearchHistory (service w))) as [l' ->].
Qed.

Lemma getRecentPrograms_in_session env w :
  _isIncognitoSession (service w) = true ->
  getRecentPrograms env w = (Ok (_sessionRecentPrograms (service w)), w).
Proof. intros Hinc. unfold getRecentPrograms. unfold_monad. simpl. by rewrite Hinc. Qed.

Lemma getSearchHistory_in_session env w :
  _isIncognitoSession (service w) = true ->
  getSearchHistory env w = (Ok (_sessionSearchHistory (service w)), w).
Proof. intros Hinc. unfold getSearchHistory. unfold_monad. simpl. by rewrite Hinc. Qed.

(** A run of additions inside a session touches the two session lists
    only. *)
Lemma addAll_in_session env adds w :
  _isIncognitoSession (service w) = true ->
  addAll env adds w =
    {| store := store w;
       service :=
         {| _prefs := _prefs (service w);
            _isIncognitoSession := true;
            _sessionRecentPrograms :=
              sessionReplay (programsOf adds) (_sessionRecentPrograms (service w));
            _sessionSearchHistory :=
              sessionReplay (queriesOf adds) (_sessionSearchHistory (service w)) |};
       trace := trace w |}.
Proof.
  revert w. induction adds as [|a adds IH]; intros w Hinc.
  - destruct w as [σ [p i r s] t]. simpl in *. by subst i.
  - unfold addAll in *. cbn [foldl]. destruct a as [x|x]; unfold add.
    + rewrite addRecentProgram_in_session by done. cbn [snd].
      rewrite IH by done. done.
    + rewrite addSearchQuery_in_session by done. cbn [snd].
      rewrite IH by done. done.
Qed.

Lemma sessionReplay_elem_of xs l y :
  y ∈ sessionReplay xs l -> historyOk 10 l -> y ∈ l \/ y ∈ xs.
Proof.
  revert l. induction xs as [|x xs IH]; intros l Hy Hok; [by left|].
  unfold sessionReplay in *. cbn [foldl] in Hy.
  destruct (sessionAdd_ok x l Hok) as (l' & Hl' & Hok' & _ & Hsub).
  rewrite Hl' in Hy. simpl in Hy.
  destruct (IH l' Hy Hok') as [Hin|Hin].
  - destruct (Hsub y Hin) as [->|Hin']; [right; apply list_elem_of_here|by left].
  - right. by apply list_elem_of_further.
Qed.

Lemma sessionReplay_historyOk xs l :
  historyOk 10 l -> historyOk 10 (sessionReplay xs l).
Proof.
  revert l. induction xs as [|x xs IH]; intros l Hok; [done|].
  unfold sessionReplay in *. cbn [foldl].
  destruct (sessionAdd_ok x l Hok) as (l' & Hl' & Hok' & _).
  rewrite Hl'. by apply IH.
Qed.

(** Below the cap nothing is dropped. *)
Lemma sessionAdd_below_cap x l :
  length l < 10 ->
  exists l', sessionAdd x l = Some l' /\ length l' <= S (length l) /\
             x ∈ l' /\ forall y, y ∈ l -> y ∈ l'.
Proof.
  intros Hlen. unfold sessionAdd, Dart.contains, Dart.insert0.
  destruct (bool_decide_reflect (x ∈ l)) as [Hin|Hout]; cbn [negb].
  - exists l. repeat split; auto.
  - destruct (Nat.ltb_spec 10 (length (x :: l))) as [Hbig|_];
      [cbn [length] in Hbig; lia|].
    exists (x :: l). repeat split; [done|apply list_elem_of_here|].
    intros y Hy. by apply list_elem_of_further.
Qed.

Lemma sessionReplay_keeps_all xs l y :
  length l + length xs <= 10 -> y ∈ l \/ y ∈ xs -> y ∈ sessionReplay xs l.
Proof.
  revert l. induction xs as [|x xs IH]; intros l Hlen Hy.
  - destruct Hy as [Hy|Hy]; [done|by apply elem_of_nil in Hy].
  - unfold sessionReplay in *. cbn [foldl]. cbn [length] in Hlen.
    destruct (sessionAdd_below_cap x l) as (l' & Hl' & Hlen' & Hx & Hsub); [lia|].
    rewrite Hl'. simpl. apply IH; [lia|].
    destruct Hy as [Hy|Hy]; [left; auto|].
    apply elem_of_cons in Hy as [->|Hy]; [by left|by right].
Qed.

Lemma sessionWorld_eq env w adds :
  sessionWorld env w adds =
    {| store := store w;
       service :=
         {| _prefs := _prefs (service w);
            _isIncognitoSession := true;
            _sessionRecentPrograms := sessionReplay (programsOf adds) [];
            _sessionSearchHistory := sessionReplay (queriesOf adds) [] |};
       trace := trace w |}.
Proof. unfold sessionWorld. by rewrite addAll_in_session. Qed.

Lemma historyOk_nil cap : historyOk cap [].
Proof. split; [constructor|simpl; lia]. Qed.

(** C3. Inside an incognito session every [addRecentProgram] and
    [addSearchQuery] leaves the whole store as it is, whatever the store
    would answer; and after [startIncognitoSession()] and any additions,
    [getRecentPrograms] and [getSearchHistory] return the session list
    built from the additions of this session alone: its entries are
    pairwise different and at most ten, each entry returned was added in
    the session, and while no more than ten were added, each entry added
    is returned. *)
Theorem incognito_session_is_isolated env w adds :
  (forall x w', _isIncognitoSession (service w') = true ->
     store (snd (addRecentProgram env x w')) = store w' /\
     store (snd (addSearchQuery env x w')) = store w') /\
  store (sessionWorld env w adds) = store w /\
  (exists recent,
     fst (getRecentPrograms env (sessionWorld env w adds)) = Ok recent /\
     recent = sessionReplay (programsOf adds) [] /\
     historyOk 10 recent /\
     (forall x, x ∈ recent -> x ∈ programsOf adds) /\
     (length (programsOf adds) <= 10 ->
      forall x, x ∈ programsOf adds -> x ∈ recent)) /\
  (exists history,
     fst (getSearchHistory env (sessionWorld env w adds)) = Ok history /\
     history = sessionReplay (queriesOf adds) [] /\
     historyOk 10 history /\
     (forall x, x ∈ history -> x ∈ queriesOf adds) /\
     (length (queriesOf adds) <= 10 ->
      forall x, x ∈ queriesOf adds -> x ∈ history)).
Proof.
  split; [|split; [|split]].
  - intros x w' Hinc.
    rewrite addRecentProgram_in_session, addSearchQuery_in_session by done.
    done.
  - by rewrite sessionWorld_eq.
  - exists (sessionReplay (programsOf adds) []).
    rewrite getRecentPrograms_in_session by (by rewrite sessionWorld_eq).
    rewrite sessionWorld_eq.
    split; [done|]. split; [done|].
    split; [apply sessionReplay_historyOk, historyOk_nil|]. split.
    + intros x Hx.
      destruct (sessionReplay_elem_of _ _ _ Hx (historyOk_nil 10)) as [Hn|Hin];
        [by apply elem_of_nil in Hn|done].
    + intros Hlen x Hx. apply sessionReplay_keeps_all; [simpl; lia|by right].
  - exists (sessionReplay (queriesOf adds) []).
    rewrite getSearchHistory_in_session by (by rewrite sessionWorld_eq).
    rewrite sessionWorld_eq.
    split; [done|]. split; [done|].
    split; [apply sessionReplay_historyOk, historyOk_nil|]. split.
    + intros x Hx.
      destruct (sessionReplay_elem_of _ _ _ Hx (historyOk_nil 10)) as [Hn|Hin];
        [by apply elem_of_nil in Hn|done].
    + intros Hlen x Hx. apply sessionReplay_keeps_all; [simpl; lia|by right].
Qed.

Lemma incognito_session_is_isolated_witness :
  store (sessionWorld noStoreEnv browsedWorld
           [Program "hotline"; Query "shelter"; Program "legal-aid"]) =
    store browsedWorld /\
  fst (getRecentPrograms noStoreEnv
         (sessionWorld noStoreEnv browsedWorld
            [Program "hotline"; Query "shelter"; Program "legal-aid"])) =
    Ok ["legal-aid"; "hotline"].
Proof.
  destruct (incognito_session_is_isolated noStoreEnv browsedWorld
              [Program "hotline"; Query "shelter"; Program "legal-aid"])
    as (_ & Hstore & (recent & Hget & Hrecent & _) & _).
  split; [exact Hstore|]. rewrite Hget, Hrecent. reflexivity.
Defined.

(** ** What every method preserves *)

Section Preservation.
Context {S : Type} (I : S -> Prop).

Lemma preserves_ret {A} (a : A) : preserves I (ret a).
Proof. by apply hoare_ret. Qed.

Lemma preserves_throw {A} e : preserves I (throw (A:=A) e).
Proof. by apply hoare_throw. Qed.

Lemma preserves_gets {A} (f : S -> A) : preserves I (gets f).
Proof. by apply hoare_gets. Qed.

Lemma preserves_modify (f : S -> S) :
  (forall s, I s -> I (f s)) -> preserves I (modify f).
Proof. intros. by apply hoare_modify. Qed.

Lemma preserves_bind {A B} (m : M S A) (k : A -> M S B) :
  preserves I m -> (forall a, preserves I (k a)) -> preserves I (bind m k).
Proof. intros Hm Hk. eapply hoare_bind; [exact Hm|exact Hk]. Qed.

Lemma preserves_tryCatch {A} (m : M S A) (h : Exn -> M S A) :
  preserves I m -> (forall e, preserves I (h e)) -> preserves I (tryCatch m h).
Proof. intros Hm Hh. eapply hoare_tryCatch; [exact Hm|exact Hh]. Qed.

Lemma preserves_discard {A} (m : M S A) : preserves I m -> preserves I (discard m).
Proof. intros Hm. by apply hoare_discard. Qed.

Lemma preserves_orRangeError {A} (o : option A) : preserves I (orRangeError o).
Proof. destruct o; [apply preserves_ret|apply preserves_throw]. Qed.

Lemma preserves_final {A} (m : M S A) s : preserves I m -> I s -> I (snd (m s)).
Proof. intros Hm Hs. specialize (Hm s Hs). by destruct (m s) as [[a|e] s']. Qed.

End Preservation.

(** What a predicate on worlds has to be closed under for every method
    of the service to preserve it: [writable key v] tells which writes of
    the store it survives. *)
Section ServicePreservation.
Context (I : World -> Prop) (writable : string -> option PrefValue -> Prop).
Context (env : Env).
Hypothesis I_service :
  forall p i w, I w -> I (withService (fun s => set_prefs p (set_isIncognitoSession i s)) w).
Hypothesis I_clearRecent : forall w, I w -> I (withService (set_sessionRecentPrograms []) w).
Hypothesis I_clearSearch : forall w, I w -> I (withService (set_sessionSearchHistory []) w).
Hypothesis I_restart : forall w, I w -> I (withService (fun _ => fresh) w).
Hypothesis I_sessionRecent :
  forall x w l',
    sessionAdd x (_sessionRecentPrograms (service w)) = Some l' ->
    I w -> I (withService (set_sessionRecentPrograms l') w).
Hypothesis I_sessionSearch :
  forall x w l',
    sessionAdd x (_sessionSearchHistory (service w)) = Some l' ->
    I w -> I (withService (set_sessionSearchHistory l') w).
Hypothesis I_emit :
  forall e w, e <> NotifyListeners -> I w ->
    I {| store := store w; service := service w;
         trace := trace w ++ [(e, view w)] |}.
Hypothesis I_insert :
  forall key v w, writable key (Some v) -> I w -> I (withStore (insert key v) w).
Hypothesis I_delete :
  forall key w, writable key None -> I w -> I (withStore (delete key) w).
Hypothesis I_persisted :
  forall key x w l',
    key = _recentProgramsKey \/ key = _searchHistoryKey ->
    persistedAdd x (storedList (store w) key) = Some l' ->
    I w -> I (withStore (insert key (PStringList l')) w).

Lemma preserves_preferences : preserves I (_preferences env).
Proof.
  intros w Hw. unfold _preferences.
  destruct (_prefs (service w)) eqn:Hp; [done|].
  destruct (getInstanceFails env); [done|].
  specialize (I_service true (_isIncognitoSession (service w)) w Hw).
  by destruct w as [σ [p i r s] t].
Qed.

Lemma preserves_getBool key : preserves I (getBool key).
Proof. intros w Hw. unfold getBool. by destruct (store w !! key) as [[]|]. Qed.

Lemma preserves_getString key : preserves I (getString key).
Proof. intros w Hw. unfold getString. by destruct (store w !! key) as [[]|]. Qed.

Lemma preserves_getStringList key : preserves I (getStringList key).
Proof. intros w Hw. unfold getStringList. by destruct (store w !! key) as [[]|]. Qed.

Lemma preserves_emit e : e <> NotifyListeners -> preserves I (emit e).
Proof. intros He. apply preserves_modify. intros w Hw. by apply I_emit. Qed.

Lemma preserves_setBool key b :
  writable key (Some (PBool b)) -> preserves I (setBool env key b).
Proof.
  intros Hk w Hw. unfold setBool, write.
  destruct (writeOutcome env key); auto.
Qed.

Lemma preserves_setString key s :
  writable key (Some (PString s)) -> preserves I (setString env key s).
Proof.
  intros Hk w Hw. unfold setString, write.
  destruct (writeOutcome env key); auto.
Qed.

Lemma preserves_remove key :
  writable key None -> preserves I (remove env key).
Proof.
  intros Hk w Hw. unfold remove, write.
  destruct (writeOutcome env key); auto.
Qed.

Lemma preserves_setFlag b :
  preserves I (modify (withService (set_isIncognitoSession b))).
Proof.
  apply preserves_modify. intros w Hw.
  specialize (I_service (_prefs (service w)) b w Hw).
  by destruct w as [σ [p i r s] t].
Qed.

Ltac preserve_step :=
  lazymatch goal with
  | |- preserves _ (bind _ _) => apply preserves_bind; [|intros ?]
  | |- preserves _ (ret _) => apply preserves_ret
  | |- preserves _ (throw _) => apply preserves_throw
  | |- preserves _ (gets _) => apply preserves_gets
  | |- preserves _ (orRangeError _) => apply preserves_orRangeError
  | |- preserves _ (_preferences _) => apply preserves_preferences
  | |- preserves _ (getBool _) => apply preserves_getBool
  | |- preserves _ (getString _) => apply preserves_getString
  | |- preserves _ (getStringList _) => apply preserves_getStringList
  | |- preserves _ (emit _) => apply preserves_emit; [done]
  | |- preserves _ (discard _) => apply preserves_discard
  | |- preserves _ (tryCatch _ _) => apply preserves_tryCatch; [|intros ?]
  | |- preserves _ (modify (withService (set_isIncognitoSession _))) =>
      apply preserves_setFlag
  | |- preserves _ (if ?b then _ else _) => destruct b
  | |- preserves _ (match ?o with Some _ => _ | None => _ end) => destruct o
  end.

Ltac preserve := repeat preserve_step.

Lemma preserves_clearAllHistory :
  writable _recentProgramsKey None -> writable _searchHistoryKey None ->
  preserves I (clearAllHistory env).
Proof.
  intros Hr Hs. unfold clearAllHistory. preserve;
    try (by apply preserves_remove); apply preserves_modify; auto.
Qed.

Lemma preserves_isIncognitoModeEnabled : preserves I (isIncognitoModeEnabled env).
Proof. unfold isIncognitoModeEnabled. preserve. Qed.

Lemma preserves_clearSessionData :
  writable _recentProgramsKey None -> writable _searchHistoryKey None ->
  preserves I (clearSessionData env).
Proof.
  intros Hr Hs. unfold clearSessionData. preserve;
    try (by apply preserves_clearAllHistory);
    try apply preserves_isIncognitoModeEnabled;
    apply preserves_modify; auto.
Qed.

Lemma preserves_executeQuickExit :
  writable _recentProgramsKey None -> writable _searchHistoryKey None ->
  preserves I (executeQuickExit env).
Proof.
  intros Hr Hs. unfold executeQuickExit, getQuickExitUrl, uriParse,
    canLaunchUrl, launchUrl.
  preserve; by apply preserves_clearSessionData.
Qed.

Lemma preserves_getNetworkPrivacyStatus : preserves I (getNetworkPrivacyStatus env).
Proof. unfold getNetworkPrivacyStatus, checkConnectivity. preserve. Qed.

Lemma preserves_sessionBranch x (current : World -> list string)
    (assignTo : list string -> t -> t) :
  (forall w l', sessionAdd x (current w) = Some l' ->
                I w -> I (withService (assignTo l') w)) ->
  preserves I (do l <- gets current;
               do l' <- orRangeError (sessionAdd x l);
               modify (withService (assignTo l'))).
Proof.
  intros Hadd w Hw. unfold_monad. cbn [fst snd].
  destruct (sessionAdd x (current w)) as [l'|] eqn:Hl'; [|done].
  by apply (Hadd w l').
Qed.

Lemma preserves_persistedBranch key x :
  key = _recentProgramsKey \/ key = _searchHistoryKey ->
  preserves I (run _preferences env;
               do stored <- getStringList key;
               do l' <- orRangeError (persistedAdd x (default [] stored));
               run setStringList env key l';
               ret tt).
Proof.
  intros Hkey. apply preserves_bind; [apply preserves_preferences|intros _].
  intros w Hw. unfold_monad. unfold getStringList, setStringList, write.
  destruct (store w !! key) as [[b|s|l]|] eqn:Hl; try done; simpl.
  - destruct (persistedAdd x l) as [l'|] eqn:Hl'; simpl; [|done].
    destruct (writeOutcome env key); try done.
    apply (I_persisted key x); [done| |done].
    unfold storedList. by rewrite Hl.
  - destruct (persistedAdd x []) as [l'|] eqn:Hl'; simpl; [|done].
    destruct (writeOutcome env key); try done.
    apply (I_persisted key x); [done| |done].
    unfold storedList. by rewrite Hl.
Qed.

Lemma preserves_addRecentProgram x : preserves I (addRecentProgram env x).
Proof.
  unfold addRecentProgram. apply preserves_bind; [apply preserves_gets|].
  intros [|].
  - apply preserves_sessionBranch. apply I_sessionRecent.
  - apply preserves_persistedBranch. by left.
Qed.

Lemma preserves_addSearchQuery x : preserves I (addSearchQuery env x).
Proof.
  unfold addSearchQuery. apply preserves_bind; [apply preserves_gets|].
  intros [|].
  - apply preserves_sessionBranch. apply I_sessionSearch.
  - apply preserves_persistedBranch. by right.
Qed.

(** Every command preserves [I], provided [I] survives the writes the
    command asks for. *)
Lemma preserves_command c :
  (forall key v, (key, v) ∈ writes c -> writable key v) ->
  preserves I (command env c).
Proof.
  intros Hwrites.
  destruct c; cbn [command writes] in *;
    try apply preserves_addRecentProgram;
    try apply preserves_addSearchQuery;
    try (apply preserves_executeQuickExit; apply Hwrites; set_solver);
    try (apply preserves_clearAllHistory; apply Hwrites; set_solver);
    try (apply preserves_clearSessionData; apply Hwrites; set_solver);
    try (apply preserves_discard; apply preserves_getNetworkPrivacyStatus);
    unfold isQuickExitEnabled, setQuickExitEnabled, getQuickExitUrl,
      setQuickExitUrl, isIncognitoModeEnabled, setIncognitoModeEnabled,
      startIncognitoSession, endIncognitoSession, getRecentPrograms,
      getSearchHistory, shouldShowSafetyTips, setShowSafetyTips,
      isNetworkWarningsEnabled, setNetworkWarningsEnabled,
      isDisguisedModeEnabled, setDisguisedModeEnabled, getDisguisedIconId,
      setDisguisedIcon, getCurrentDisguisedIcon, applyDisguisedIcon,
      resetToDefaultIcon;
    unfold setDisguisedIcon, setDisguisedModeEnabled, getDisguisedIconId;
    preserve;
    try (apply preserves_setBool; apply Hwrites; set_solver);
    try (apply preserves_setString; apply Hwrites; set_solver);
    try (apply preserves_remove; apply Hwrites; set_solver);
    try (apply preserves_clearAllHistory; apply Hwrites; set_solver);
    try (apply preserves_modify; auto).
Qed.

End ServicePreservation.

(** ** The invariant of the history data *)

Lemma storedList_insert_ne σ key key' v :
  key <> key' -> storedList (<[key:=v]> σ) key' = storedList σ key'.
Proof. intros Hne. unfold storedList. by rewrite lookup_insert_ne. Qed.

Lemma storedList_insert_eq σ key l :
  storedList (<[key:=PStringList l]> σ) key = l.
Proof. unfold storedList. by rewrite lookup_insert_eq. Qed.

Lemma storedList_delete σ key key' :
  storedList (delete key σ) key' = if decide (key = key') then [] else storedList σ key'.
Proof. unfold storedList. rewrite lookup_delete. by case_decide. Qed.

Lemma Inv_service f w :
  (forall s, _sessionRecentPrograms (f s) = _sessionRecentPrograms s) ->
  (forall s, _sessionSearchHistory (f s) = _sessionSearchHistory s) ->
  Inv w -> Inv (withService f w).
Proof.
  intros Hr Hs (Hty & Hsr & Hss & Hpr & Hps).
  split; [done|]. unfold historiesOk. simpl. by rewrite Hr, Hs.
Qed.

Lemma Inv_sessionRecent l w :
  historyOk 10 l -> Inv w -> Inv (withService (set_sessionRecentPrograms l) w).
Proof.
  intros Hl (Hty & Hsr & Hss & Hpr & Hps). split; [done|].
  unfold historiesOk. simpl. auto.
Qed.

Lemma Inv_sessionSearch l w :
  historyOk 10 l -> Inv w -> Inv (withService (set_sessionSearchHistory l) w).
Proof.
  intros Hl (Hty & Hsr & Hss & Hpr & Hps). split; [done|].
  unfold historiesOk. simpl. auto.
Qed.

Lemma Inv_insert key v w :
  typedWrite key (Some v) -> Inv w -> Inv (withStore (insert key v) w).
Proof.
  intros (Hr & Hs & ty & Hin & Hv) (Hty & Hsr & Hss & Hpr & Hps).
  split; [by eapply wellTyped_insert|].
  unfold historiesOk. simpl. by rewrite !storedList_insert_ne.
Qed.

Lemma Inv_delete key w : Inv w -> Inv (withStore (delete key) w).
Proof.
  intros (Hty & Hsr & Hss & Hpr & Hps).
  split; [by apply wellTyped_delete|].
  unfold historiesOk. simpl. rewrite !storedList_delete.
  split; [done|split; [done|split]]; case_decide; done || apply historyOk_nil.
Qed.

Lemma Inv_persisted key x w l' :
  key = _recentProgramsKey \/ key = _searchHistoryKey ->
  persistedAdd x (storedList (store w) key) = Some l' ->
  Inv w -> Inv (withStore (insert key (PStringList l')) w).
Proof.
  intros Hkey Hadd (Hty & Hsr & Hss & Hpr & Hps).
  assert (historyOk 20 l') as Hl'.
  { destruct Hkey as [->| ->].
    - destruct (persistedAdd_ok x _ Hpr) as (l'' & Heq & Hok & _). congruence.
    - destruct (persistedAdd_ok x _ Hps) as (l'' & Heq & Hok & _). congruence. }
  split.
  - simpl. destruct Hkey as [->| ->];
      (apply (wellTyped_insert _ _ TStringList); [in_schema|reflexivity|done]).
  - unfold historiesOk. simpl.
    destruct Hkey as [->| ->]; rewrite storedList_insert_eq;
      rewrite storedList_insert_ne by done; done.
Qed.

(** Every command keeps the invariant, whatever the collaborators do. *)
Lemma Inv_step env c w : Inv w -> Inv (step env c w).
Proof.
  intros Hw. unfold step. apply preserves_final; [|done].
  apply (preserves_command Inv typedWrite).
  - intros p i w'. apply Inv_service; by intros [].
  - intros w'. apply Inv_sessionRecent, historyOk_nil.
  - intros w'. apply Inv_sessionSearch, historyOk_nil.
  - intros w' (Hty & _ & _ & Hpr & Hps).
    split; [done|]. unfold historiesOk. simpl.
    split; [apply historyOk_nil|split; [apply historyOk_nil|done]].
  - intros x w' l' Hadd Hw'. apply Inv_sessionRecent; [|done].
    destruct Hw' as (_ & Hsr & _).
    destruct (sessionAdd_ok x _ Hsr) as (l'' & Heq & Hok & _). congruence.
  - intros x w' l' Hadd Hw'. apply Inv_sessionSearch; [|done].
    destruct Hw' as (_ & _ & Hss & _).
    destruct (sessionAdd_ok x _ Hss) as (l'' & Heq & Hok & _). congruence.
  - by intros e w' _.
  - intros key v w'. apply Inv_insert.
  - intros key w' _. apply Inv_delete.
  - apply Inv_persisted.
  - intros key v Hin. destruct c; cbn [writes] in Hin;
      repeat (apply elem_of_cons in Hin as [[= -> ->]|Hin]);
      try (by apply elem_of_nil in Hin); try exact I;
      (split; [done|]; split; [done|]);
      first [ exists TBool; split; [in_schema|reflexivity]
            | exists TString; split; [in_schema|reflexivity] ].
Qed.

Lemma Inv_installed : Inv installed.
Proof.
  split; [apply wellTyped_empty|].
  repeat split; try apply NoDup_nil_2; simpl; by apply Nat.le_0_l.
Qed.

(** In every state the app can reach, the store is well typed, and the
    four history lists hold pairwise different entries within their caps
    (ten for a session list, twenty for a persisted one). *)
Lemma Reachable_Inv w : Reachable w -> Inv w.
Proof. induction 1; [apply Inv_installed|by apply Inv_step]. Qed.

(** ** The quick-exit URL *)

(** A command leaves a key alone that it does not write, when the key
    holds no history list. *)
Lemma holds_step env c w key v :
  key <> _recentProgramsKey -> key <> _searchHistoryKey ->
  (forall key' v', (key', v') ∈ writes c -> key' <> key) ->
  holds key v w -> holds key v (step env c w).
Proof.
  intros Hr Hs Hc Hw. unfold step. apply preserves_final; [|done].
  apply (preserves_command (holds key v) (fun key' _ => key' <> key));
    try done; unfold holds; simpl.
  - intros key' v' w' Hne. by rewrite lookup_insert_ne.
  - intros key' w' Hne. by rewrite lookup_delete_ne.
  - intros key' _ w' l' [->| ->] _; by rewrite lookup_insert_ne.
Qed.

Lemma quickExitUrl_frame env c w :
  (forall url, c <> SetQuickExitUrl url) ->
  store (step env c w) !! _quickExitUrlKey = store w !! _quickExitUrlKey.
Proof.
  intros Hc. apply (holds_step env c w _quickExitUrlKey); try done.
  intros key' v' Hin. destruct c; cbn [writes] in Hin;
    repeat (apply elem_of_cons in Hin as [[= -> ->]|Hin]);
    try (by apply elem_of_nil in Hin); try done.
  by destruct (Hc url).
Qed.

Lemma setQuickExitUrl_at_work env url w :
  storeWorks env ->
  store (step env (SetQuickExitUrl url) w) =
    <[_quickExitUrlKey:=PString url]> (store w).
Proof.
  intros Hworks. unfold step, command, setQuickExitUrl.
  by store_at_work Hworks.
Qed.

Lemma exec_cons env c cs w : exec env (c :: cs) w = exec env cs (step env c w).
Proof. reflexivity. Qed.

Lemma exec_Reachable env cs w : Reachable w -> Reachable (exec env cs w).
Proof.
  revert w. induction cs as [|c cs IH]; intros w Hw; [done|].
  rewrite exec_cons. apply IH. by constructor.
Qed.

(** After a run with a store that works, the store holds under the URL
    key the argument of the last [setQuickExitUrl], or what it held. *)
Lemma exec_quickExitUrl env cs w :
  storeWorks env ->
  storedString (store (exec env cs w)) _quickExitUrlKey =
    match lastUrl cs with
    | Some url => Some url
    | None => storedString (store w) _quickExitUrlKey
    end.
Proof.
  intros Hworks. revert w. induction cs as [|c cs IH]; intros w; [done|].
  rewrite exec_cons, IH. cbn [lastUrl].
  destruct (lastUrl cs) as [url|]; [done|].
  assert ((exists url, c = SetQuickExitUrl url) \/ forall url, c <> SetQuickExitUrl url)
    as [[url ->]|Hc] by (destruct c; eauto).
  - rewrite setQuickExitUrl_at_work by done.
    unfold storedString. by rewrite lookup_insert_eq.
  - unfold storedString. rewrite quickExitUrl_frame by done.
    destruct c; try done. by destruct (Hc url).
Qed.

Lemma defaultUrl_google : defaultUrl = "https://www.google.com".
Proof. reflexivity. Qed.

(** C5, as the code has it. In every state reached from installation
    with a store that works, [getQuickExitUrl] returns the first catalog
    destination's URL, https://www.google.com, when no URL was set, and
    otherwise the text last passed to [setQuickExitUrl], as it is; so the
    result is non-empty exactly when no URL was set or the text last set
    is non-empty. *)
Theorem getQuickExitUrl_returns_last_set env cs :
  storeWorks env ->
  fst (getQuickExitUrl env (exec env cs installed)) =
    Ok (default "https://www.google.com" (lastUrl cs)) /\
  (default "https://www.google.com" (lastUrl cs) <> EmptyString <->
   lastUrl cs <> Some EmptyString).
Proof.
  intros Hworks. split.
  - rewrite getQuickExitUrl_at_work.
    + unfold quickExitUrlOf. rewrite exec_quickExitUrl by done.
      rewrite defaultUrl_google. by destruct (lastUrl cs).
    + by apply storeWorks_available.
    + apply Reachable_Inv, exec_Reachable. constructor.
  - destruct (lastUrl cs) as [url|]; simpl; [|done].
    split; intros H; congruence.
Qed.

Lemma getQuickExitUrl_returns_last_set_witness :
  storeWorks workingEnv /\
  fst (getQuickExitUrl workingEnv
         (exec workingEnv
            [SetQuickExitUrl "https://apnews.com"; AddRecentProgram "calfresh";
             SetQuickExitUrl "https://www.weather.gov"; ExecuteQuickExit]
            installed)) = Ok "https://www.weather.gov".
Proof.
  split; [exact storeWorks_workingEnv|].
  apply (getQuickExitUrl_returns_last_set workingEnv
           [SetQuickExitUrl "https://apnews.com"; AddRecentProgram "calfresh";
            SetQuickExitUrl "https://www.weather.gov"; ExecuteQuickExit]
           storeWorks_workingEnv).
Defined.

(** Against C5 as written: after [setQuickExitUrl] with the empty text,
    a state the app reaches, [getQuickExitUrl] returns the empty text. *)
Lemma getQuickExitUrl_empty_after_set :
  Reachable (exec workingEnv [SetQuickExitUrl EmptyString] installed) /\
  fst (getQuickExitUrl workingEnv (exec workingEnv [SetQuickExitUrl EmptyString] installed)) =
    Ok EmptyString.
Proof.
  split; [apply exec_Reachable; constructor|by vm_compute].
Qed.

(** ** The history lists *)

Lemma getStringList_bind {A} key (k : list string -> M World A) w :
  wellTyped (store w) -> (key, TStringList) ∈ schema ->
  (do stored <- getStringList key; k (default [] stored)) w =
  k (storedList (store w) key) w.
Proof.
  intros Hty Hin. unfold bind, getStringList, storedList.
  destruct (store w !! key) as [v|] eqn:Hv; [|done].
  pose proof (wellTyped_lookup _ _ _ _ Hty Hin Hv) as Hv'.
  by destruct v.
Qed.

(** Outside a session and with a store that works, [addRecentProgram]
    stores the list with the added entry in front, the entry's older
    position removed. *)
Lemma addRecentProgram_persisted_front env x w :
  storeWorks env -> Inv w -> _isIncognitoSession (service w) = false ->
  exists rest,
    storedList (store (snd (addRecentProgram env x w))) _recentProgramsKey = x :: rest /\
    historyOk 20 (x :: rest) /\
    (forall y, y ∈ rest -> y ∈ storedList (store w) _recentProgramsKey) /\
    (x ∈ storedList (store w) _recentProgramsKey ->
     rest = Dart.remove x (storedList (store w) _recentProgramsKey)).
Proof.
  intros Hworks (Hty & _ & _ & Hpr & _) Hinc. unfold addRecentProgram.
  unfold bind at 1, gets. rewrite Hinc. unfold bind at 1.
  rewrite preferences_available by (by apply storeWorks_available).
  rewrite (getStringList_bind _recentProgramsKey
             (fun l => do recent <- orRangeError (persistedAdd x l);
                       run setStringList env _recentProgramsKey recent; ret tt))
    by (done || in_schema).
  change (store (withService (set_prefs true) w)) with (store w).
  destruct (persistedAdd_ok x _ Hpr) as (rest & Hadd & Hok & Hsub).
  rewrite Hadd. store_at_work Hworks. simpl.
  exists rest. rewrite storedList_insert_eq. repeat split; try done; try apply Hok.
  intros Hx. destruct (persistedAdd_moves_to_front x _ Hpr Hx) as [Heq _].
  congruence.
Qed.

(** C2. In an incognito session an entry that is added again stays where
    it is: after a, b, a the session list of recent programs is [b; a],
    and so is the session search history, where most-recent-first order
    asks for [a; b].  The persisted lists, written by the other branch of
    the same methods, come out as [a; b]. *)
Theorem session_list_keeps_old_position env :
  fst (getRecentPrograms env
         (exec env [StartIncognitoSession; AddRecentProgram "a";
                    AddRecentProgram "b"; AddRecentProgram "a"] installed)) =
    Ok ["b"; "a"] /\
  fst (getSearchHistory env
         (exec env [StartIncognitoSession; AddSearchQuery "a";
                    AddSearchQuery "b"; AddSearchQuery "a"] installed)) =
    Ok ["b"; "a"] /\
  fst (getRecentPrograms workingEnv
         (exec workingEnv [AddRecentProgram "a"; AddRecentProgram "b";
                           AddRecentProgram "a"] installed)) =
    Ok ["a"; "b"] /\
  fst (getSearchHistory workingEnv
         (exec workingEnv [AddSearchQuery "a"; AddSearchQuery "b";
                           AddSearchQuery "a"] installed)) =
    Ok ["a"; "b"].
Proof. repeat split; reflexivity. Qed.

(** ** Failures of the store *)

Ltac unfold_service :=
  unfold command in *;
  unfold executeQuickExit, clearSessionData, setIncognitoModeEnabled,
    applyDisguisedIcon, resetToDefaultIcon, getCurrentDisguisedIcon in *;
  unfold isQuickExitEnabled, setQuickExitEnabled, getQuickExitUrl,
    setQuickExitUrl, isIncognitoModeEnabled, addRecentProgram,
    getRecentPrograms, addSearchQuery, getSearchHistory, clearAllHistory,
    shouldShowSafetyTips, setShowSafetyTips, isNetworkWarningsEnabled,
    setNetworkWarningsEnabled, isDisguisedModeEnabled,
    setDisguisedModeEnabled, getDisguisedIconId, setDisguisedIcon in *.




Lemma tryCatch_total {S A} (m : M S A) (h : Exn -> A) s :
  exists r, fst (tryCatch m (fun e => ret (h e)) s) = Ok r /\
            forall e, fst (m s) = Thrown e -> r = h e.
Proof.
  unfold tryCatch, ret. destruct (m s) as [[a|e] s']; simpl.
  - exists a. split; [done|]. by intros e.
  - exists (h e). split; [done|]. by intros e' [= ->].
Qed.

Lemma store_throws_first env w {A} (k : M World A) key f :
  storeThrows env w ->
  exists e, fst ((run _preferences env; run write env key f; k) w) = Thrown e.
Proof.
  intros [[Hp Hf]|Hw]; unfold bind.
  - rewrite preferences_unavailable by done. by eexists.
  - unfold _preferences, write.
    destruct (_prefs (service w)); [|destruct (getInstanceFails env)];
      rewrite ?Hw; by eexists.
Qed.

Lemma applyDisguisedIcon_never_throws env iconId w :
  exists result,
    fst (applyDisguisedIcon env iconId w) = Ok result /\
    (storeThrows env w -> success result = false).
Proof.
  unfold applyDisguisedIcon.
  match goal with
  | |- context [tryCatch ?m (fun e => ret (@?h e))] =>
      destruct (tryCatch_total m h w) as (r & Hr & Hthrown)
  end.
  exists r. split; [exact Hr|]. intros Hfail.
  unfold setDisguisedIcon, setString in Hthrown.
  match type of Hthrown with
  | context [bind (bind _ (fun _ => bind _ (fun _ => ret tt))) (fun _ => ?k)] =>
      destruct (store_throws_first env w
                  (run ret tt; k) _disguisedIconKey
                  (insert _disguisedIconKey (PString iconId)) Hfail) as [e He]
  end.
  rewrite (Hthrown e); [done|].
  revert He. unfold bind. by repeat case_match.
Qed.

Lemma resetToDefaultIcon_never_throws env w :
  exists result,
    fst (resetToDefaultIcon env w) = Ok result /\
    (storeThrows env w -> success result = false).
Proof.
  unfold resetToDefaultIcon.
  match goal with
  | |- context [tryCatch ?m (fun e => ret (@?h e))] =>
      destruct (tryCatch_total m h w) as (r & Hr & Hthrown)
  end.
  exists r. split; [exact Hr|]. intros Hfail.
  unfold setDisguisedModeEnabled, setBool in Hthrown.
  match type of Hthrown with
  | context [bind (bind _ (fun _ => bind _ (fun _ => ret tt))) (fun _ => ?k)] =>
      destruct (store_throws_first env w
                  (run ret tt; k) _disguisedModeKey
                  (insert _disguisedModeKey (PBool false)) Hfail) as [e He]
  end.
  rewrite (Hthrown e); [done|].
  revert He. unfold bind. by repeat case_match.
Qed.





(** ** The provider *)

Lemma notifications_snoc t e v :
  notifications (t ++ [(e, v)]) =
  notifications t + (if decide (e = NotifyListeners) then 1 else 0).
Proof.
  unfold notifications. rewrite filter_app, length_app. f_equal.
  rewrite filter_cons, filter_nil. unfold isNotify. simpl.
  destruct (decide (e = NotifyListeners)) as [->|Hne].
  - by rewrite decide_True by (by apply bool_decide_eq_true).
  - rewrite decide_False; [done|]. by rewrite bool_decide_eq_true.
Qed.

(** No method of the service calls [notifyListeners]. *)
Lemma service_never_notifies env c w :
  notifications (trace (step env c w)) = notifications (trace w).
Proof.
  unfold step.
  apply (preserves_final
           (fun w' => notifications (trace w') = notifications (trace w)));
    [|done].
  apply (preserves_command _ (fun _ _ => True)); try done.
  intros e w' He Hw'. simpl. rewrite notifications_snoc, Hw'.
  rewrite decide_False by done. lia.
Qed.

Lemma discard_final {S A} (m : M S A) s : snd (discard m s) = snd (m s).
Proof. unfold discard. by destruct (m s) as [[a|e] s']. Qed.

(** The shape of the optimistic setters: assign, call the service,
    notify. *)
Lemma assign_call_notify (f : SafetyProvider.t -> SafetyProvider.t)
    (m : M World unit) a :
  (run SafetyProvider.assign f;
   run SafetyProvider._safetyService m;
   SafetyProvider.notifyListeners) a =
    match m (SafetyProvider.world a) with
    | (Ok _, w') =>
        (Ok tt,
         {| SafetyProvider.provider := f (SafetyProvider.provider a);
            SafetyProvider.world :=
              {| store := store w'; service := service w';
                 trace := trace w' ++ [(NotifyListeners, view w')] |} |})
    | (Thrown e, w') =>
        (Thrown e,
         {| SafetyProvider.provider := f (SafetyProvider.provider a);
            SafetyProvider.world := w' |})
    end.
Proof.
  unfold bind, SafetyProvider.assign, modify, SafetyProvider._safetyService, lift.
  simpl. by destruct (m (SafetyProvider.world a)) as [[[]|e] w'].
Qed.

Lemma getNetworkPrivacyStatus_statusOf env w :
  getNetworkPrivacyStatus env w =
    (Ok (statusOf env),
     {| store := store w; service := service w;
        trace := trace w ++ [(CheckConnectivity, view w)] |}).
Proof.
  unfold statusOf, getNetworkPrivacyStatus, checkConnectivity.
  unfold_monad. simpl.
  destruct (connectivityReading env) as [reading|]; [|done].
  destruct (bool_decide (CR_wifi ∈ reading)); [done|].
  destruct (bool_decide (CR_mobile ∈ reading)); [done|].
  destruct (bool_decide (CR_vpn ∈ reading)); [done|].
  by destruct (bool_decide (CR_none ∈ reading)).
Qed.

Section ProviderMethods.
Context (env : Env) (a : SafetyProvider.App).
Abbreviation w := (SafetyProvider.world a).

(** What an optimistic setter comes to: the cache is assigned whatever
    happens, the outcome is the service's, and the listeners are
    notified once if the service returned and not at all if it threw. *)
Lemma setter_notifiesIfReturned (f : SafetyProvider.t -> SafetyProvider.t)
    (m : M World unit) (cached : SafetyProvider.t -> Prop) :
  notifications (trace (snd (m w))) = notifications (trace w) ->
  cached (f (SafetyProvider.provider a)) ->
  notifiesIfReturned
    ((run SafetyProvider.assign f; run SafetyProvider._safetyService m;
      SafetyProvider.notifyListeners) a)
    a (fst (m w)) cached.
Proof.
  intros Hquiet Hcached. unfold notifiesIfReturned, notifiedTimes.
  rewrite assign_call_notify.
  destruct (m w) as [[[]|e] w']; simpl in *.
  - repeat split; [done|]. rewrite notifications_snoc, Hquiet. simpl. lia.
  - repeat split; [done|]. lia.
Qed.

Lemma provider_setQuickExitEnabled enabled :
  notifiesIfReturned (SafetyProvider.setQuickExitEnabled env enabled a) a
    (fst (setQuickExitEnabled env enabled w))
    (fun p => SafetyProvider._quickExitEnabled p = enabled).
Proof.
  apply setter_notifiesIfReturned; [|done].
  exact (service_never_notifies env (SetQuickExitEnabled enabled) w).
Qed.

Lemma provider_setQuickExitUrl url :
  notifiesIfReturned (SafetyProvider.setQuickExitUrl env url a) a
    (fst (setQuickExitUrl env url w))
    (fun p => SafetyProvider._quickExitUrl p = url).
Proof.
  apply setter_notifiesIfReturned; [|done].
  exact (service_never_notifies env (SetQuickExitUrl url) w).
Qed.

Lemma provider_setShowSafetyTips show :
  notifiesIfReturned (SafetyProvider.setShowSafetyTips env show a) a
    (fst (setShowSafetyTips env show w))
    (fun p => SafetyProvider._showSafetyTips p = show).
Proof.
  apply setter_notifiesIfReturned; [|done].
  exact (service_never_notifies env (SetShowSafetyTips show) w).
Qed.

Lemma provider_setNetworkWarningsEnabled enabled :
  notifiesIfReturned (SafetyProvider.setNetworkWarningsEnabled env enabled a) a
    (fst (setNetworkWarningsEnabled env enabled w))
    (fun p => SafetyProvider._networkWarningsEnabled p = enabled).
Proof.
  apply setter_notifiesIfReturned; [|done].
  exact (service_never_notifies env (SetNetworkWarningsEnabled enabled) w).
Qed.

Lemma provider_setIncognitoModeEnabled enabled :
  notifiesIfReturned (SafetyProvider.setIncognitoModeEnabled env enabled a) a
    (fst (setIncognitoModeEnabled env enabled w))
    (fun p => SafetyProvider._incognitoModeEnabled p = enabled /\
              SafetyProvider._isIncognitoSession p = enabled).
Proof.
  pose proof (service_never_notifies env (SetIncognitoModeEnabled enabled) w) as Hquiet.
  unfold step, command in Hquiet.
  pose proof (setter_notifiesIfReturned
                (fun p => SafetyProvider.set_isIncognitoSession enabled
                            (SafetyProvider.set_incognitoModeEnabled enabled p))
                (setIncognitoModeEnabled env enabled)
                (fun p => SafetyProvider._incognitoModeEnabled p = enabled /\
                          SafetyProvider._isIncognitoSession p = enabled)
                Hquiet (conj eq_refl eq_refl)) as H.
  exact H.
Qed.

Lemma provider_clearAllHistory :
  notifiesIfReturned (SafetyProvider.clearAllHistory env a) a
    (fst (clearAllHistory env w))
    (fun p => p = SafetyProvider.provider a).
Proof.
  pose proof (service_never_notifies env ClearAllHistory w) as Hquiet.
  unfold step, command in Hquiet.
  unfold SafetyProvider.clearAllHistory, notifiesIfReturned, notifiedTimes.
  unfold bind, SafetyProvider._safetyService, lift, SafetyProvider.notifyListeners,
    emit, modify. fold w.
  destruct (clearAllHistory env w) as [[[]|e] w']; simpl in *.
  - repeat split. rewrite notifications_snoc, Hquiet. simpl. fold w. lia.
  - repeat split. fold w. lia.
Qed.

Lemma provider_startIncognitoSession :
  notifiesIfReturned (SafetyProvider.startIncognitoSession a) a (Ok tt)
    (fun p => SafetyProvider._isIncognitoSession p = true).
Proof.
  unfold notifiesIfReturned, notifiedTimes. simpl.
  repeat split. rewrite notifications_snoc. simpl. done.
Qed.

Lemma provider_endIncognitoSession :
  notifiesIfReturned (SafetyProvider.endIncognitoSession a) a (Ok tt)
    (fun p => SafetyProvider._isIncognitoSession p = false).
Proof.
  unfold notifiesIfReturned, notifiedTimes. simpl.
  repeat split. rewrite notifications_snoc. simpl. done.
Qed.

Lemma provider_refreshNetworkStatus :
  notifiesIfReturned (SafetyProvider.refreshNetworkStatus env a) a (Ok tt)
    (fun p => SafetyProvider._networkStatus p = Some (statusOf env)).
Proof.
  unfold SafetyProvider.refreshNetworkStatus, notifiesIfReturned, notifiedTimes.
  unfold bind, SafetyProvider._safetyService, lift. fold w.
  rewrite getNetworkPrivacyStatus_statusOf. simpl.
  repeat split. rewrite !notifications_snoc. simpl. fold w. lia.
Qed.

(** The shape of the two disguise methods: call the service, and follow
    its result only when it reports success. *)
Lemma call_then_follow (m : M World DisguiseResult)
    (f1 f2 : SafetyProvider.t -> SafetyProvider.t) :
  (do result <- SafetyProvider._safetyService m;
   run (if success result then
          run SafetyProvider.assign f1;
          run SafetyProvider.assign f2;
          SafetyProvider.notifyListeners
        else ret tt);
   ret result) a =
    match m w with
    | (Ok result, w') =>
        (Ok result,
         if success result then
           {| SafetyProvider.provider := f2 (f1 (SafetyProvider.provider a));
              SafetyProvider.world :=
                {| store := store w'; service := service w';
                   trace := trace w' ++ [(NotifyListeners, view w')] |} |}
         else {| SafetyProvider.provider := SafetyProvider.provider a;
                 SafetyProvider.world := w' |})
    | (Thrown e, w') =>
        (Thrown e, {| SafetyProvider.provider := SafetyProvider.provider a;
                      SafetyProvider.world := w' |})
    end.
Proof.
  unfold bind at 1. unfold SafetyProvider._safetyService, lift. fold w.
  destruct (m w) as [[result|e] w']; [|done].
  unfold bind at 1. by destruct (success result).
Qed.

Lemma provider_applyDisguisedIcon icon :
  notifiesOnSuccess (SafetyProvider.applyDisguisedIcon env icon a) a
    (fst (applyDisguisedIcon env (dai_id icon) w))
    (fun p => SafetyProvider._disguisedModeEnabled p = true /\
              SafetyProvider._currentDisguisedIcon p = Some icon).
Proof.
  pose proof (service_never_notifies env (ApplyDisguisedIcon (dai_id icon)) w) as Hquiet.
  unfold step, command in Hquiet. rewrite discard_final in Hquiet.
  destruct (applyDisguisedIcon_never_throws env (dai_id icon) w) as (result & Hr & _).
  exists result. unfold SafetyProvider.applyDisguisedIcon, notifiedTimes.
  rewrite call_then_follow.
  destruct (applyDisguisedIcon env (dai_id icon) w) as [r' w']. simpl in Hr, Hquiet.
  subst r'. simpl. split; [done|]. split; [done|].
  destruct (success result); simpl.
  - repeat split. rewrite notifications_snoc, Hquiet. simpl. by fold w.
  - repeat split. fold w. lia.
Qed.

Lemma provider_resetToDefaultIcon :
  notifiesOnSuccess (SafetyProvider.resetToDefaultIcon env a) a
    (fst (resetToDefaultIcon env w))
    (fun p => SafetyProvider._disguisedModeEnabled p = false /\
              SafetyProvider._currentDisguisedIcon p = None).
Proof.
  pose proof (service_never_notifies env ResetToDefaultIcon w) as Hquiet.
  unfold step, command in Hquiet. rewrite discard_final in Hquiet.
  destruct (resetToDefaultIcon_never_throws env w) as (result & Hr & _).
  exists result. unfold SafetyProvider.resetToDefaultIcon, notifiedTimes.
  rewrite call_then_follow.
  destruct (resetToDefaultIcon env w) as [r' w']. simpl in Hr, Hquiet.
  subst r'. simpl. split; [done|]. split; [done|].
  destruct (success result); simpl.
  - repeat split. rewrite notifications_snoc, Hquiet. simpl. by fold w.
  - repeat split. fold w. lia.
Qed.

End ProviderMethods.

(** C7, as the code has it. The setters [setQuickExitEnabled],
    [setQuickExitUrl], [setIncognitoModeEnabled], [setShowSafetyTips] and
    [setNetworkWarningsEnabled] assign their cached fields before they
    call the service and never take the assignment back; they and
    [clearAllHistory] end as the service call ends, and notify the
    listeners once when it returns (also when a write answered [false])
    and not at all when it throws.  [startIncognitoSession],
    [endIncognitoSession] and [refreshNetworkStatus] always return,
    update the cache and notify once.  [applyDisguisedIcon] and
    [resetToDefaultIcon] always return the service's result; they update
    the cache and notify once when it reports success, and otherwise
    leave the cache alone and do not notify. *)
Theorem provider_notifies_when_service_returns env a :
  (forall enabled,
     notifiesIfReturned (SafetyProvider.setQuickExitEnabled env enabled a) a
       (fst (setQuickExitEnabled env enabled (SafetyProvider.world a)))
       (fun p => SafetyProvider._quickExitEnabled p = enabled)) /\
  (forall url,
     notifiesIfReturned (SafetyProvider.setQuickExitUrl env url a) a
       (fst (setQuickExitUrl env url (SafetyProvider.world a)))
       (fun p => SafetyProvider._quickExitUrl p = url)) /\
  (forall enabled,
     notifiesIfReturned (SafetyProvider.setIncognitoModeEnabled env enabled a) a
       (fst (setIncognitoModeEnabled env enabled (SafetyProvider.world a)))
       (fun p => SafetyProvider._incognitoModeEnabled p = enabled /\
                 SafetyProvider._isIncognitoSession p = enabled)) /\
  (forall show,
     notifiesIfReturned (SafetyProvider.setShowSafetyTips env show a) a
       (fst (setShowSafetyTips env show (SafetyProvider.world a)))
       (fun p => SafetyProvider._showSafetyTips p = show)) /\
  (forall enabled,
     notifiesIfReturned (SafetyProvider.setNetworkWarningsEnabled env enabled a) a
       (fst (setNetworkWarningsEnabled env enabled (SafetyProvider.world a)))
       (fun p => SafetyProvider._networkWarningsEnabled p = enabled)) /\
  notifiesIfReturned (SafetyProvider.clearAllHistory env a) a
    (fst (clearAllHistory env (SafetyProvider.world a)))
    (fun p => p = SafetyProvider.provider a) /\
  notifiesIfReturned (SafetyProvider.startIncognitoSession a) a (Ok tt)
    (fun p => SafetyProvider._isIncognitoSession p = true) /\
  notifiesIfReturned (SafetyProvider.endIncognitoSession a) a (Ok tt)
    (fun p => SafetyProvider._isIncognitoSession p = false) /\
  notifiesIfReturned (SafetyProvider.refreshNetworkStatus env a) a (Ok tt)
    (fun p => SafetyProvider._networkStatus p = Some (statusOf env)) /\
  (forall icon,
     notifiesOnSuccess (SafetyProvider.applyDisguisedIcon env icon a) a
       (fst (applyDisguisedIcon env (dai_id icon) (SafetyProvider.world a)))
       (fun p => SafetyProvider._disguisedModeEnabled p = true /\
                 SafetyProvider._currentDisguisedIcon p = Some icon)) /\
  notifiesOnSuccess (SafetyProvider.resetToDefaultIcon env a) a
    (fst (resetToDefaultIcon env (SafetyProvider.world a)))
    (fun p => SafetyProvider._disguisedModeEnabled p = false /\
              SafetyProvider._currentDisguisedIcon p = None).
Proof.
  split; [intros; apply provider_setQuickExitEnabled|].
  split; [intros; apply provider_setQuickExitUrl|].
  split; [intros; apply provider_setIncognitoModeEnabled|].
  split; [intros; apply provider_setShowSafetyTips|].
  split; [intros; apply provider_setNetworkWarningsEnabled|].
  split; [apply provider_clearAllHistory|].
  split; [apply provider_startIncognitoSession|].
  split; [apply provider_endIncognitoSession|].
  split; [apply provider_refreshNetworkStatus|].
  split; [intros; apply provider_applyDisguisedIcon|].
  apply provider_resetToDefaultIcon.
Qed.

Lemma provider_notifies_when_service_returns_witness :
  notifiedTimes 1 (appOver installed)
    (snd (SafetyProvider.setQuickExitEnabled writeRejectsEnv true (appOver installed))) /\
  notifiedTimes 0 (appOver installed)
    (snd (SafetyProvider.setQuickExitEnabled writeThrowsEnv true (appOver installed))).
Proof.
  destruct (provider_notifies_when_service_returns writeRejectsEnv (appOver installed))
    as [Hrejects _].
  destruct (provider_notifies_when_service_returns writeThrowsEnv (appOver installed))
    as [Hthrows _].
  split.
  - exact (proj2 (proj2 (Hrejects true))).
  - exact (proj2 (proj2 (Hthrows true))).
Defined.

(** Against C7 as written: when the write throws, [setQuickExitEnabled]
    has assigned the cache but throws without notifying the listeners;
    and [applyDisguisedIcon] returns, leaves its cached fields alone and
    does not notify either. *)
Lemma provider_silent_when_write_throws :
  fst (SafetyProvider.setQuickExitEnabled writeThrowsEnv true (appOver installed)) =
    Thrown StoreWriteFailed /\
  SafetyProvider._quickExitEnabled
    (SafetyProvider.provider
       (snd (SafetyProvider.setQuickExitEnabled writeThrowsEnv true (appOver installed)))) =
    true /\
  notifications
    (trace (SafetyProvider.world
       (snd (SafetyProvider.setQuickExitEnabled writeThrowsEnv true (appOver installed))))) =
    0 /\
  isOk (fst (SafetyProvider.applyDisguisedIcon writeThrowsEnv calculator (appOver installed))) =
    true /\
  SafetyProvider._disguisedModeEnabled
    (SafetyProvider.provider
       (snd (SafetyProvider.applyDisguisedIcon writeThrowsEnv calculator (appOver installed)))) =
    false /\
  SafetyProvider._currentDisguisedIcon
    (SafetyProvider.provider
       (snd (SafetyProvider.applyDisguisedIcon writeThrowsEnv calculator (appOver installed)))) =
    None /\
  notifications
    (trace (SafetyProvider.world
       (snd (SafetyProvider.applyDisguisedIcon writeThrowsEnv calculator (appOver installed))))) =
    0.
Proof. by vm_compute. Qed.

(** ** Initialisation of the provider *)

Lemma preserves_undiscard {S A} (I : S -> Prop) (m : M S A) :
  preserves I (discard m) -> preserves I m.
Proof.
  intros Hm s Hs. specialize (Hm s Hs). unfold discard in Hm.
  by destruct (m s) as [[v|e] s'].
Qed.

Lemma preserves_safetyService {A} (J : World -> Prop) (m : M World A) :
  preserves J m ->
  preserves (fun a => J (SafetyProvider.world a)) (SafetyProvider._safetyService m).
Proof.
  intros Hm a Ha. unfold SafetyProvider._safetyService, lift.
  specialize (Hm _ Ha). by destruct (m (SafetyProvider.world a)) as [[v|e] w'].
Qed.

Lemma preserves_assign (J : World -> Prop) f :
  preserves (fun a => J (SafetyProvider.world a)) (SafetyProvider.assign f).
Proof. by apply preserves_modify. Qed.

(** A command of the service leaves the count of notifications. *)
Lemma quiet_command env c n :
  preserves (fun w => notifications (trace w) = n) (command env c).
Proof.
  apply (preserves_command _ (fun _ _ => True)); try done.
  intros e w' He Hw'. simpl. rewrite notifications_snoc, Hw'.
  rewrite decide_False by done. lia.
Qed.

(** Loading the settings notifies nobody, wherever it stops. *)
Lemma loadSettings_quiet env n :
  preserves (fun a => notifications (trace (SafetyProvider.world a)) = n)
    (SafetyProvider.loadSettings env).
Proof.
  unfold SafetyProvider.loadSettings.
  repeat first
    [ apply (preserves_assign (fun w => notifications (trace w) = n))
    | apply preserves_ret
    | apply preserves_gets
    | apply preserves_bind; [|intros ?]
    | match goal with
      | |- preserves _ (if ?b then _ else _) => destruct b
      end ].
  - apply (preserves_safetyService (fun w => notifications (trace w) = n)), preserves_undiscard.
    exact (quiet_command env IsQuickExitEnabled n).
  - apply (preserves_safetyService (fun w => notifications (trace w) = n)), preserves_undiscard.
    exact (quiet_command env GetQuickExitUrl n).
  - apply (preserves_safetyService (fun w => notifications (trace w) = n)), preserves_undiscard.
    exact (quiet_command env IsIncognitoModeEnabled n).
  - apply (preserves_safetyService (fun w => notifications (trace w) = n)), preserves_gets.
  - apply (preserves_safetyService (fun w => notifications (trace w) = n)), preserves_undiscard.
    exact (quiet_command env ShouldShowSafetyTips n).
  - apply (preserves_safetyService (fun w => notifications (trace w) = n)), preserves_undiscard.
    exact (quiet_command env IsNetworkWarningsEnabled n).
  - apply (preserves_safetyService (fun w => notifications (trace w) = n)), preserves_undiscard.
    exact (quiet_command env GetNetworkPrivacyStatus n).
  - apply (preserves_safetyService (fun w => notifications (trace w) = n)), preserves_undiscard.
    exact (quiet_command env IsDisguisedModeEnabled n).
  - apply (preserves_safetyService (fun w => notifications (trace w) = n)), preserves_undiscard.
    exact (quiet_command env GetCurrentDisguisedIcon n).
  - apply (preserves_safetyService (fun w => notifications (trace w) = n)), preserves_modify.
    intros w Hw. simpl. rewrite notifications_snoc, Hw.
    rewrite decide_False by done. lia.
  - apply (preserves_safetyService (fun w => notifications (trace w) = n)).
    exact (quiet_command env StartIncognitoSession n).
Qed.

(** [initialize], in terms of the world its [try] leaves. *)
Lemma initialize_eq env a :
  SafetyProvider.initialize env a =
    if SafetyProvider._initialized (SafetyProvider.provider a) then (Ok tt, a)
    else
      (Ok tt,
       {| SafetyProvider.provider :=
            SafetyProvider.set_initialized true
              (SafetyProvider.provider (snd (SafetyProvider.loadSettings env a)));
          SafetyProvider.world :=
            {| store := store (SafetyProvider.world (snd (SafetyProvider.loadSettings env a)));
               service := service (SafetyProvider.world (snd (SafetyProvider.loadSettings env a)));
               trace :=
                 trace (SafetyProvider.world (snd (SafetyProvider.loadSettings env a))) ++
                 [(NotifyListeners,
                   view (SafetyProvider.world (snd (SafetyProvider.loadSettings env a))))] |} |}).
Proof.
  unfold SafetyProvider.initialize. unfold bind at 1, gets.
  destruct (SafetyProvider._initialized (SafetyProvider.provider a)); [done|].
  unfold bind at 1, tryCatch.
  by destruct (SafetyProvider.loadSettings env a) as [[[]|e] a1].
Qed.

Lemma boolGetter_at_work env key dflt w :
  available env w -> wellTyped (store w) -> (key, TBool) ∈ schema ->
  (run _preferences env; do v <- getBool key; ret (default dflt v)) w =
    (Ok (storedBool (store w) key dflt), withService (set_prefs true) w).
Proof.
  intros Hav Hty Hin. unfold bind at 1. rewrite preferences_available by done.
  by rewrite getBool_typed.
Qed.

Lemma getCurrentDisguisedIcon_at_work env w :
  available env w -> wellTyped (store w) ->
  getCurrentDisguisedIcon env w = (Ok (iconOf w), withService (set_prefs true) w).
Proof.
  intros Hav Hty. unfold getCurrentDisguisedIcon, getDisguisedIconId, iconOf.
  unfold bind. rewrite preferences_available by done.
  rewrite getString_typed by (done || in_schema).
  change (store (withService (set_prefs true) w)) with (store w).
  by destruct (storedString (store w) _disguisedIconKey).
Qed.

Lemma call_returns {A B} (m : M World A) (k : A -> M SafetyProvider.App B) a v w' :
  m (SafetyProvider.world a) = (Ok v, w') ->
  (do x <- SafetyProvider._safetyService m; k x) a =
    k v {| SafetyProvider.provider := SafetyProvider.provider a;
           SafetyProvider.world := w' |}.
Proof.
  intros Hm. unfold bind, SafetyProvider._safetyService, lift. by rewrite Hm.
Qed.

Lemma assign_then {B} f (k : M SafetyProvider.App B) a :
  (run SafetyProvider.assign f; k) a =
    k {| SafetyProvider.provider := f (SafetyProvider.provider a);
         SafetyProvider.world := SafetyProvider.world a |}.
Proof. reflexivity. Qed.

(** The state [loadSettings] leaves when every read succeeds. *)
Lemma loadSettings_at_work env a :
  available env (SafetyProvider.world a) ->
  wellTyped (store (SafetyProvider.world a)) ->
  fst (SafetyProvider.loadSettings env a) = Ok tt /\
  loadedFrom env (SafetyProvider.world a)
    (SafetyProvider.provider (snd (SafetyProvider.loadSettings env a))) /\
  SafetyProvider._initialized
    (SafetyProvider.provider (snd (SafetyProvider.loadSettings env a))) =
    SafetyProvider._initialized (SafetyProvider.provider a) /\
  store (SafetyProvider.world (snd (SafetyProvider.loadSettings env a))) =
    store (SafetyProvider.world a) /\
  service (SafetyProvider.world (snd (SafetyProvider.loadSettings env a))) =
    (if incognitoSetting (SafetyProvider.world a)
     then {| _prefs := true; _isIncognitoSession := true;
             _sessionRecentPrograms := []; _sessionSearchHistory := [] |}
     else set_prefs true (service (SafetyProvider.world a))) /\
  map fst (trace (SafetyProvider.world (snd (SafetyProvider.loadSettings env a)))) =
    (map fst (trace (SafetyProvider.world a)) ++
     [CheckConnectivity; ListenNetworkPrivacyStream])%list.
Proof.
  destruct a as [p w]. cbn [SafetyProvider.world SafetyProvider.provider].
  intros Hav Hty. unfold SafetyProvider.loadSettings.
  assert (available env (withService (set_prefs true) w)) as Hav' by (by left).
  erewrite call_returns
    by (apply boolGetter_at_work; [done|done|in_schema]).
  rewrite assign_then. cbn [SafetyProvider.world SafetyProvider.provider].
  erewrite call_returns by (by apply getQuickExitUrl_at_work).
  rewrite assign_then. cbn [SafetyProvider.world SafetyProvider.provider].
  erewrite call_returns by (by apply isIncognitoModeEnabled_at_work).
  rewrite assign_then. cbn [SafetyProvider.world SafetyProvider.provider].
  erewrite call_returns by reflexivity.
  rewrite assign_then. cbn [SafetyProvider.world SafetyProvider.provider].
  erewrite call_returns
    by (apply boolGetter_at_work; [by left|done|in_schema]).
  rewrite assign_then. cbn [SafetyProvider.world SafetyProvider.provider].
  erewrite call_returns
    by (apply boolGetter_at_work; [by left|done|in_schema]).
  rewrite assign_then. cbn [SafetyProvider.world SafetyProvider.provider].
  erewrite call_returns by apply getNetworkPrivacyStatus_statusOf.
  rewrite assign_then. cbn [SafetyProvider.world SafetyProvider.provider].
  erewrite call_returns
    by (apply boolGetter_at_work; [by left|done|in_schema]).
  rewrite assign_then. cbn [SafetyProvider.world SafetyProvider.provider].
  erewrite call_returns
    by (apply getCurrentDisguisedIcon_at_work; [by left|done]).
  rewrite assign_then. cbn [SafetyProvider.world SafetyProvider.provider].
  erewrite call_returns by reflexivity.
  rewrite assign_then. cbn [SafetyProvider.world SafetyProvider.provider].
  unfold bind at 1, gets.
  cbn [SafetyProvider.provider SafetyProvider._incognitoModeEnabled
       SafetyProvider.set_networkSubscription SafetyProvider.set_currentDisguisedIcon
       SafetyProvider.set_disguisedModeEnabled SafetyProvider.set_networkStatus
       SafetyProvider.set_networkWarningsEnabled SafetyProvider.set_showSafetyTips
       SafetyProvider.set_isIncognitoSession SafetyProvider.set_incognitoModeEnabled].
  change (incognitoSetting (withService (set_prefs true) (withService (set_prefs true) w)))
    with (incognitoSetting w).
  unfold loadedFrom.
  destruct (incognitoSetting w) eqn:Hinc; simpl; rewrite ?map_app; simpl;
    rewrite ?orb_true_r, ?orb_false_r, <- ?(assoc_L app); repeat split; done.
Qed.

(** C8. The first [initialize] returns, whatever the collaborators do:
    it marks the provider initialised and notifies the listeners exactly
    once, as its last step; every later call, under any behaviour of the
    collaborators, returns at once and changes nothing, not even the
    record of calls.  When the reads succeed, the first call has loaded
    every persisted setting into the cache, fetched the network status,
    subscribed to the network stream, and started an incognito session
    exactly when the persisted incognito setting is on; it made three
    calls: the connectivity query, the subscription, the notification. *)
Theorem initialize_is_idempotent env a :
  SafetyProvider._initialized (SafetyProvider.provider a) = false ->
  fst (SafetyProvider.initialize env a) = Ok tt /\
  SafetyProvider._initialized
    (SafetyProvider.provider (snd (SafetyProvider.initialize env a))) = true /\
  notifiedTimes 1 a (snd (SafetyProvider.initialize env a)) /\
  (exists v,
     last (trace (SafetyProvider.world (snd (SafetyProvider.initialize env a)))) =
       Some (NotifyListeners, v)) /\
  (forall env',
     SafetyProvider.initialize env' (snd (SafetyProvider.initialize env a)) =
       (Ok tt, snd (SafetyProvider.initialize env a))) /\
  (available env (SafetyProvider.world a) ->
   wellTyped (store (SafetyProvider.world a)) ->
   loadedFrom env (SafetyProvider.world a)
     (SafetyProvider.provider (snd (SafetyProvider.initialize env a))) /\
   store (SafetyProvider.world (snd (SafetyProvider.initialize env a))) =
     store (SafetyProvider.world a) /\
   service (SafetyProvider.world (snd (SafetyProvider.initialize env a))) =
     (if incognitoSetting (SafetyProvider.world a)
      then {| _prefs := true; _isIncognitoSession := true;
              _sessionRecentPrograms := []; _sessionSearchHistory := [] |}
      else set_prefs true (service (SafetyProvider.world a))) /\
   map fst (trace (SafetyProvider.world (snd (SafetyProvider.initialize env a)))) =
     (map fst (trace (SafetyProvider.world a)) ++
      [CheckConnectivity; ListenNetworkPrivacyStream; NotifyListeners])%list).
Proof.
  intros Hfresh.
  pose proof (preserves_final _ _ a
                (loadSettings_quiet env
                   (notifications (trace (SafetyProvider.world a)))) eq_refl)
    as Hquiet.
  rewrite initialize_eq, Hfresh. simpl.
  split; [done|]. split; [done|]. split; [|split; [|split]].
  - unfold notifiedTimes. simpl. rewrite notifications_snoc, Hquiet. simpl. lia.
  - eexists. by rewrite last_snoc.
  - intros env'. by rewrite initialize_eq.
  - intros Hav Hty.
    destruct (loadSettings_at_work env a Hav Hty)
      as (_ & Hloaded & _ & Hstore & Hservice & Htrace).
    split; [|split; [done|split; [done|]]].
    + unfold loadedFrom in *. simpl. exact Hloaded.
    + rewrite map_app, Htrace, <- (assoc_L app). done.
Qed.

Lemma initialize_is_idempotent_witness :
  SafetyProvider._initialized (SafetyProvider.provider (appOver browsedWorld)) = false /\
  SafetyProvider.initialize noStoreEnv
    (snd (SafetyProvider.initialize workingEnv (appOver browsedWorld))) =
    (Ok tt, snd (SafetyProvider.initialize workingEnv (appOver browsedWorld))) /\
  notifiedTimes 1 (appOver browsedWorld)
    (snd (SafetyProvider.initialize noStoreEnv (appOver browsedWorld))).
Proof.
  split; [reflexivity|].
  destruct (initialize_is_idempotent workingEnv (appOver browsedWorld) eq_refl)
    as (_ & _ & _ & _ & Hagain & _).
  destruct (initialize_is_idempotent noStoreEnv (appOver browsedWorld) eq_refl)
    as (_ & _ & Honce & _).
  split; [apply Hagain|exact Honce].
Defined.

(** ** Quick exit under any store *)

Lemma hoare_preserves {S A} (I : S -> Prop) (m : M S A) (E : Exn -> S -> Prop) :
  preserves I m -> (forall e s, I s -> E e s) -> hoare I m (fun _ => I) E.
Proof. intros Hm HE. eapply hoare_conseq; [exact Hm|..]; auto. Qed.

Lemma preserves_getQuickExitUrl (I : World -> Prop) env :
  (forall p i w, I w ->
     I (withService (fun s => set_prefs p (set_isIncognitoSession i s)) w)) ->
  preserves I (getQuickExitUrl env).
Proof.
  intros HI. unfold getQuickExitUrl.
  apply preserves_bind; [by apply preserves_preferences|intros _].
  apply preserves_bind; [apply preserves_getString|intros v].
  apply preserves_ret.
Qed.

(** [clearSessionData] makes no call that leaves the app, and when it
    returns, both session lists are empty. *)
Lemma clearSessionData_clears env t :
  hoare (fun w => trace w = t) (clearSessionData env)
    (fun _ w => trace w = t /\ sessionListsEmpty (view w))
    (fun _ w => trace w = t).
Proof.
  unfold clearSessionData.
  eapply hoare_bind with (Q := fun _ w =>
    trace w = t /\ _sessionRecentPrograms (service w) = []).
  { apply hoare_modify. by intros w Hw. }
  intros _.
  eapply hoare_bind with (Q := fun _ w => trace w = t /\ sessionListsEmpty (view w)).
  { apply hoare_modify. by intros w [Hw Hr]. }
  intros _. apply hoare_preserves; [|by intros e w [Hw _]].
  assert (forall p i w,
            trace w = t /\ sessionListsEmpty (view w) ->
            trace (withService (fun s => set_prefs p (set_isIncognitoSession i s)) w) = t /\
            sessionListsEmpty
              (view (withService (fun s => set_prefs p (set_isIncognitoSession i s)) w)))
    as Hservice by (by intros p i w).
  apply preserves_bind; [apply preserves_gets|intros incognito].
  apply preserves_bind.
  { destruct incognito; [apply preserves_ret|].
    by apply preserves_isIncognitoModeEnabled. }
  intros [|]; [|apply preserves_ret].
  apply (preserves_clearAllHistory _ (fun _ _ => True)); try done.
  - by intros w [Hw [Hr Hs]].
  - by intros w [Hw [Hr Hs]].
Qed.

(** The navigation part of [executeQuickExit], from a world with empty
    session lists: they stay empty, and every call finds them so. *)
Lemma navigation_sees_empty_lists env url t :
  hoare (fun w => trace w = t /\ sessionListsEmpty (view w))
    (do uri <- uriParse env url;
     do can <- canLaunchUrl env uri;
     run (if (can : bool) then (run launchUrl env uri; ret tt) else ret tt);
     if isAndroid env || isIOS env then emit SystemNavigatorPop else ret tt)
    (fun _ w => exists calls,
       trace w = (t ++ calls)%list /\
       Forall (fun call => sessionListsEmpty call.2) calls /\
       sessionListsEmpty (view w))
    (fun _ w => exists calls,
       trace w = (t ++ calls)%list /\
       Forall (fun call => sessionListsEmpty call.2) calls /\
       sessionListsEmpty (view w)).
Proof.
  intros [σ [p i r s] tr] [Htr [Hr Hs]]. simpl in *. subst tr r s.
  unfold uriParse, canLaunchUrl, launchUrl. unfold_monad.
  destruct (uriParses env url); simpl.
  - destruct (canLaunchAnswer env url) as [[|]|]; simpl.
    + destruct (launchAnswer env url) as [b|]; simpl.
      * destruct (isAndroid env || isIOS env); simpl;
          (eexists; split; [rewrite <- ?(assoc_L app); reflexivity|]);
          repeat split; repeat constructor.
      * eexists; split; [rewrite <- ?(assoc_L app); reflexivity|].
        repeat split; repeat constructor.
    + destruct (isAndroid env || isIOS env); simpl;
        (eexists; split; [rewrite <- ?(assoc_L app); reflexivity|]);
        repeat split; repeat constructor.
    + eexists; split; [reflexivity|].
      repeat split; repeat constructor.
  - exists []. rewrite app_nil_r. repeat split; constructor.
Qed.

(** Whatever the store and the opener do: the calls of [executeQuickExit]
    that leave the app all find both session lists empty; and the lists
    are empty in the end if the method returned or made any such call. *)
Lemma executeQuickExit_any_store env w :
  exists calls,
    trace (snd (executeQuickExit env w)) = (trace w ++ calls)%list /\
    Forall (fun call => sessionListsEmpty call.2) calls /\
    (fst (executeQuickExit env w) = Ok tt \/ calls <> [] ->
     sessionListsEmpty (view (snd (executeQuickExit env w)))).
Proof.
  assert (hoare (fun w' => trace w' = trace w) (executeQuickExit env)
            (fun _ w' => exists calls,
               trace w' = (trace w ++ calls)%list /\
               Forall (fun call => sessionListsEmpty call.2) calls /\
               sessionListsEmpty (view w'))
            (fun _ w' => exists calls,
               trace w' = (trace w ++ calls)%list /\
               Forall (fun call => sessionListsEmpty call.2) calls /\
               (calls <> [] -> sessionListsEmpty (view w')))) as Hspec.
  { unfold executeQuickExit.
    eapply hoare_bind with (Q := fun _ w' => trace w' = trace w).
    { apply hoare_preserves; [by apply preserves_getQuickExitUrl|].
      intros e w' Hw'. exists []. rewrite app_nil_r. by repeat split. }
    intros url. eapply hoare_bind.
    { eapply hoare_conseq; [apply (clearSessionData_clears env (trace w))|..]; try done.
      intros e w' Hw'. exists []. rewrite app_nil_r. by repeat split. }
    intros ?. eapply hoare_conseq;
      [apply (navigation_sees_empty_lists env url (trace w))|..]; try done.
    intros e w' (calls & Htr & Hcalls & Hempty). exists calls.
    split; [done|]. split; [done|]. by intros _. }
  specialize (Hspec w eq_refl).
  destruct (executeQuickExit env w) as [[[]|e] w']; simpl.
  - destruct Hspec as (calls & Htr & Hcalls & Hempty). exists calls.
    split; [done|]. split; [done|]. by intros _.
  - destruct Hspec as (calls & Htr & Hcalls & Hempty). exists calls.
    split; [done|]. split; [done|]. intros [Hok|Hne]; [done|by apply Hempty].
Qed.

(** C1. For every state, store and opener, [executeQuickExit] makes no
    call that leaves the app (asking whether the URL can be opened,
    opening it, sending the app to the background) before both session
    lists are empty: every such call finds them empty; and when the
    method returns or has made any such call, also one that threw, both
    session lists are empty in the end.  With a store that works, the
    method always gets as far as the navigation: both session lists are
    empty afterwards whatever the opener does, the first call, when the
    URL parses, asks whether it can be opened, every call finds the store
    as it is in the end, and the two persisted lists are removed exactly
    when an incognito session was active or the persisted incognito
    setting was on at the call; otherwise the store is as it was. *)
Theorem executeQuickExit_clears_before_navigating env w :
  exists calls,
    trace (snd (executeQuickExit env w)) = (trace w ++ calls)%list /\
    Forall (fun call => sessionListsEmpty call.2) calls /\
    (fst (executeQuickExit env w) = Ok tt \/ calls <> [] ->
     sessionListsEmpty (view (snd (executeQuickExit env w)))) /\
    (storeWorks env -> wellTyped (store w) ->
     sessionListsEmpty (view (snd (executeQuickExit env w))) /\
     Forall (fun call => seenStore call.2 = store (snd (executeQuickExit env w))) calls /\
     (uriParses env (quickExitUrlOf w) = true ->
      exists v rest, calls = (CanLaunchUrl (quickExitUrlOf w), v) :: rest) /\
     store (snd (executeQuickExit env w)) =
       if _isIncognitoSession (service w) || incognitoSetting w
       then delete _searchHistoryKey (delete _recentProgramsKey (store w))
       else store w).
Proof.
  destruct (executeQuickExit_any_store env w) as (calls & Htr & Hcalls & Hempty).
  exists calls. split; [done|]. split; [done|]. split; [done|].
  intros Hworks Hty.
  destruct (executeQuickExit_calls_at_work env w Hworks Hty)
    as (calls' & Htr' & Hcalls' & Hfirst & Hr & Hs & Hstore).
  assert (calls' = calls) as -> by (apply (app_inv_head (trace w)); congruence).
  split; [by split|]. split; [|by split].
  eapply Forall_impl; [exact Hcalls'|]. by intros call [_ Hseen].
Qed.

Lemma executeQuickExit_clears_before_navigating_witness :
  storeWorks failingOpenerEnv /\ wellTyped (store incognitoWorld) /\
  fst (executeQuickExit failingOpenerEnv incognitoWorld) = Thrown LaunchFailed /\
  _sessionRecentPrograms (service incognitoWorld) = ["hotline"; "shelter-a"] /\
  sessionListsEmpty (view (snd (executeQuickExit failingOpenerEnv incognitoWorld))) /\
  store (snd (executeQuickExit failingOpenerEnv incognitoWorld)) !! _recentProgramsKey =
    None.
Proof.
  assert (wellTyped (store incognitoWorld)) as Hty by typed_store.
  split; [exact storeWorks_failingOpenerEnv|]. split; [exact Hty|].
  split; [by vm_compute|]. split; [reflexivity|].
  destruct (executeQuickExit_clears_before_navigating failingOpenerEnv incognitoWorld)
    as (calls & _ & _ & _ & Hworks).
  destruct (Hworks storeWorks_failingOpenerEnv Hty) as (Hempty & _ & _ & Hstore).
  split; [exact Hempty|]. rewrite Hstore. by vm_compute.
Defined.

(** * Further properties of the service, the provider and the widgets *)

(** ** Sensitive programs *)

Lemma contains_true l x : Dart.contains l x = true <-> x ∈ l.
Proof. unfold Dart.contains. apply bool_decide_eq_true. Qed.

(** X1. [isProgramSensitive] answers true exactly when the lower-cased
    category is one of the sensitive categories or the lower-cased text
    of some eligibility tag is one of the sensitive eligibility groups;
    a null category and a null or empty tag list contribute nothing. *)
Theorem isProgramSensitive_iff category eligibility :
  isProgramSensitive category eligibility = true <->
  (exists c, category = Some c /\ Dart.toLowerCase c ∈ sensitiveCategories) \/
  (exists tags tag,
     eligibility = Some tags /\ tag ∈ tags /\
     Dart.toLowerCase tag ∈ sensitiveEligibilities).
Proof.
  unfold isProgramSensitive. split.
  - destruct category as [c|].
    + destruct (Dart.contains sensitiveCategories (Dart.toLowerCase c)) eqn:Hc.
      * intros _. left. exists c. split; [done|]. by apply contains_true.
      * destruct eligibility as [tags|]; [|done]. intros Hex.
        apply existsb_exists in Hex as (tag & Hin & Htag).
        right. exists tags, tag. split; [done|].
        split; [by apply list_elem_of_In|by apply contains_true].
    + destruct eligibility as [tags|]; [|done]. intros Hex.
      apply existsb_exists in Hex as (tag & Hin & Htag).
      right. exists tags, tag. split; [done|].
      split; [by apply list_elem_of_In|by apply contains_true].
  - intros [(c & -> & Hc)|(tags & tag & -> & Hin & Htag)].
    + apply contains_true in Hc. by rewrite Hc.
    + assert (existsb
                (fun elig => Dart.contains sensitiveEligibilities (Dart.toLowerCase elig))
                tags = true) as Hex.
      { apply existsb_exists. exists tag.
        split; [by apply list_elem_of_In|by apply contains_true]. }
      rewrite Hex. by destruct category as [c|]; [destruct (Dart.contains _ _)|].
Qed.

Lemma existsb_lower (test : string -> bool) tags :
  existsb (fun elig => test (Dart.toLowerCase elig)) tags =
  existsb test (map Dart.toLowerCase tags).
Proof. induction tags as [|tag tags IH]; simpl; [done|]. by rewrite IH. Qed.

(** X2. [isProgramSensitive] does not look at the case of its inputs:
    two calls whose categories and whose tag lists agree after
    lower-casing give the same answer. *)
Theorem isProgramSensitive_ignores_case category eligibility category' eligibility' :
  Dart.toLowerCase <$> category = Dart.toLowerCase <$> category' ->
  map Dart.toLowerCase <$> eligibility = map Dart.toLowerCase <$> eligibility' ->
  isProgramSensitive category eligibility = isProgramSensitive category' eligibility'.
Proof.
  intros Hc He.
  assert (forall c e,
            isProgramSensitive c e =
            (if match Dart.toLowerCase <$> c with
                | Some lower => Dart.contains sensitiveCategories lower
                | None => false
                end
             then true
             else match map Dart.toLowerCase <$> e with
                  | Some lowered =>
                      existsb (Dart.contains sensitiveEligibilities) lowered
                  | None => false
                  end)) as Hshape.
  { intros [c|] [tags|]; unfold isProgramSensitive; simpl;
      by rewrite ?existsb_lower. }
  by rewrite !Hshape, Hc, He.
Qed.

Lemma isProgramSensitive_ignores_case_witness :
  isProgramSensitive (Some "Mental-Health") (Some ["Veterans"; "YOUTH"]) =
  isProgramSensitive (Some "MENTAL-HEALTH") (Some ["veterans"; "Youth"]).
Proof.
  apply (isProgramSensitive_ignores_case
           (Some "Mental-Health") (Some ["Veterans"; "YOUTH"])
           (Some "MENTAL-HEALTH") (Some ["veterans"; "Youth"]));
    reflexivity.
Defined.

(** ** Disguised app mode *)

Lemma firstWhere_found {A} (test : A -> bool) orElse l x :
  x ∈ l -> test x = true -> test (Dart.firstWhere test orElse l) = true.
Proof.
  induction l as [|y l IH]; intros Hin Hx; [by apply elem_of_nil in Hin|].
  simpl. destruct (test y) eqn:Hy; [done|].
  apply elem_of_cons in Hin as [->|Hin]; [congruence|by apply IH].
Qed.

Lemma firstWhere_missing {A} (test : A -> bool) orElse l :
  (forall x, x ∈ l -> test x = false) -> Dart.firstWhere test orElse l = orElse.
Proof.
  induction l as [|y l IH]; intros Hall; [done|]. simpl.
  rewrite (Hall y) by apply list_elem_of_here.
  apply IH. intros x Hx. by apply Hall, list_elem_of_further.
Qed.

Lemma firstWhere_elem_of {A} (test : A -> bool) orElse l :
  orElse ∈ l -> Dart.firstWhere test orElse l ∈ l.
Proof.
  intros Hin. induction l as [|y l IH]; [done|]. simpl.
  destruct (test y) eqn:Hy; [apply list_elem_of_here|].
  destruct (decide (Forall (fun x => test x = false) l)) as [Hnone|Hsome].
  - rewrite firstWhere_missing; [done|]. by apply Forall_forall.
  - apply not_Forall_Exists in Hsome; [|intros x; apply _].
    apply Exists_exists in Hsome as (x & Hx & Htest).
    apply list_elem_of_further.
    clear IH Hin Hy. induction l as [|z l IH]; [by apply elem_of_nil in Hx|].
    simpl. destruct (test z) eqn:Hz; [apply list_elem_of_here|].
    apply elem_of_cons in Hx as [->|Hx]; [done|].
    apply list_elem_of_further. by apply IH.
Qed.

(** X3. With the store at hand, [getCurrentDisguisedIcon] returns null
    when no icon id is stored; otherwise it returns an icon of the
    catalog: the one with the stored id when the catalog has it, and the
    first one, the calculator, for an id the catalog does not know. *)
Theorem getCurrentDisguisedIcon_resolves env w :
  available env w -> wellTyped (store w) ->
  exists current,
    fst (getCurrentDisguisedIcon env w) = Ok current /\
    match storedString (store w) _disguisedIconKey with
    | None => current = None
    | Some id =>
        exists icon,
          current = Some icon /\ icon ∈ disguisedIcons /\
          (id ∈ dai_id <$> disguisedIcons -> dai_id icon = id) /\
          (id ∉ dai_id <$> disguisedIcons -> icon = calculator)
    end.
Proof.
  intros Hav Hty. rewrite getCurrentDisguisedIcon_at_work by done.
  exists (iconOf w). split; [done|]. unfold iconOf.
  destruct (storedString (store w) _disguisedIconKey) as [id|]; [|done].
  eexists. split; [done|]. split; [|split].
  - apply firstWhere_elem_of. apply list_elem_of_here.
  - intros Hid. apply list_elem_of_fmap in Hid as (icon & -> & Hicon).
    assert (bool_decide
              (dai_id (Dart.firstWhere
                         (fun icon0 => bool_decide (dai_id icon0 = dai_id icon))
                         calculator disguisedIcons) = dai_id icon) = true) as Hfound.
    { apply (firstWhere_found
               (fun icon0 => bool_decide (dai_id icon0 = dai_id icon)) _ _ icon);
        [done|by apply bool_decide_eq_true]. }
    by apply bool_decide_eq_true in Hfound.
  - intros Hid. apply firstWhere_missing. intros icon Hicon.
    apply bool_decide_eq_false. intros <-. apply Hid.
    apply list_elem_of_fmap. by exists icon.
Qed.

Lemma getCurrentDisguisedIcon_resolves_witness :
  available workingEnv
    (withStore (insert _disguisedIconKey (PString "stopwatch")) installed) /\
  fst (getCurrentDisguisedIcon workingEnv
         (withStore (insert _disguisedIconKey (PString "stopwatch")) installed)) =
    Ok (Some calculator).
Proof.
  assert (available workingEnv
            (withStore (insert _disguisedIconKey (PString "stopwatch")) installed))
    as Hav by (by right).
  assert (wellTyped
            (store (withStore (insert _disguisedIconKey (PString "stopwatch")) installed)))
    as Hty by typed_store.
  split; [exact Hav|].
  destruct (getCurrentDisguisedIcon_resolves workingEnv _ Hav Hty)
    as (current & Hcurrent & Hicon).
  rewrite Hcurrent.
  assert (storedString
            (store (withStore (insert _disguisedIconKey (PString "stopwatch")) installed))
            _disguisedIconKey = Some "stopwatch") as Hid by reflexivity.
  rewrite Hid in Hicon. destruct Hicon as (icon & -> & _ & _ & Hunknown).
  rewrite Hunknown; [reflexivity|].
  apply (bool_decide_unpack _). by vm_compute.
Defined.

Ltac schema_member :=
  unfold schema;
  repeat first [apply list_elem_of_here | apply list_elem_of_further].

Lemma applyDisguisedIcon_at_work env iconId w :
  storeWorks env ->
  snd (applyDisguisedIcon env iconId w) =
    {| store := <[_disguisedModeKey:=PBool true]>
                  (<[_disguisedIconKey:=PString iconId]> (store w));
       service := set_prefs true (service w);
       trace := trace w |} /\
  exists result,
    fst (applyDisguisedIcon env iconId w) = Ok result /\
    success result = true /\ requiresRestart result = isAndroid env.
Proof.
  intros Hworks. unfold applyDisguisedIcon, setDisguisedIcon, setDisguisedModeEnabled.
  store_at_work Hworks. unfold isIOS, isAndroid.
  destruct (platform env); simpl; (split; [done|]); eexists; by repeat split.
Qed.

Lemma resetToDefaultIcon_at_work env w :
  storeWorks env ->
  snd (resetToDefaultIcon env w) =
    {| store := delete _disguisedIconKey
                  (<[_disguisedModeKey:=PBool false]> (store w));
       service := set_prefs true (service w);
       trace := trace w |} /\
  exists result,
    fst (resetToDefaultIcon env w) = Ok result /\
    success result = true /\ requiresRestart result = isAndroid env.
Proof.
  intros Hworks. unfold resetToDefaultIcon, setDisguisedModeEnabled.
  store_at_work Hworks. simpl. split; [done|]. eexists; by repeat split.
Qed.

Lemma disguisedIcons_first_by_id icon :
  icon ∈ disguisedIcons ->
  Dart.firstWhere (fun icon0 => bool_decide (dai_id icon0 = dai_id icon))
    calculator disguisedIcons = icon.
Proof.
  unfold disguisedIcons. intros Hin.
  repeat (apply elem_of_cons in Hin as [->|Hin]; [reflexivity|]).
  by apply elem_of_nil in Hin.
Qed.

(** X4. With a store that works, [applyDisguisedIcon] reports success,
    asks for a restart exactly on Android, and what it stored reads
    back: disguised mode is on, the icon id is the one given, and for an
    icon of the catalog [getCurrentDisguisedIcon] returns that icon. *)
Theorem applyDisguisedIcon_reads_back env icon w :
  storeWorks env -> wellTyped (store w) -> icon ∈ disguisedIcons ->
  (exists result,
     fst (applyDisguisedIcon env (dai_id icon) w) = Ok result /\
     success result = true /\ requiresRestart result = isAndroid env) /\
  fst (isDisguisedModeEnabled env (snd (applyDisguisedIcon env (dai_id icon) w))) =
    Ok true /\
  fst (getDisguisedIconId env (snd (applyDisguisedIcon env (dai_id icon) w))) =
    Ok (Some (dai_id icon)) /\
  fst (getCurrentDisguisedIcon env (snd (applyDisguisedIcon env (dai_id icon) w))) =
    Ok (Some icon).
Proof.
  intros Hworks Hty Hicon.
  destruct (applyDisguisedIcon_at_work env (dai_id icon) w Hworks) as [Hworld Hresult].
  split; [exact Hresult|]. rewrite Hworld.
  set (w' := {| store := _; service := _; trace := _ |}).
  assert (available env w') as Hav by (by apply storeWorks_available).
  assert (wellTyped (store w')) as Hty'.
  { subst w'. simpl.
    apply (wellTyped_insert _ _ TBool); [schema_member|done|].
    apply (wellTyped_insert _ _ TString); [schema_member|done|done]. }
  split; [|split].
  - unfold isDisguisedModeEnabled.
    rewrite boolGetter_at_work by (done || schema_member).
    subst w'. unfold storedBool. simpl. by rewrite lookup_insert_eq.
  - unfold getDisguisedIconId, bind.
    rewrite preferences_available by done.
    rewrite getString_typed by (done || schema_member).
    subst w'. unfold storedString. simpl.
    rewrite lookup_insert_ne by done. by rewrite lookup_insert_eq.
  - rewrite getCurrentDisguisedIcon_at_work by done. unfold iconOf.
    assert (storedString (store w') _disguisedIconKey = Some (dai_id icon)) as ->.
    { subst w'. unfold storedString. cbn [store].
      rewrite lookup_insert_ne by done. by rewrite lookup_insert_eq. }
    by rewrite disguisedIcons_first_by_id.
Qed.

Lemma applyDisguisedIcon_reads_back_witness :
  storeWorks workingEnv /\ wellTyped (store browsedWorld) /\
  calculator ∈ disguisedIcons /\
  fst (getCurrentDisguisedIcon workingEnv
         (snd (applyDisguisedIcon workingEnv (dai_id calculator) browsedWorld))) =
    Ok (Some calculator).
Proof.
  assert (wellTyped (store browsedWorld)) as Hty by typed_store.
  assert (calculator ∈ disguisedIcons) as Hicon by apply list_elem_of_here.
  split; [exact storeWorks_workingEnv|]. split; [exact Hty|]. split; [exact Hicon|].
  apply (applyDisguisedIcon_reads_back workingEnv calculator browsedWorld
           storeWorks_workingEnv Hty Hicon).
Defined.

(** X5. With a store that works, [resetToDefaultIcon] undoes
    [applyDisguisedIcon]: it reports success, asks for a restart exactly
    on Android, and afterwards disguised mode reads off, no icon id is
    stored and [getCurrentDisguisedIcon] returns null, whatever was
    applied before. *)
Theorem resetToDefaultIcon_undoes_apply env iconId w :
  storeWorks env -> wellTyped (store w) ->
  (exists result,
     fst (resetToDefaultIcon env (snd (applyDisguisedIcon env iconId w))) = Ok result /\
     success result = true /\ requiresRestart result = isAndroid env) /\
  fst (isDisguisedModeEnabled env
         (snd (resetToDefaultIcon env (snd (applyDisguisedIcon env iconId w))))) =
    Ok false /\
  fst (getDisguisedIconId env
         (snd (resetToDefaultIcon env (snd (applyDisguisedIcon env iconId w))))) =
    Ok None /\
  fst (getCurrentDisguisedIcon env
         (snd (resetToDefaultIcon env (snd (applyDisguisedIcon env iconId w))))) =
    Ok None.
Proof.
  intros Hworks Hty.
  destruct (applyDisguisedIcon_at_work env iconId w Hworks) as [Hworld _].
  rewrite Hworld.
  set (w1 := {| store := _; service := _; trace := _ |}).
  destruct (resetToDefaultIcon_at_work env w1 Hworks) as [Hworld' Hresult].
  split; [exact Hresult|]. rewrite Hworld'.
  set (w2 := {| store := _; service := _; trace := _ |}).
  assert (available env w2) as Hav by (by apply storeWorks_available).
  assert (wellTyped (store w2)) as Hty'.
  { subst w2 w1. simpl. apply wellTyped_delete.
    apply (wellTyped_insert _ _ TBool); [schema_member|done|].
    apply (wellTyped_insert _ _ TBool); [schema_member|done|].
    apply (wellTyped_insert _ _ TString); [schema_member|done|done]. }
  split; [|split].
  - unfold isDisguisedModeEnabled.
    rewrite boolGetter_at_work by (done || schema_member).
    subst w2 w1. unfold storedBool. simpl.
    rewrite lookup_delete_ne by done. by rewrite lookup_insert_eq.
  - unfold getDisguisedIconId, bind.
    rewrite preferences_available by done.
    rewrite getString_typed by (done || schema_member).
    subst w2 w1. unfold storedString. simpl. by rewrite lookup_delete_eq.
  - rewrite getCurrentDisguisedIcon_at_work by done. unfold iconOf.
    subst w2 w1. unfold storedString. simpl. by rewrite lookup_delete_eq.
Qed.

Lemma resetToDefaultIcon_undoes_apply_witness :
  storeWorks workingEnv /\ wellTyped (store browsedWorld) /\
  fst (getCurrentDisguisedIcon workingEnv
         (snd (resetToDefaultIcon workingEnv
                 (snd (applyDisguisedIcon workingEnv "notes" browsedWorld))))) =
    Ok None.
Proof.
  assert (wellTyped (store browsedWorld)) as Hty by typed_store.
  split; [exact storeWorks_workingEnv|]. split; [exact Hty|].
  apply (resetToDefaultIcon_undoes_apply workingEnv "notes" browsedWorld
           storeWorks_workingEnv Hty).
Defined.

Lemma disguise_success_cases env iconId w :
  (forall result,
     fst (applyDisguisedIcon env iconId w) = Ok result ->
     (success result = true <->
      available env w /\
      writeOutcome env _disguisedIconKey <> WriteThrows /\
      writeOutcome env _disguisedModeKey <> WriteThrows)) /\
  (forall result,
     fst (resetToDefaultIcon env w) = Ok result ->
     (success result = true <->
      available env w /\
      writeOutcome env _disguisedModeKey <> WriteThrows /\
      writeOutcome env _disguisedIconKey <> WriteThrows)).
Proof.
  unfold available, applyDisguisedIcon, resetToDefaultIcon, setDisguisedIcon,
    setDisguisedModeEnabled.
  unfold_monad. unfold_prefs. unfold _preferences, isIOS, isAndroid.
  split; intros result;
    destruct (_prefs (service w)) eqn:Hp; simpl; rewrite ?Hp;
    destruct (getInstanceFails env) eqn:Hf; simpl;
    destruct (writeOutcome env _disguisedIconKey) eqn:Hi; simpl; rewrite ?Hp; simpl;
    destruct (writeOutcome env _disguisedModeKey) eqn:Hm; simpl; rewrite ?Hp, ?Hi; simpl;
    destruct (platform env); simpl; intros [= <-]; simpl;
    split; try done; try (by intros _; repeat split; auto);
    try (by intros ([?|?] & ? & ?)).
Qed.

(** X6. [applyDisguisedIcon] and [resetToDefaultIcon] always return a
    result, and it reports success exactly when no call to the store
    threw: the instance was at hand and neither of their two writes
    threw.  A write that answered false does not count: the result
    still reports success. *)
Theorem disguise_success_iff_nothing_threw env iconId w :
  (exists result,
     fst (applyDisguisedIcon env iconId w) = Ok result /\
     (success result = true <->
      available env w /\
      writeOutcome env _disguisedIconKey <> WriteThrows /\
      writeOutcome env _disguisedModeKey <> WriteThrows)) /\
  (exists result,
     fst (resetToDefaultIcon env w) = Ok result /\
     (success result = true <->
      available env w /\
      writeOutcome env _disguisedModeKey <> WriteThrows /\
      writeOutcome env _disguisedIconKey <> WriteThrows)).
Proof.
  destruct (disguise_success_cases env iconId w) as [Happly Hreset].
  destruct (applyDisguisedIcon_never_throws env iconId w) as (result & Hr & _).
  destruct (resetToDefaultIcon_never_throws env w) as (result' & Hr' & _).
  split; [exists result|exists result']; auto.
Qed.

(** ** What the methods leave alone *)

(** X7. Whatever the store and the opener do, and however the method
    ends, a method changes no setting other than those its code writes:
    a key that is neither one of the two history lists nor among the
    writes of the method holds afterwards what it held before.  So the
    quick exit, the clearing of history and the history methods, which
    write the two history keys only, never alter a setting. *)
Theorem command_leaves_other_keys env c w key :
  key <> _recentProgramsKey -> key <> _searchHistoryKey ->
  key ∉ (writes c).*1 ->
  store (step env c w) !! key = store w !! key.
Proof.
  intros Hr Hs Hkey. apply (holds_step env c w key); try done.
  intros key' v' Hin ->. apply Hkey.
  apply list_elem_of_fmap. by exists (key, v').
Qed.

Lemma command_leaves_other_keys_witness :
  store (step failingOpenerEnv ExecuteQuickExit
           (withStore (insert _quickExitEnabledKey (PBool true)) incognitoWorld))
    !! _quickExitEnabledKey = Some (PBool true).
Proof.
  rewrite (command_leaves_other_keys failingOpenerEnv ExecuteQuickExit
             (withStore (insert _quickExitEnabledKey (PBool true)) incognitoWorld)
             _quickExitEnabledKey).
  - reflexivity.
  - done.
  - done.
  - apply (bool_decide_unpack _). by vm_compute.
Defined.

(** X8. In every state the app can reach from installation, whatever
    the store, the opener and the connectivity plugin did on the way and
    however the methods ended, each key of the service holds a value of
    its type, the two session lists hold pairwise different entries and
    at most ten, and the two persisted lists hold pairwise different
    entries and at most twenty. *)
Theorem reachable_histories_within_caps w :
  Reachable w ->
  wellTyped (store w) /\
  (NoDup (_sessionRecentPrograms (service w)) /\
   length (_sessionRecentPrograms (service w)) <= 10) /\
  (NoDup (_sessionSearchHistory (service w)) /\
   length (_sessionSearchHistory (service w)) <= 10) /\
  (NoDup (storedList (store w) _recentProgramsKey) /\
   length (storedList (store w) _recentProgramsKey) <= 20) /\
  (NoDup (storedList (store w) _searchHistoryKey) /\
   length (storedList (store w) _searchHistoryKey) <= 20).
Proof. intros Hw. exact (Reachable_Inv w Hw). Qed.

Lemma reachable_histories_within_caps_witness :
  Reachable (step writeRejectsEnv (AddRecentProgram "calfresh")
               (step workingEnv (AddRecentProgram "calfresh") installed)) /\
  NoDup (storedList
           (store (step writeRejectsEnv (AddRecentProgram "calfresh")
                     (step workingEnv (AddRecentProgram "calfresh") installed)))
           _recentProgramsKey).
Proof.
  assert (Reachable (step writeRejectsEnv (AddRecentProgram "calfresh")
                       (step workingEnv (AddRecentProgram "calfresh") installed)))
    as Hreach by (repeat constructor).
  split; [exact Hreach|].
  apply (reachable_histories_within_caps _ Hreach).
Defined.

(** ** The session flag *)

Lemma preserves_write (I : World -> Prop) env key f :
  (forall w, I w -> I (withStore f w)) -> preserves I (write env key f).
Proof.
  intros HI w Hw. unfold write. destruct (writeOutcome env key); auto.
Qed.

Lemma flag_preferences b env : preserves (flagIs b) (_preferences env).
Proof.
  intros w Hw. unfold _preferences.
  destruct (_prefs (service w)); [done|].
  by destruct (getInstanceFails env).
Qed.

Ltac flag_frame_step :=
  lazymatch goal with
  | |- preserves _ (bind _ _) => apply preserves_bind; [|intros ?]
  | |- preserves _ (ret _) => apply preserves_ret
  | |- preserves _ (throw _) => apply preserves_throw
  | |- preserves _ (gets _) => apply preserves_gets
  | |- preserves _ (orRangeError _) => apply preserves_orRangeError
  | |- preserves _ (getBool _) => apply preserves_getBool
  | |- preserves _ (getString _) => apply preserves_getString
  | |- preserves _ (getStringList _) => apply preserves_getStringList
  | |- preserves _ (discard _) => apply preserves_discard
  | |- preserves _ (tryCatch _ _) => apply preserves_tryCatch; [|intros ?]
  | |- preserves _ (_preferences _) => apply flag_preferences
  | |- preserves _ (write _ _ _) => apply preserves_write; by intros ? ?
  | |- preserves _ (modify _) => apply preserves_modify; by intros ? ?
  | |- preserves _ (if ?b then _ else _) => destruct b
  | |- preserves _ (match ?o with Some _ => _ | None => _ end) => destruct o
  end.

(** The methods whose code does not assign the session flag leave it as
    it is, however they end. *)
Lemma command_keeps_flag env c b :
  assignsFlag c = false -> preserves (flagIs b) (command env c).
Proof.
  intros Hc. destruct c; try discriminate; unfold_service;
    unfold uriParse, canLaunchUrl, launchUrl, getNetworkPrivacyStatus,
      checkConnectivity, emit, setBool, setString, setStringList, remove;
    repeat flag_frame_step.
Qed.

(** X12. The session flag of the service changes only through
    [setIncognitoModeEnabled], [startIncognitoSession],
    [endIncognitoSession] and a restart of the process: every other
    method leaves it as it was, whatever the collaborators do and also
    when the method throws; the quick exit in particular does not end an
    incognito session. *)
Theorem only_session_methods_change_flag env c w :
  assignsFlag c = false ->
  _isIncognitoSession (service (step env c w)) = _isIncognitoSession (service w).
Proof.
  intros Hc. unfold step.
  apply (preserves_final (flagIs (_isIncognitoSession (service w)))); [|done].
  by apply command_keeps_flag.
Qed.

Lemma only_session_methods_change_flag_witness :
  assignsFlag ExecuteQuickExit = false /\
  _isIncognitoSession (service (step noStoreEnv ExecuteQuickExit incognitoWorld)) = true.
Proof.
  split; [reflexivity|].
  apply (only_session_methods_change_flag noStoreEnv ExecuteQuickExit incognitoWorld).
  reflexivity.
Defined.

(** X13. With a store that works, a session always starts empty:
    whenever a method turns the session flag on, both session lists are
    empty afterwards, also when entries of an earlier session were still
    in memory. *)
Theorem session_starts_empty env c w :
  storeWorks env ->
  _isIncognitoSession (service w) = false ->
  _isIncognitoSession (service (step env c w)) = true ->
  _sessionRecentPrograms (service (step env c w)) = [] /\
  _sessionSearchHistory (service (step env c w)) = [].
Proof.
  intros Hworks Hoff Hon.
  destruct (assignsFlag c) eqn:Hc.
  - destruct c; try discriminate; unfold step, command in *.
    + rewrite setIncognitoModeEnabled_at_work in * by done. simpl in *.
      by subst enabled.
    + done.
  - pose proof (preserves_final _ _ w (command_keeps_flag env c false Hc) Hoff) as Hkept.
    unfold flagIs, step in *. congruence.
Qed.

Lemma session_starts_empty_witness :
  storeWorks workingEnv /\
  _sessionRecentPrograms
    (service (step workingEnv (SetIncognitoModeEnabled false) incognitoWorld)) =
    ["hotline"; "shelter-a"] /\
  _sessionRecentPrograms
    (service (step workingEnv (SetIncognitoModeEnabled true)
                (step workingEnv (SetIncognitoModeEnabled false) incognitoWorld))) = [].
Proof.
  split; [exact storeWorks_workingEnv|]. split; [reflexivity|].
  apply (session_starts_empty workingEnv (SetIncognitoModeEnabled true)
           (step workingEnv (SetIncognitoModeEnabled false) incognitoWorld)
           storeWorks_workingEnv); reflexivity.
Defined.

(** ** The persisted history, outside a session *)

Lemma persistedAdd_take x l :
  length l <= 20 -> persistedAdd x l = Some (take 20 (x :: Dart.remove x l)).
Proof.
  intros Hlen. unfold persistedAdd, Dart.insert0.
  pose proof (remove_length x l) as Hrl.
  destruct (Nat.ltb_spec 20 (length (x :: Dart.remove x l))) as [Hbig|Hsmall].
  - rewrite removeLast_cons. cbn [length] in Hbig.
    by replace (length (Dart.remove x l)) with 20 by lia.
  - by rewrite take_ge.
Qed.

Lemma getRecentPrograms_persisted env w :
  available env w -> wellTyped (store w) ->
  _isIncognitoSession (service w) = false ->
  getRecentPrograms env w =
    (Ok (storedList (store w) _recentProgramsKey), withService (set_prefs true) w).
Proof.
  intros Hav Hty Hinc. unfold getRecentPrograms.
  unfold bind at 1, gets. rewrite Hinc. unfold bind at 1.
  rewrite preferences_available by done.
  by rewrite (getStringList_bind _recentProgramsKey (fun l => ret l))
    by (done || schema_member).
Qed.

Lemma getSearchHistory_persisted env w :
  available env w -> wellTyped (store w) ->
  _isIncognitoSession (service w) = false ->
  getSearchHistory env w =
    (Ok (storedList (store w) _searchHistoryKey), withService (set_prefs true) w).
Proof.
  intros Hav Hty Hinc. unfold getSearchHistory.
  unfold bind at 1, gets. rewrite Hinc. unfold bind at 1.
  rewrite preferences_available by done.
  by rewrite (getStringList_bind _searchHistoryKey (fun l => ret l))
    by (done || schema_member).
Qed.

Lemma addRecentProgram_persisted env x w :
  storeWorks env -> wellTyped (store w) ->
  _isIncognitoSession (service w) = false ->
  length (storedList (store w) _recentProgramsKey) <= 20 ->
  addRecentProgram env x w =
    (Ok tt,
     withStore
       (insert _recentProgramsKey
          (PStringList (take 20 (x :: Dart.remove x
                                        (storedList (store w) _recentProgramsKey)))))
       (withService (set_prefs true) w)).
Proof.
  intros Hworks Hty Hinc Hlen. unfold addRecentProgram.
  unfold bind at 1, gets. rewrite Hinc. unfold bind at 1.
  rewrite preferences_available by (by apply storeWorks_available).
  rewrite (getStringList_bind _recentProgramsKey
             (fun l => do recent <- orRangeError (persistedAdd x l);
                       run setStringList env _recentProgramsKey recent; ret tt))
    by (done || schema_member).
  change (store (withService (set_prefs true) w)) with (store w).
  rewrite persistedAdd_take by done. by store_at_work Hworks.
Qed.

Lemma addSearchQuery_persisted env x w :
  storeWorks env -> wellTyped (store w) ->
  _isIncognitoSession (service w) = false ->
  length (storedList (store w) _searchHistoryKey) <= 20 ->
  addSearchQuery env x w =
    (Ok tt,
     withStore
       (insert _searchHistoryKey
          (PStringList (take 20 (x :: Dart.remove x
                                        (storedList (store w) _searchHistoryKey)))))
       (withService (set_prefs true) w)).
Proof.
  intros Hworks Hty Hinc Hlen. unfold addSearchQuery.
  unfold bind at 1, gets. rewrite Hinc. unfold bind at 1.
  rewrite preferences_available by (by apply storeWorks_available).
  rewrite (getStringList_bind _searchHistoryKey
             (fun l => do history <- orRangeError (persistedAdd x l);
                       run setStringList env _searchHistoryKey history; ret tt))
    by (done || schema_member).
  change (store (withService (set_prefs true) w)) with (store w).
  rewrite persistedAdd_take by done. by store_at_work Hworks.
Qed.

(** X9. Outside a session and with a store that works, the persisted
    history is most recent first: if the getter returned [old], of at
    most twenty entries, then after adding [x] it returns [x], followed
    by [old] without [x] in its former order, cut after twenty entries,
    so that the oldest entry of a full list is dropped.  This holds of
    [addRecentProgram] with [getRecentPrograms] and of [addSearchQuery]
    with [getSearchHistory], and the additions return normally. *)
Theorem persisted_history_most_recent_first env x w :
  storeWorks env -> wellTyped (store w) ->
  _isIncognitoSession (service w) = false ->
  (forall old,
     fst (getRecentPrograms env w) = Ok old -> length old <= 20 ->
     fst (addRecentProgram env x w) = Ok tt /\
     fst (getRecentPrograms env (step env (AddRecentProgram x) w)) =
       Ok (take 20 (x :: Dart.remove x old))) /\
  (forall old,
     fst (getSearchHistory env w) = Ok old -> length old <= 20 ->
     fst (addSearchQuery env x w) = Ok tt /\
     fst (getSearchHistory env (step env (AddSearchQuery x) w)) =
       Ok (take 20 (x :: Dart.remove x old))).
Proof.
  intros Hworks Hty Hinc.
  pose proof (storeWorks_available env w Hworks) as Hav.
  split; intros old Hold Hlen.
  - rewrite getRecentPrograms_persisted in Hold by done.
    injection Hold as <-. unfold step, command.
    rewrite addRecentProgram_persisted by done. split; [done|].
    rewrite getRecentPrograms_persisted; cbn [fst snd];
      [|by left|by eapply wellTyped_insert; [schema_member|..]|done].
    simpl. by rewrite storedList_insert_eq.
  - rewrite getSearchHistory_persisted in Hold by done.
    injection Hold as <-. unfold step, command.
    rewrite addSearchQuery_persisted by done. split; [done|].
    rewrite getSearchHistory_persisted; cbn [fst snd];
      [|by left|by eapply wellTyped_insert; [schema_member|..]|done].
    simpl. by rewrite storedList_insert_eq.
Qed.

Lemma persisted_history_most_recent_first_witness :
  storeWorks workingEnv /\
  fst (getRecentPrograms workingEnv fullWorld) =
    Ok ["p01"; "p02"; "p03"; "p04"; "p05"; "p06"; "p07"; "p08"; "p09"; "p10";
        "p11"; "p12"; "p13"; "p14"; "p15"; "p16"; "p17"; "p18"; "p19"; "p20"] /\
  fst (getRecentPrograms workingEnv
         (step workingEnv (AddRecentProgram "p07") fullWorld)) =
    Ok ["p07"; "p01"; "p02"; "p03"; "p04"; "p05"; "p06"; "p08"; "p09"; "p10";
        "p11"; "p12"; "p13"; "p14"; "p15"; "p16"; "p17"; "p18"; "p19"; "p20"] /\
  fst (getRecentPrograms workingEnv
         (step workingEnv (AddRecentProgram "p21") fullWorld)) =
    Ok ["p21"; "p01"; "p02"; "p03"; "p04"; "p05"; "p06"; "p07"; "p08"; "p09";
        "p10"; "p11"; "p12"; "p13"; "p14"; "p15"; "p16"; "p17"; "p18"; "p19"].
Proof.
  assert (wellTyped (store fullWorld)) as Hty by typed_store.
  split; [exact storeWorks_workingEnv|]. split; [reflexivity|].
  split.
  - apply (proj1 (persisted_history_most_recent_first workingEnv "p07" fullWorld
                    storeWorks_workingEnv Hty eq_refl)
             ["p01"; "p02"; "p03"; "p04"; "p05"; "p06"; "p07"; "p08"; "p09"; "p10";
              "p11"; "p12"; "p13"; "p14"; "p15"; "p16"; "p17"; "p18"; "p19"; "p20"]);
      [reflexivity|simpl; lia].
  - apply (proj1 (persisted_history_most_recent_first workingEnv "p21" fullWorld
                    storeWorks_workingEnv Hty eq_refl)
             ["p01"; "p02"; "p03"; "p04"; "p05"; "p06"; "p07"; "p08"; "p09"; "p10";
              "p11"; "p12"; "p13"; "p14"; "p15"; "p16"; "p17"; "p18"; "p19"; "p20"]);
      [reflexivity|simpl; lia].
Defined.

(** ** The session history *)

Lemma sessionAdd_take x l :
  length l <= 10 ->
  sessionAdd x l = Some (if bool_decide (x ∈ l) then l else take 10 (x :: l)).
Proof.
  intros Hlen. unfold sessionAdd, Dart.contains, Dart.insert0.
  destruct (bool_decide (x ∈ l)); cbn [negb]; [done|].
  destruct (Nat.ltb_spec 10 (length (x :: l))) as [Hbig|Hsmall].
  - rewrite removeLast_cons. cbn [length] in Hbig.
    by replace (length l) with 10 by lia.
  - by rewrite take_ge.
Qed.

(** X10. Inside a session, whatever the store does: if the getter
    returned [old], of at most ten entries, then after adding an entry
    that [old] holds it returns [old] again, and after adding a new entry
    [x] it returns [x] followed by [old], cut after ten entries, so that
    the oldest entry of a full session list is dropped. *)
Theorem session_history_caps_at_ten env x w :
  _isIncognitoSession (service w) = true ->
  (forall old,
     fst (getRecentPrograms env w) = Ok old -> length old <= 10 ->
     fst (getRecentPrograms env (step env (AddRecentProgram x) w)) =
       Ok (if bool_decide (x ∈ old) then old else take 10 (x :: old))) /\
  (forall old,
     fst (getSearchHistory env w) = Ok old -> length old <= 10 ->
     fst (getSearchHistory env (step env (AddSearchQuery x) w)) =
       Ok (if bool_decide (x ∈ old) then old else take 10 (x :: old))).
Proof.
  intros Hinc. split; intros old Hold Hlen.
  - rewrite getRecentPrograms_in_session in Hold by done.
    injection Hold as <-. unfold step, command.
    rewrite addRecentProgram_in_session by done.
    rewrite getRecentPrograms_in_session by done.
    cbn [fst snd]. simpl. by rewrite sessionAdd_take.
  - rewrite getSearchHistory_in_session in Hold by done.
    injection Hold as <-. unfold step, command.
    rewrite addSearchQuery_in_session by done.
    rewrite getSearchHistory_in_session by done.
    cbn [fst snd]. simpl. by rewrite sessionAdd_take.
Qed.

Lemma session_history_caps_at_ten_witness :
  fst (getRecentPrograms noStoreEnv
         (exec noStoreEnv
            [StartIncognitoSession;
             AddRecentProgram "s01"; AddRecentProgram "s02"; AddRecentProgram "s03";
             AddRecentProgram "s04"; AddRecentProgram "s05"; AddRecentProgram "s06";
             AddRecentProgram "s07"; AddRecentProgram "s08"; AddRecentProgram "s09";
             AddRecentProgram "s10"] installed)) =
    Ok ["s10"; "s09"; "s08"; "s07"; "s06"; "s05"; "s04"; "s03"; "s02"; "s01"] /\
  fst (getRecentPrograms noStoreEnv
         (step noStoreEnv (AddRecentProgram "s11")
            (exec noStoreEnv
               [StartIncognitoSession;
                AddRecentProgram "s01"; AddRecentProgram "s02"; AddRecentProgram "s03";
                AddRecentProgram "s04"; AddRecentProgram "s05"; AddRecentProgram "s06";
                AddRecentProgram "s07"; AddRecentProgram "s08"; AddRecentProgram "s09";
                AddRecentProgram "s10"] installed))) =
    Ok ["s11"; "s10"; "s09"; "s08"; "s07"; "s06"; "s05"; "s04"; "s03"; "s02"].
Proof.
  split; [reflexivity|].
  apply (proj1 (session_history_caps_at_ten noStoreEnv "s11"
                  (exec noStoreEnv
                     [StartIncognitoSession;
                      AddRecentProgram "s01"; AddRecentProgram "s02";
                      AddRecentProgram "s03"; AddRecentProgram "s04";
                      AddRecentProgram "s05"; AddRecentProgram "s06";
                      AddRecentProgram "s07"; AddRecentProgram "s08";
                      AddRecentProgram "s09"; AddRecentProgram "s10"] installed)
                  eq_refl)
           ["s10"; "s09"; "s08"; "s07"; "s06"; "s05"; "s04"; "s03"; "s02"; "s01"]);
    [reflexivity|simpl; lia].
Defined.

(** X11. A temporary session leaves no trace: when no session is active,
    after [startIncognitoSession()], any additions and
    [endIncognitoSession()], whatever the store does, the store is as
    before, the session flag is off, both session lists are empty, and
    [getRecentPrograms] and [getSearchHistory] answer what they answered
    before the session. *)
Theorem temporary_session_leaves_no_trace env adds w :
  _isIncognitoSession (service w) = false ->
  store (snd (endIncognitoSession (sessionWorld env w adds))) = store w /\
  service (snd (endIncognitoSession (sessionWorld env w adds))) =
    {| _prefs := _prefs (service w); _isIncognitoSession := false;
       _sessionRecentPrograms := []; _sessionSearchHistory := [] |} /\
  fst (getRecentPrograms env (snd (endIncognitoSession (sessionWorld env w adds)))) =
    fst (getRecentPrograms env w) /\
  fst (getSearchHistory env (snd (endIncognitoSession (sessionWorld env w adds)))) =
    fst (getSearchHistory env w).
Proof.
  intros Hinc. rewrite sessionWorld_eq.
  destruct w as [σ [p i r s] t]. simpl in Hinc. subst i.
  repeat split.
  - unfold getRecentPrograms, _preferences, getStringList. unfold_monad. simpl.
    destruct p; simpl; [|destruct (getInstanceFails env); simpl]; try done;
      by destruct (σ !! _) as [[]|].
  - unfold getSearchHistory, _preferences, getStringList. unfold_monad. simpl.
    destruct p; simpl; [|destruct (getInstanceFails env); simpl]; try done;
      by destruct (σ !! _) as [[]|].
Qed.

Lemma temporary_session_leaves_no_trace_witness :
  fst (getRecentPrograms workingEnv
         (snd (endIncognitoSession
                 (sessionWorld workingEnv browsedWorld
                    [Program "hotline"; Query "restraining order"])))) =
    Ok ["calfresh"; "medi-cal"].
Proof.
  rewrite (proj1 (proj2 (proj2
             (temporary_session_leaves_no_trace workingEnv
                [Program "hotline"; Query "restraining order"] browsedWorld
                eq_refl)))).
  reflexivity.
Defined.

(** ** Settings *)

(** X14. With a store that works, a setting reads back as it was set:
    each of [setQuickExitEnabled], [setIncognitoModeEnabled],
    [setShowSafetyTips], [setNetworkWarningsEnabled],
    [setDisguisedModeEnabled] and [setDisguisedIcon] returns normally and
    is followed by its getter returning the value set, whatever the
    store held before. *)
Theorem settings_read_back env w :
  storeWorks env ->
  (forall b, fst (setQuickExitEnabled env b w) = Ok tt /\
     fst (isQuickExitEnabled env (step env (SetQuickExitEnabled b) w)) = Ok b) /\
  (forall b, fst (setIncognitoModeEnabled env b w) = Ok tt /\
     fst (isIncognitoModeEnabled env (step env (SetIncognitoModeEnabled b) w)) = Ok b) /\
  (forall b, fst (setShowSafetyTips env b w) = Ok tt /\
     fst (shouldShowSafetyTips env (step env (SetShowSafetyTips b) w)) = Ok b) /\
  (forall b, fst (setNetworkWarningsEnabled env b w) = Ok tt /\
     fst (isNetworkWarningsEnabled env (step env (SetNetworkWarningsEnabled b) w)) = Ok b) /\
  (forall b, fst (setDisguisedModeEnabled env b w) = Ok tt /\
     fst (isDisguisedModeEnabled env (step env (SetDisguisedModeEnabled b) w)) = Ok b) /\
  (forall iconId, fst (setDisguisedIcon env iconId w) = Ok tt /\
     fst (getDisguisedIconId env (step env (SetDisguisedIcon iconId) w)) = Ok (Some iconId)).
Proof.
  intros Hworks.
  assert (forall b,
            fst (setIncognitoModeEnabled env b w) = Ok tt /\
            fst (isIncognitoModeEnabled env
                   (step env (SetIncognitoModeEnabled b) w)) = Ok b) as Hincognito.
  { intros b. unfold step, command.
    rewrite setIncognitoModeEnabled_at_work by done. split; [done|].
    unfold isIncognitoModeEnabled, _preferences, getBool. unfold_monad. simpl.
    destruct b; rewrite ?lookup_delete_ne by done; by rewrite lookup_insert_eq. }
  split; [|split; [exact Hincognito|]]; clear Hincognito;
    repeat split; unfold step; unfold_service;
    store_at_work Hworks; simpl; rewrite ?lookup_insert_eq; try done.
Qed.

Lemma settings_read_back_witness :
  storeWorks workingEnv /\
  fst (shouldShowSafetyTips workingEnv
         (step workingEnv (SetShowSafetyTips false) installed)) = Ok false.
Proof.
  split; [exact storeWorks_workingEnv|].
  exact (proj2 (proj1 (proj2 (proj2
           (settings_read_back workingEnv installed storeWorks_workingEnv))) false)).
Defined.

(** X15. With a store that works, [clearAllHistory] returns normally and
    afterwards both history getters return the empty list, in a session
    and outside one, whatever the store held before; the session flag is
    as it was. *)
Theorem clearAllHistory_empties_both_histories env w :
  storeWorks env ->
  fst (clearAllHistory env w) = Ok tt /\
  fst (getRecentPrograms env (step env ClearAllHistory w)) = Ok [] /\
  fst (getSearchHistory env (step env ClearAllHistory w)) = Ok [] /\
  _isIncognitoSession (service (step env ClearAllHistory w)) =
    _isIncognitoSession (service w).
Proof.
  intros Hworks. unfold step, command. rewrite clearAllHistory_at_work by done.
  cbn [fst snd]. split; [done|].
  destruct (_isIncognitoSession (service w)) eqn:Hinc.
  - rewrite getRecentPrograms_in_session, getSearchHistory_in_session by done.
    done.
  - unfold getRecentPrograms, getSearchHistory, _preferences, getStringList.
    unfold_monad. simpl.
    rewrite lookup_delete_ne by done.
    by rewrite !lookup_delete_eq.
Qed.

Lemma clearAllHistory_empties_both_histories_witness :
  storeWorks workingEnv /\
  fst (getRecentPrograms workingEnv browsedWorld) = Ok ["calfresh"; "medi-cal"] /\
  fst (getRecentPrograms workingEnv (step workingEnv ClearAllHistory browsedWorld)) =
    Ok [].
Proof.
  split; [exact storeWorks_workingEnv|]. split; [reflexivity|].
  exact (proj1 (proj2 (clearAllHistory_empties_both_histories workingEnv browsedWorld
                         storeWorks_workingEnv))).
Defined.

(** ** The quick exit *)

Ltac navigation_cases :=
  repeat match goal with
         | |- _ /\ _ => split
         | |- _ <-> _ => split
         | |- forall _, _ => intro
         | H : _ /\ _ |- _ => destruct H
         | H : _ \/ _ |- _ => destruct H
         | H : exists _, _ |- _ => destruct H
         | H : False |- _ => destruct H
         | H : _ ∈ _ |- _ => progress rewrite ?elem_of_cons, ?elem_of_nil in H
         | |- _ ∈ _ => progress rewrite ?elem_of_cons, ?elem_of_nil
         end;
  simplify_eq; try done; try congruence; eauto 7;
  try (eexists; split; [reflexivity|]; by eauto).

(** X16. With a store that works, the navigation of [executeQuickExit]
    goes as follows.  The method returns normally exactly when the
    stored URL parses, the question whether it can be opened is
    answered, and, if the answer is yes, the opening does not throw; an
    opening that answers [false] is not an error.  The app is closed
    exactly when the method returns and the platform is Android or iOS:
    when the opening throws, the app stays in the foreground.  The only
    URL ever opened is the stored one (the default if none is stored),
    and it is opened exactly when it parses and the answer was yes. *)
Theorem executeQuickExit_closes_app_iff_it_returns env w :
  storeWorks env -> wellTyped (store w) ->
  exists calls,
    trace (step env ExecuteQuickExit w) = (trace w ++ calls)%list /\
    (fst (executeQuickExit env w) = Ok tt <->
       uriParses env (quickExitUrlOf w) = true /\
       exists can, canLaunchAnswer env (quickExitUrlOf w) = Some can /\
                   (can = true -> is_Some (launchAnswer env (quickExitUrlOf w)))) /\
    (SystemNavigatorPop ∈ calls.*1 <->
       fst (executeQuickExit env w) = Ok tt /\ isAndroid env || isIOS env = true) /\
    (forall uri, LaunchUrl uri ∈ calls.*1 <->
       uri = quickExitUrlOf w /\ uriParses env uri = true /\
       canLaunchAnswer env uri = Some true).
Proof.
  intros Hworks Hty. unfold step, command.
  rewrite executeQuickExit_at_work by done.
  set (purged := if _isIncognitoSession (service w) || incognitoSetting w
                 then _ else _).
  unfold uriParse, canLaunchUrl, launchUrl. unfold_monad.
  destruct (uriParses env (quickExitUrlOf w)) eqn:Hparse; simpl.
  - destruct (canLaunchAnswer env (quickExitUrlOf w)) as [[|]|] eqn:Hcan; simpl.
    + destruct (launchAnswer env (quickExitUrlOf w)) as [b|] eqn:Hlaunch; simpl.
      * destruct (isAndroid env || isIOS env); simpl;
          (eexists; split; [rewrite <- ?(assoc_L app); reflexivity|]);
          simpl; rewrite ?elem_of_cons, ?elem_of_nil; navigation_cases.
      * eexists; split; [rewrite <- ?(assoc_L app); reflexivity|].
        simpl; rewrite ?elem_of_cons, ?elem_of_nil; navigation_cases.
        match goal with H : true = true -> is_Some None |- _ =>
          by destruct (H eq_refl) end.
    + destruct (isAndroid env || isIOS env); simpl;
        (eexists; split; [rewrite <- ?(assoc_L app); reflexivity|]);
        simpl; rewrite ?elem_of_cons, ?elem_of_nil; navigation_cases.
    + eexists; split; [reflexivity|].
      simpl; rewrite ?elem_of_cons, ?elem_of_nil; navigation_cases.
  - exists []. rewrite app_nil_r. split; [done|]. simpl.
    rewrite ?elem_of_nil; navigation_cases.
Qed.

Lemma executeQuickExit_closes_app_iff_it_returns_witness :
  storeWorks failingOpenerEnv /\ wellTyped (store incognitoWorld) /\
  exists calls,
    trace (step failingOpenerEnv ExecuteQuickExit incognitoWorld) =
      (trace incognitoWorld ++ calls)%list /\
    (SystemNavigatorPop ∈ calls.*1 <->
       fst (executeQuickExit failingOpenerEnv incognitoWorld) = Ok tt /\
       isAndroid failingOpenerEnv || isIOS failingOpenerEnv = true).
Proof.
  assert (wellTyped (store incognitoWorld)) as Hty by typed_store.
  split; [exact storeWorks_failingOpenerEnv|]. split; [exact Hty|].
  destruct (executeQuickExit_closes_app_iff_it_returns failingOpenerEnv incognitoWorld
              storeWorks_failingOpenerEnv Hty) as (calls & Htrace & _ & Hpop & _).
  exists calls. split; [exact Htrace|exact Hpop].
Defined.

(** ** The provider's picture of the session *)

Lemma flagsAgree_safetyService {A} (m : M World A) :
  (forall b, preserves (flagIs b) m) ->
  preserves flagsAgree (SafetyProvider._safetyService m).
Proof.
  intros Hm a Ha. unfold SafetyProvider._safetyService, lift.
  specialize (Hm _ (SafetyProvider.world a) eq_refl).
  destruct (m (SafetyProvider.world a)) as [[v|e] w'];
    unfold flagsAgree, flagIs in *; simpl; congruence.
Qed.

Lemma flagsAgree_assign f :
  (forall p, SafetyProvider._isIncognitoSession (f p) =
             SafetyProvider._isIncognitoSession p) ->
  preserves flagsAgree (SafetyProvider.assign f).
Proof.
  intros Hf. apply preserves_modify. intros a Ha.
  unfold flagsAgree in *. simpl. by rewrite Hf.
Qed.

Lemma flagsAgree_notifyListeners : preserves flagsAgree SafetyProvider.notifyListeners.
Proof.
  apply flagsAgree_safetyService. intros b. unfold emit.
  apply preserves_modify. by intros ? ?.
Qed.

Ltac service_keeps_flag :=
  intros ?; unfold_service;
  unfold uriParse, canLaunchUrl, launchUrl, getNetworkPrivacyStatus,
    checkConnectivity, emit, setBool, setString, setStringList, remove;
  repeat flag_frame_step.

Ltac agree_step :=
  lazymatch goal with
  | |- preserves _ (bind (SafetyProvider._safetyService isIncognitoSession) _) => fail
  | |- preserves _ (bind (gets _) _) => fail
  | |- preserves _ (bind _ _) => apply preserves_bind; [|intros ?]
  | |- preserves _ (ret _) => apply preserves_ret
  | |- preserves _ (discard _) => apply preserves_discard
  | |- preserves _ (if ?c then _ else _) => destruct c
  | |- preserves _ SafetyProvider.notifyListeners => apply flagsAgree_notifyListeners
  | |- preserves _ (SafetyProvider.assign _) => apply flagsAgree_assign; by intros []
  | |- preserves _ (SafetyProvider._safetyService _) =>
      apply flagsAgree_safetyService; service_keeps_flag
  end.

(** Loading the settings leaves the two flags agreeing wherever it
    stops: it copies the service's flag, and starts the session on both
    sides. *)
Lemma flagsAgree_loadSettings env :
  preserves flagsAgree (SafetyProvider.loadSettings env).
Proof.
  unfold SafetyProvider.loadSettings. repeat agree_step.
  eapply hoare_bind with
    (Q := fun v a => v = _isIncognitoSession (service (SafetyProvider.world a))).
  { intros app Happ. reflexivity. }
  intros v. eapply hoare_bind with (Q := fun _ => flagsAgree).
  { apply hoare_modify. intros app Happ. unfold flagsAgree. simpl. done. }
  intros _.
  match goal with |- hoare _ ?m _ _ => change (preserves flagsAgree m) end.
  repeat agree_step.
  intros app Happ. unfold SafetyProvider.startIncognitoSession, startIncognitoSession,
    SafetyProvider._safetyService, SafetyProvider.assign, lift.
  unfold_monad. simpl.
  by destruct (SafetyProvider._incognitoModeEnabled (SafetyProvider.provider app)).
Qed.

Lemma flagsAgree_providerCommand env c :
  (forall enabled, c <> PSetIncognitoModeEnabled enabled) ->
  preserves flagsAgree (providerCommand env c).
Proof.
  intros Hc. destruct c; unfold providerCommand.
  - intros a Ha. rewrite initialize_eq.
    destruct (SafetyProvider._initialized (SafetyProvider.provider a)); [done|].
    pose proof (preserves_final _ _ a (flagsAgree_loadSettings env) Ha) as Hloaded.
    unfold flagsAgree in *. simpl. done.
  - unfold SafetyProvider.setQuickExitEnabled. repeat agree_step.
  - unfold SafetyProvider.setQuickExitUrl. repeat agree_step.
  - unfold SafetyProvider.executeQuickExit. repeat agree_step.
  - by destruct (Hc enabled).
  - by intros a Ha.
  - by intros a Ha.
  - unfold SafetyProvider.addRecentProgram. repeat agree_step.
  - unfold SafetyProvider.getRecentPrograms. repeat agree_step.
  - unfold SafetyProvider.addSearchQuery. repeat agree_step.
  - unfold SafetyProvider.getSearchHistory. repeat agree_step.
  - unfold SafetyProvider.clearAllHistory. repeat agree_step.
  - unfold SafetyProvider.setShowSafetyTips. repeat agree_step.
  - unfold SafetyProvider.setNetworkWarningsEnabled. repeat agree_step.
  - unfold SafetyProvider.refreshNetworkStatus. repeat agree_step.
  - unfold SafetyProvider.applyDisguisedIcon. repeat agree_step.
  - unfold SafetyProvider.resetToDefaultIcon. repeat agree_step.
  - intros a Ha. unfold SafetyProvider.onConnectivityChanged. unfold bind at 1, gets.
    destruct (SafetyProvider._networkSubscription (SafetyProvider.provider a)); [|done].
    revert a Ha. change (preserves flagsAgree
      (do status <- SafetyProvider._safetyService (getNetworkPrivacyStatus env);
       run SafetyProvider.assign (SafetyProvider.set_networkStatus (Some status));
       SafetyProvider.notifyListeners)).
    repeat agree_step.
  - unfold SafetyProvider.dispose. repeat agree_step.
Qed.

(** X17. The session flag the provider shows stays the flag the service
    routes history by: if the two agree, they agree after every method
    of the provider, after a connectivity change and after disposal,
    whatever the collaborators do and also when the method throws; for
    [setIncognitoModeEnabled] this holds when the method returns. *)
Theorem provider_session_flag_agrees env c a :
  flagsAgree a ->
  (forall enabled, c = PSetIncognitoModeEnabled enabled ->
     fst (providerCommand env c a) = Ok tt) ->
  flagsAgree (snd (providerCommand env c a)).
Proof.
  intros Ha Hreturned.
  assert ((exists enabled, c = PSetIncognitoModeEnabled enabled) \/
          (forall enabled, c <> PSetIncognitoModeEnabled enabled)) as [[enabled ->]|Hc]
    by (destruct c; eauto; right; intros; discriminate).
  - specialize (Hreturned enabled eq_refl). revert Hreturned.
    unfold providerCommand, SafetyProvider.setIncognitoModeEnabled.
    rewrite assign_then, assign_call_notify. cbn [SafetyProvider.world].
    pose proof (setIncognitoModeEnabled_mirrors env enabled (SafetyProvider.world a))
      as Hmirror.
    destruct (setIncognitoModeEnabled env enabled (SafetyProvider.world a))
      as [[[]|e] w']; [|done].
    intros _. unfold flagsAgree. simpl in *. symmetry. by apply Hmirror.
  - by apply (preserves_final _ _ a (flagsAgree_providerCommand env c Hc)).
Qed.

Lemma provider_session_flag_agrees_witness :
  flagsAgree (appOver browsedWorld) /\
  flagsAgree (snd (providerCommand workingEnv (PSetIncognitoModeEnabled true)
                     (appOver browsedWorld))).
Proof.
  split; [reflexivity|].
  apply (provider_session_flag_agrees workingEnv (PSetIncognitoModeEnabled true)
           (appOver browsedWorld)); [reflexivity|].
  intros enabled _. reflexivity.
Defined.

(** X18. When [setIncognitoModeEnabled] of the provider fails at the
    store (the instance cannot be obtained, or the write of the setting
    throws), the provider has already taken the new value: it throws
    without notifying, its cached setting and session flag are
    [enabled], and the service keeps its session flag and the store as
    they were.  If no session was active and [enabled] is true, the
    provider then shows a session that the service does not have. *)
Theorem setIncognitoModeEnabled_failure_splits_flags env enabled a :
  (_prefs (service (SafetyProvider.world a)) = false /\ getInstanceFails env = true) \/
  writeOutcome env _incognitoModeKey = WriteThrows ->
  (exists e, fst (SafetyProvider.setIncognitoModeEnabled env enabled a) = Thrown e) /\
  SafetyProvider._incognitoModeEnabled
    (SafetyProvider.provider (snd (SafetyProvider.setIncognitoModeEnabled env enabled a))) =
    enabled /\
  SafetyProvider._isIncognitoSession
    (SafetyProvider.provider (snd (SafetyProvider.setIncognitoModeEnabled env enabled a))) =
    enabled /\
  _isIncognitoSession
    (service (SafetyProvider.world
                (snd (SafetyProvider.setIncognitoModeEnabled env enabled a)))) =
    _isIncognitoSession (service (SafetyProvider.world a)) /\
  store (SafetyProvider.world
           (snd (SafetyProvider.setIncognitoModeEnabled env enabled a))) =
    store (SafetyProvider.world a) /\
  trace (SafetyProvider.world
           (snd (SafetyProvider.setIncognitoModeEnabled env enabled a))) =
    trace (SafetyProvider.world a).
Proof.
  intros Hfails. unfold SafetyProvider.setIncognitoModeEnabled.
  rewrite assign_then, assign_call_notify. cbn [SafetyProvider.world].
  unfold setIncognitoModeEnabled, _preferences, setBool, write. unfold_monad.
  destruct Hfails as [[Hp Hf]|Hw].
  - rewrite Hp, Hf. simpl. eauto 10.
  - destruct (_prefs (service (SafetyProvider.world a)));
      [|destruct (getInstanceFails env)]; simpl; rewrite ?Hw; simpl; eauto 10.
Qed.

Lemma setIncognitoModeEnabled_failure_splits_flags_witness :
  SafetyProvider._isIncognitoSession
    (SafetyProvider.provider
       (snd (SafetyProvider.setIncognitoModeEnabled noStoreEnv true
               (appOver browsedWorld)))) = true /\
  _isIncognitoSession
    (service (SafetyProvider.world
                (snd (SafetyProvider.setIncognitoModeEnabled noStoreEnv true
                        (appOver browsedWorld))))) = false.
Proof.
  destruct (setIncognitoModeEnabled_failure_splits_flags noStoreEnv true
              (appOver browsedWorld)) as (_ & _ & Hprovider & Hservice & _).
  - left. split; reflexivity.
  - split; [exact Hprovider|exact Hservice].
Defined.

(** ** The widgets *)

Lemma refreshNetworkStatus_eq env a :
  SafetyProvider.refreshNetworkStatus env a =
    (Ok tt,
     {| SafetyProvider.provider :=
          SafetyProvider.set_networkStatus (Some (statusOf env)) (SafetyProvider.provider a);
        SafetyProvider.world :=
          {| store := store (SafetyProvider.world a);
             service := service (SafetyProvider.world a);
             trace := (trace (SafetyProvider.world a) ++
                       [(CheckConnectivity, view (SafetyProvider.world a))]) ++
                      [(NotifyListeners, view (SafetyProvider.world a))] |} |}).
Proof.
  unfold SafetyProvider.refreshNetworkStatus, SafetyProvider.notifyListeners,
    SafetyProvider.assign, SafetyProvider._safetyService, lift.
  unfold bind at 1. rewrite getNetworkPrivacyStatus_statusOf. reflexivity.
Qed.

Lemma statusOf_cases env :
  (level (statusOf env) = caution <->
   exists reading, connectivityReading env = Some reading /\ CR_wifi ∈ reading) /\
  (level (statusOf env) = caution ->
   connectionType (statusOf env) = "WiFi" /\
   warning (statusOf env) =
     Some "You're on WiFi. Network owner may be able to see your activity.") /\
  default (default (connectionType (statusOf env)) (suggestion (statusOf env)))
    (warning (statusOf env)) <> EmptyString.
Proof.
  unfold statusOf, getNetworkPrivacyStatus, checkConnectivity. unfold_monad. simpl.
  destruct (connectivityReading env) as [reading|]; simpl.
  - destruct (bool_decide_reflect (CR_wifi ∈ reading)) as [Hwifi|Hwifi]; simpl.
    { split; [|done]. split; [|done]. intros _. by exists reading. }
    assert (forall l, Some reading = Some l /\ CR_wifi ∈ l -> False) as Hno
      by (by intros l [[= <-] Hl]).
    destruct (bool_decide (CR_mobile ∈ reading)); simpl;
      [split; [split; [done|intros [l Hl]; by destruct (Hno l)]|done]|].
    destruct (bool_decide (CR_vpn ∈ reading)); simpl;
      [split; [split; [done|intros [l Hl]; by destruct (Hno l)]|done]|].
    destruct (bool_decide (CR_none ∈ reading)); simpl;
      split; try done; (split; [done|intros [l Hl]; by destruct (Hno l)]).
  - split; [|done]. split; [done|]. by intros (l & Hl & _).
Qed.

(** X19. What the network indicator shows after [refreshNetworkStatus]:
    the banner exactly when the warnings are enabled in the provider and
    the connectivity reading contains wifi, and then it names the
    connection "WiFi" with the wifi warning; the compact icon exactly
    when the warnings are enabled, whatever the connection, with a
    tooltip that is never empty.  A failing connectivity query shows no
    banner. *)
Theorem network_banner_shown_on_wifi_only env a :
  (NetworkPrivacyIndicator.build false
     (SafetyProvider.provider (snd (SafetyProvider.refreshNetworkStatus env a))) <>
     NetworkPrivacyIndicator.Shrink <->
   SafetyProvider._networkWarningsEnabled (SafetyProvider.provider a) = true /\
   exists reading, connectivityReading env = Some reading /\ CR_wifi ∈ reading) /\
  (NetworkPrivacyIndicator.build false
     (SafetyProvider.provider (snd (SafetyProvider.refreshNetworkStatus env a))) <>
     NetworkPrivacyIndicator.Shrink ->
   NetworkPrivacyIndicator.build false
     (SafetyProvider.provider (snd (SafetyProvider.refreshNetworkStatus env a))) =
     NetworkPrivacyIndicator.WarningBanner Icons_wifi "WiFi"
       (Some "You're on WiFi. Network owner may be able to see your activity.")) /\
  (NetworkPrivacyIndicator.build true
     (SafetyProvider.provider (snd (SafetyProvider.refreshNetworkStatus env a))) <>
     NetworkPrivacyIndicator.Shrink <->
   SafetyProvider._networkWarningsEnabled (SafetyProvider.provider a) = true) /\
  (forall message icon color,
     NetworkPrivacyIndicator.build true
       (SafetyProvider.provider (snd (SafetyProvider.refreshNetworkStatus env a))) =
       NetworkPrivacyIndicator.CompactIcon message icon color ->
     message <> EmptyString /\ icon = Status.icon (statusOf env) /\
     color = Status.indicatorColor (statusOf env)).
Proof.
  rewrite refreshNetworkStatus_eq. cbn [snd SafetyProvider.provider].
  destruct (statusOf_cases env) as (Hwifi & Hbanner & Hmessage).
  unfold NetworkPrivacyIndicator.build, Status.icon. simpl.
  destruct (SafetyProvider._networkWarningsEnabled (SafetyProvider.provider a));
    simpl.
  - destruct (bool_decide_reflect (level (statusOf env) = caution)) as [Hc|Hc];
      simpl.
    + destruct (Hbanner Hc) as [Htype Hwarning].
      split; [|split; [|split]].
      * split; [intros _; split; [done|by apply Hwifi]|done].
      * intros _. by rewrite Htype, Hwarning, Hc.
      * done.
      * intros message icon color [= <- <- <-]. by rewrite Hc.
    + split; [|split; [|split]].
      * split; [done|]. intros (_ & Hreading). exfalso. by apply Hc, Hwifi.
      * done.
      * done.
      * by intros message icon color [= <- <- <-].
  - split; [|split; [|split]]; try done; split; try done; by intros [? _].
Qed.

Lemma setNetworkWarningsEnabled_provider env enabled a :
  SafetyProvider._networkWarningsEnabled
    (SafetyProvider.provider (snd (SafetyProvider.setNetworkWarningsEnabled env enabled a))) =
    enabled.
Proof.
  unfold SafetyProvider.setNetworkWarningsEnabled. rewrite assign_call_notify.
  by destruct (setNetworkWarningsEnabled env enabled (SafetyProvider.world a))
    as [[[]|e] w'].
Qed.

Lemma setNetworkWarningsEnabled_store env enabled a :
  storeWorks env ->
  store (SafetyProvider.world
           (snd (SafetyProvider.setNetworkWarningsEnabled env enabled a))) =
    <[_networkWarningsKey := PBool enabled]> (store (SafetyProvider.world a)).
Proof.
  intros Hworks. unfold SafetyProvider.setNetworkWarningsEnabled.
  rewrite assign_call_notify. unfold setNetworkWarningsEnabled.
  by store_at_work Hworks.
Qed.

Lemma setNetworkWarningsEnabled_returns env enabled a :
  storeWorks env ->
  fst (SafetyProvider.setNetworkWarningsEnabled env enabled a) = Ok tt /\
  notifiedTimes 1 a (snd (SafetyProvider.setNetworkWarningsEnabled env enabled a)).
Proof.
  intros Hworks. unfold SafetyProvider.setNetworkWarningsEnabled, notifiedTimes.
  rewrite assign_call_notify. unfold setNetworkWarningsEnabled.
  store_at_work Hworks. split; [done|]. simpl.
  rewrite notifications_snoc. by rewrite decide_True.
Qed.

Lemma setNetworkWarningsEnabled_throws env enabled a :
  (_prefs (service (SafetyProvider.world a)) = false /\ getInstanceFails env = true) \/
  writeOutcome env _networkWarningsKey = WriteThrows ->
  (exists e, fst (SafetyProvider.setNetworkWarningsEnabled env enabled a) = Thrown e) /\
  notifiedTimes 0 a (snd (SafetyProvider.setNetworkWarningsEnabled env enabled a)) /\
  store (SafetyProvider.world
           (snd (SafetyProvider.setNetworkWarningsEnabled env enabled a))) =
    store (SafetyProvider.world a).
Proof.
  intros Hfails. unfold SafetyProvider.setNetworkWarningsEnabled, notifiedTimes.
  rewrite assign_call_notify. cbn [SafetyProvider.world].
  unfold setNetworkWarningsEnabled, _preferences, setBool, write. unfold_monad.
  destruct Hfails as [[Hp Hf]|Hw].
  - rewrite Hp, Hf. simpl. eauto.
  - destruct (_prefs (service (SafetyProvider.world a)));
      [|destruct (getInstanceFails env)]; simpl; rewrite ?Hw; simpl; eauto.
Qed.

(** X20. The close button of the network banner, which calls
    [setNetworkWarningsEnabled(false)].  With a store that works the
    call returns and notifies the listeners exactly once, so that the
    [Consumer] rebuilds, and the indicator then shows nothing, banner or
    compact icon; the setting has been written, so the indicator still
    shows nothing after the process was restarted and a new provider
    was initialised.  When the instance of the store cannot be obtained
    or the write throws, the call throws without notifying the
    listeners and the store is as before: nothing makes the [Consumer]
    rebuild. *)
Theorem dismissed_warning_stays_dismissed env env' compact a :
  storeWorks env -> storeWorks env' ->
  wellTyped (store (SafetyProvider.world a)) ->
  fst (NetworkPrivacyIndicator.dismiss env a) = Ok tt /\
  notifiedTimes 1 a (snd (NetworkPrivacyIndicator.dismiss env a)) /\
  NetworkPrivacyIndicator.build compact
    (SafetyProvider.provider (snd (NetworkPrivacyIndicator.dismiss env a))) =
    NetworkPrivacyIndicator.Shrink /\
  NetworkPrivacyIndicator.build compact
    (SafetyProvider.provider
       (snd (SafetyProvider.initialize env'
               (appOver (step env' Restart
                           (SafetyProvider.world
                              (snd (NetworkPrivacyIndicator.dismiss env a)))))))) =
    NetworkPrivacyIndicator.Shrink /\
  (forall env0,
     (_prefs (service (SafetyProvider.world a)) = false /\
      getInstanceFails env0 = true) \/
     writeOutcome env0 _networkWarningsKey = WriteThrows ->
     (exists e, fst (NetworkPrivacyIndicator.dismiss env0 a) = Thrown e) /\
     notifiedTimes 0 a (snd (NetworkPrivacyIndicator.dismiss env0 a)) /\
     store (SafetyProvider.world (snd (NetworkPrivacyIndicator.dismiss env0 a))) =
       store (SafetyProvider.world a)).
Proof.
  intros Hworks Hworks' Hty. unfold NetworkPrivacyIndicator.dismiss.
  destruct (setNetworkWarningsEnabled_returns env false a Hworks) as [Hok Hnotified].
  split; [exact Hok|]. split; [exact Hnotified|]. split; [|split].
  - unfold NetworkPrivacyIndicator.build.
    by rewrite setNetworkWarningsEnabled_provider.
  - rewrite initialize_eq. cbn [appOver SafetyProvider.provider SafetyProvider.fresh
                                SafetyProvider._initialized snd].
    set (w' := step env' Restart _).
    assert (store w' =
            <[_networkWarningsKey := PBool false]> (store (SafetyProvider.world a)))
      as Hstore by (unfold w', step; simpl; by rewrite setNetworkWarningsEnabled_store).
    assert (wellTyped (store w')) as Hty'.
    { rewrite Hstore. by eapply wellTyped_insert; [schema_member|..]. }
    destruct (loadSettings_at_work env' (appOver w')
                (storeWorks_available env' w' Hworks') Hty')
      as (_ & Hloaded & _).
    destruct Hloaded as (_ & _ & _ & _ & _ & Hwarnings & _).
    unfold NetworkPrivacyIndicator.build. simpl. rewrite Hwarnings.
    cbn [appOver SafetyProvider.world]. rewrite Hstore.
    unfold storedBool. by rewrite lookup_insert_eq.
  - intros env0 Hfails. by apply setNetworkWarningsEnabled_throws.
Qed.

Lemma dismissed_warning_stays_dismissed_witness :
  storeWorks workingEnv /\
  wellTyped (store (SafetyProvider.world
                      (snd (SafetyProvider.refreshNetworkStatus workingEnv
                              (appOver browsedWorld))))) /\
  NetworkPrivacyIndicator.build false
    (SafetyProvider.provider
       (snd (SafetyProvider.refreshNetworkStatus workingEnv (appOver browsedWorld)))) <>
    NetworkPrivacyIndicator.Shrink /\
  notifiedTimes 1
    (snd (SafetyProvider.refreshNetworkStatus workingEnv (appOver browsedWorld)))
    (snd (NetworkPrivacyIndicator.dismiss workingEnv
            (snd (SafetyProvider.refreshNetworkStatus workingEnv
                    (appOver browsedWorld))))) /\
  NetworkPrivacyIndicator.build false
    (SafetyProvider.provider
       (snd (SafetyProvider.initialize workingEnv
               (appOver (step workingEnv Restart
                           (SafetyProvider.world
                              (snd (NetworkPrivacyIndicator.dismiss workingEnv
                                      (snd (SafetyProvider.refreshNetworkStatus
                                              workingEnv (appOver browsedWorld)))))))))))
    = NetworkPrivacyIndicator.Shrink.
Proof.
  assert (wellTyped (store (SafetyProvider.world
                              (snd (SafetyProvider.refreshNetworkStatus workingEnv
                                      (appOver browsedWorld)))))) as Hty
    by typed_store.
  destruct (dismissed_warning_stays_dismissed workingEnv workingEnv false
              (snd (SafetyProvider.refreshNetworkStatus workingEnv
                      (appOver browsedWorld)))
              storeWorks_workingEnv storeWorks_workingEnv Hty)
    as (_ & Hnotified & _ & Hrestart & _).
  split; [exact storeWorks_workingEnv|]. split; [exact Hty|].
  split; [by vm_compute|]. split; [exact Hnotified|exact Hrestart].
Defined.

Lemma getSafetyTips_length category :
  take 3 (getSafetyTips category) = baseTips /\
  (length (getSafetyTips category) = 3 \/ length (getSafetyTips category) = 5).
Proof.
  unfold getSafetyTips.
  destruct (lowerEquals category "domestic-violence" || lowerEquals category "crisis");
    split; try reflexivity; [by right|by left].
Qed.

Lemma setShowSafetyTips_provider env show a :
  SafetyProvider._showSafetyTips
    (SafetyProvider.provider (snd (SafetyProvider.setShowSafetyTips env show a))) = show.
Proof.
  unfold SafetyProvider.setShowSafetyTips. rewrite assign_call_notify.
  by destruct (setShowSafetyTips env show (SafetyProvider.world a)) as [[[]|e] w'].
Qed.

(** X21. [SafetyTipsDialog.showIfNeeded] shows the dialog exactly when
    the tips are enabled in the provider and the program is sensitive,
    and calls [onContinue] at once otherwise.  The dialog lists the tips
    of the category: the three base tips first, three or five tips in
    all.  Once the box of the dialog was ticked, whatever the store
    does, no dialog is shown for any program; a change of the box to
    unticked or to null changes nothing. *)
Theorem safety_tips_dialog_shown_iff_sensitive
    safety category eligibility programName :
  (SafetyTipsDialog.showIfNeeded safety category eligibility programName <>
     SafetyTipsDialog.Continue <->
   SafetyProvider._showSafetyTips safety = true /\
   isProgramSensitive category eligibility = true) /\
  (forall intro tips,
     SafetyTipsDialog.showIfNeeded safety category eligibility programName =
       SafetyTipsDialog.ShowDialog intro tips ->
     tips = getSafetyTips category /\ take 3 tips = baseTips /\
     (length tips = 3 \/ length tips = 5)) /\
  (forall env a,
     SafetyTipsDialog.showIfNeeded
       (SafetyProvider.provider (snd (SafetyTipsDialog.onChanged env (Some true) a)))
       category eligibility programName = SafetyTipsDialog.Continue) /\
  (forall env a value,
     value <> Some true ->
     SafetyTipsDialog.onChanged env value a = (Ok tt, a)).
Proof.
  unfold SafetyTipsDialog.showIfNeeded. split; [|split; [|split]].
  - destruct (SafetyProvider._showSafetyTips safety); simpl;
      [|split; [done|by intros [? _]]].
    destruct (isProgramSensitive category eligibility); simpl;
      [done|split; [done|by intros [_ ?]]].
  - intros intro tips.
    destruct (negb (SafetyProvider._showSafetyTips safety)); [done|].
    destruct (negb (isProgramSensitive category eligibility)); [done|].
    intros [= _ <-]. split; [done|]. apply getSafetyTips_length.
  - intros env a. unfold SafetyTipsDialog.onChanged.
    rewrite bool_decide_eq_true_2 by done.
    by rewrite setShowSafetyTips_provider.
  - intros env a value Hvalue. unfold SafetyTipsDialog.onChanged.
    by rewrite bool_decide_eq_false_2.
Qed.

(** X22. A tap on the safety-mode card toggles the session, going by the
    flag the provider shows: it returns normally, the provider's flag
    and the service's flag both become the negation of the flag shown
    before, both session lists are empty afterwards, the store is
    untouched, and the listeners are notified exactly once; the snack
    bar is shown exactly when the widget is still mounted.  So a second
    tap brings the flag shown back, and the incognito banner is shown
    after a tap exactly when it was not shown before. *)
Theorem safety_mode_card_tap_toggles mounted a :
  (exists message,
     fst (SafetyModeCard.onTap mounted a) = Ok message /\
     (is_Some message <-> mounted = true)) /\
  SafetyProvider._isIncognitoSession
    (SafetyProvider.provider (snd (SafetyModeCard.onTap mounted a))) =
    negb (SafetyProvider._isIncognitoSession (SafetyProvider.provider a)) /\
  _isIncognitoSession
    (service (SafetyProvider.world (snd (SafetyModeCard.onTap mounted a)))) =
    negb (SafetyProvider._isIncognitoSession (SafetyProvider.provider a)) /\
  _sessionRecentPrograms
    (service (SafetyProvider.world (snd (SafetyModeCard.onTap mounted a)))) = [] /\
  _sessionSearchHistory
    (service (SafetyProvider.world (snd (SafetyModeCard.onTap mounted a)))) = [] /\
  store (SafetyProvider.world (snd (SafetyModeCard.onTap mounted a))) =
    store (SafetyProvider.world a) /\
  notifiedTimes 1 a (snd (SafetyModeCard.onTap mounted a)) /\
  SafetyProvider._isIncognitoSession
    (SafetyProvider.provider
       (snd (SafetyModeCard.onTap mounted (snd (SafetyModeCard.onTap mounted a))))) =
    SafetyProvider._isIncognitoSession (SafetyProvider.provider a) /\
  (IncognitoIndicator.build
     (SafetyProvider.provider (snd (SafetyModeCard.onTap mounted a))) = None <->
   IncognitoIndicator.build (SafetyProvider.provider a) <> None).
Proof.
  assert (forall a',
            SafetyProvider._isIncognitoSession
              (SafetyProvider.provider (snd (SafetyModeCard.onTap mounted a'))) =
            negb (SafetyProvider._isIncognitoSession (SafetyProvider.provider a')))
    as Htoggle.
  { intros a'. unfold SafetyModeCard.onTap. unfold bind at 1, gets.
    by destruct (SafetyProvider._isIncognitoSession (SafetyProvider.provider a')). }
  split; [|split; [apply Htoggle|]].
  { unfold SafetyModeCard.onTap. unfold bind at 1, gets.
    destruct (SafetyProvider._isIncognitoSession (SafetyProvider.provider a));
      destruct mounted; eexists; (split; [reflexivity|]);
      split; try done; by intros []. }
  split; [|split; [|split; [|split; [|split; [|split]]]]].
  - unfold SafetyModeCard.onTap. unfold bind at 1, gets.
    by destruct (SafetyProvider._isIncognitoSession (SafetyProvider.provider a)).
  - unfold SafetyModeCard.onTap. unfold bind at 1, gets.
    by destruct (SafetyProvider._isIncognitoSession (SafetyProvider.provider a)).
  - unfold SafetyModeCard.onTap. unfold bind at 1, gets.
    by destruct (SafetyProvider._isIncognitoSession (SafetyProvider.provider a)).
  - unfold SafetyModeCard.onTap. unfold bind at 1, gets.
    by destruct (SafetyProvider._isIncognitoSession (SafetyProvider.provider a)).
  - unfold notifiedTimes, SafetyModeCard.onTap. unfold bind at 1, gets.
    destruct (SafetyProvider._isIncognitoSession (SafetyProvider.provider a));
      simpl; rewrite notifications_snoc; by rewrite decide_True.
  - rewrite !Htoggle. apply negb_involutive.
  - unfold IncognitoIndicator.build. rewrite Htoggle.
    by destruct (SafetyProvider._isIncognitoSession (SafetyProvider.provider a)).
Qed.

(** X23. The getters of the status: the icon tells the five levels
    apart, and the colour tells them apart except that offline and
    unknown share one grey. *)
Theorem status_icon_tells_levels_apart st st' :
  (Status.icon st = Status.icon st' <-> level st = level st') /\
  (Status.indicatorColor st = Status.indicatorColor st' <->
   level st = level st' \/
   (level st = offline \/ level st = unknown) /\
   (level st' = offline \/ level st' = unknown)).
Proof.
  unfold Status.icon, Status.indicatorColor.
  destruct (level st), (level st'); split; split; try done;
    try (by intros [?|[[?|?] [?|?]]]); auto.
Qed.

(** ** Leaving the app, over whole runs *)

Lemma exits_preferences env : preserves exitsSeeNoHistory (_preferences env).
Proof.
  intros w Hw. unfold _preferences.
  destruct (_prefs (service w)); [done|].
  by destruct (getInstanceFails env).
Qed.

Lemma exits_checkConnectivity (w : World) :
  exitsSeeNoHistory w ->
  exitsSeeNoHistory {| store := store w; service := service w;
                       trace := trace w ++ [(CheckConnectivity, view w)] |}.
Proof.
  unfold exitsSeeNoHistory. simpl. intros Hw.
  apply Forall_app. split; [done|]. by repeat constructor.
Qed.

Ltac exits_frame_step :=
  lazymatch goal with
  | |- preserves _ (bind _ _) => apply preserves_bind; [|intros ?]
  | |- preserves _ (ret _) => apply preserves_ret
  | |- preserves _ (throw _) => apply preserves_throw
  | |- preserves _ (gets _) => apply preserves_gets
  | |- preserves _ (orRangeError _) => apply preserves_orRangeError
  | |- preserves _ (getBool _) => apply preserves_getBool
  | |- preserves _ (getString _) => apply preserves_getString
  | |- preserves _ (getStringList _) => apply preserves_getStringList
  | |- preserves _ (discard _) => apply preserves_discard
  | |- preserves _ (tryCatch _ _) => apply preserves_tryCatch; [|intros ?]
  | |- preserves _ (_preferences _) => apply exits_preferences
  | |- preserves _ (write _ _ _) => apply preserves_write; by intros ? ?
  | |- preserves _ (modify _) =>
      apply preserves_modify; first [by intros ? ? | apply exits_checkConnectivity]
  | |- preserves _ (if ?b then _ else _) => destruct b
  | |- preserves _ (match ?o with Some _ => _ | None => _ end) => destruct o
  end.

(** Apart from [executeQuickExit], no method of the service makes a call
    that takes the user away from the app. *)
Lemma exits_other_commands env c :
  c <> ExecuteQuickExit -> preserves exitsSeeNoHistory (command env c).
Proof.
  intros Hc. destruct c; try done; unfold_service;
    unfold startIncognitoSession, endIncognitoSession,
      getNetworkPrivacyStatus, checkConnectivity, emit, setBool, setString,
      setStringList, remove;
    repeat exits_frame_step.
Qed.

(** X24. In every state the app can reach, whatever the store, the
    opener and the connectivity plugin did on the way: each call made so
    far that took the user away from the app (the question whether the
    quick-exit URL can be opened, its opening, the closing of the app)
    found both session lists empty. *)
Theorem no_exit_with_session_history w :
  Reachable w ->
  Forall (fun call => leavesApp call.1 = true -> sessionListsEmpty call.2) (trace w).
Proof.
  induction 1 as [|env c w Hw IH]; [constructor|].
  change (exitsSeeNoHistory (step env c w)).
  assert (c = ExecuteQuickExit \/ c <> ExecuteQuickExit) as [->|Hc]
    by (destruct c; auto).
  - destruct (executeQuickExit_any_store env w) as (calls & Htrace & Hcalls & _).
    unfold exitsSeeNoHistory, step, command. rewrite Htrace.
    apply Forall_app. split; [done|].
    eapply Forall_impl; [exact Hcalls|]. by intros call Hcall _.
  - unfold step. by apply preserves_final; [apply exits_other_commands|].
Qed.

Lemma no_exit_with_session_history_witness :
  Reachable (exec failingOpenerEnv [AddRecentProgram "hotline"; ExecuteQuickExit]
               (exec workingEnv [StartIncognitoSession] installed)) /\
  Forall (fun call => leavesApp call.1 = true -> sessionListsEmpty call.2)
    (trace (exec failingOpenerEnv [AddRecentProgram "hotline"; ExecuteQuickExit]
              (exec workingEnv [StartIncognitoSession] installed))).
Proof.
  assert (Reachable (exec failingOpenerEnv [AddRecentProgram "hotline"; ExecuteQuickExit]
                       (exec workingEnv [StartIncognitoSession] installed)))
    as Hreach by (repeat apply exec_Reachable; constructor).
  split; [exact Hreach|].
  exact (no_exit_with_session_history _ Hreach).
Defined.

(** ** The provider's cache of the settings *)

(** A command that writes the history lists only keeps the settings. *)
Lemma settingsKept_command env c σ :
  (forall key v, (key, v) ∈ writes c ->
     key = _recentProgramsKey \/ key = _searchHistoryKey) ->
  preserves (settingsKept σ) (command env c).
Proof.
  intros Hc.
  apply (preserves_command (settingsKept σ)
           (fun key _ => key = _recentProgramsKey \/ key = _searchHistoryKey));
    try done; unfold settingsKept; simpl.
  - intros key v w Hkey Hw key' Hr Hs.
    rewrite lookup_insert_ne by (destruct Hkey; congruence). auto.
  - intros key w Hkey Hw key' Hr Hs.
    rewrite lookup_delete_ne by (destruct Hkey; congruence). auto.
  - intros key _ w l' Hkey _ Hw key' Hr Hs.
    rewrite lookup_insert_ne by (destruct Hkey; congruence). auto.
Qed.

Lemma cacheKept_safetyService {A} a (m : M World A) :
  preserves (settingsKept (store (SafetyProvider.world a))) m ->
  preserves (cacheKept a) (SafetyProvider._safetyService m).
Proof.
  intros Hm a' [Hp Hw]. unfold SafetyProvider._safetyService, lift.
  specialize (Hm _ Hw).
  by destruct (m (SafetyProvider.world a')) as [[v|e] w'].
Qed.

Lemma cacheKept_assign a f :
  (forall p, cachedSettings (f p) = cachedSettings p) ->
  preserves (cacheKept a) (SafetyProvider.assign f).
Proof.
  intros Hf. apply preserves_modify. intros a' [Hp Hw].
  split; [simpl; by rewrite Hf|done].
Qed.

Lemma cacheKept_notifyListeners a :
  preserves (cacheKept a) SafetyProvider.notifyListeners.
Proof.
  apply cacheKept_safetyService. unfold emit. apply preserves_modify. by intros ? ?.
Qed.

Lemma cacheKept_refl a : cacheKept a a.
Proof. by split. Qed.

Lemma cacheAgrees_kept a a' : cacheAgrees a -> cacheKept a a' -> cacheAgrees a'.
Proof.
  unfold cacheAgrees, cacheKept, cachedSettings, settingsKept.
  unfold quickExitUrlOf, incognitoSetting, iconOf, storedBool, storedString.
  intros Ha [[= -> -> -> -> -> -> ->] Hw]. by rewrite !Hw by done.
Qed.

Ltac history_writes_only :=
  let Hin := fresh "Hin" in
  intros ? ? Hin; cbn [writes] in Hin;
  repeat (apply elem_of_cons in Hin as [[= -> ->]|Hin]; [by auto|]);
  by apply elem_of_nil in Hin.

Ltac kept_step env :=
  lazymatch goal with
  | |- preserves _ (bind _ _) => apply preserves_bind; [|intros ?]
  | |- preserves _ (ret _) => apply preserves_ret
  | |- preserves _ (discard _) => apply preserves_discard
  | |- preserves _ SafetyProvider.notifyListeners => apply cacheKept_notifyListeners
  | |- preserves _ (SafetyProvider.assign _) => apply cacheKept_assign; by intros []
  | |- preserves _ (SafetyProvider._safetyService (executeQuickExit _)) =>
      apply cacheKept_safetyService;
      apply (settingsKept_command env ExecuteQuickExit); history_writes_only
  | |- preserves _ (SafetyProvider._safetyService (addRecentProgram _ ?x)) =>
      apply cacheKept_safetyService;
      apply (settingsKept_command env (AddRecentProgram x)); history_writes_only
  | |- preserves _ (SafetyProvider._safetyService (addSearchQuery _ ?x)) =>
      apply cacheKept_safetyService;
      apply (settingsKept_command env (AddSearchQuery x)); history_writes_only
  | |- preserves _ (SafetyProvider._safetyService (getRecentPrograms _)) =>
      apply cacheKept_safetyService, preserves_undiscard;
      apply (settingsKept_command env GetRecentPrograms); history_writes_only
  | |- preserves _ (SafetyProvider._safetyService (getSearchHistory _)) =>
      apply cacheKept_safetyService, preserves_undiscard;
      apply (settingsKept_command env GetSearchHistory); history_writes_only
  | |- preserves _ (SafetyProvider._safetyService (clearAllHistory _)) =>
      apply cacheKept_safetyService;
      apply (settingsKept_command env ClearAllHistory); history_writes_only
  | |- preserves _ (SafetyProvider._safetyService (getNetworkPrivacyStatus _)) =>
      apply cacheKept_safetyService, preserves_undiscard;
      apply (settingsKept_command env GetNetworkPrivacyStatus); history_writes_only
  | |- preserves _ (SafetyProvider._safetyService startIncognitoSession) =>
      apply cacheKept_safetyService;
      apply (settingsKept_command env StartIncognitoSession); history_writes_only
  | |- preserves _ (SafetyProvider._safetyService endIncognitoSession) =>
      apply cacheKept_safetyService;
      apply (settingsKept_command env EndIncognitoSession); history_writes_only
  end.

(** The methods of the provider that set no setting keep the cache and
    the settings, whatever the collaborators do. *)
Lemma cacheKept_providerCommand env c a :
  match c with
  | PExecuteQuickExit | PStartIncognitoSession | PEndIncognitoSession
  | PAddRecentProgram _ | PGetRecentPrograms | PAddSearchQuery _
  | PGetSearchHistory | PClearAllHistory | PRefreshNetworkStatus
  | PConnectivityChanged | PDispose => True
  | _ => False
  end ->
  cacheKept a (snd (providerCommand env c a)).
Proof.
  intros Hc. apply preserves_final; [|apply cacheKept_refl].
  destruct c; try done; unfold providerCommand.
  - unfold SafetyProvider.executeQuickExit. repeat kept_step env.
  - unfold SafetyProvider.startIncognitoSession. repeat kept_step env.
  - unfold SafetyProvider.endIncognitoSession. repeat kept_step env.
  - unfold SafetyProvider.addRecentProgram. repeat kept_step env.
  - unfold SafetyProvider.getRecentPrograms. repeat kept_step env.
  - unfold SafetyProvider.addSearchQuery. repeat kept_step env.
  - unfold SafetyProvider.getSearchHistory. repeat kept_step env.
  - unfold SafetyProvider.clearAllHistory. repeat kept_step env.
  - unfold SafetyProvider.refreshNetworkStatus. repeat kept_step env.
  - unfold SafetyProvider.onConnectivityChanged.
    apply preserves_bind; [apply preserves_gets|]. intros [|]; repeat kept_step env.
  - unfold SafetyProvider.dispose. repeat kept_step env.
Qed.

Ltac cache_after_write Ha :=
  unfold cacheAgrees, quickExitUrlOf, incognitoSetting, iconOf, storedBool,
    storedString in *;
  simpl in *;
  destruct Ha as (? & ? & ? & ? & ? & ? & ?);
  repeat split;
  rewrite ?lookup_delete_ne by done;
  rewrite ?lookup_insert_eq; rewrite ?lookup_insert_ne by done;
  rewrite ?lookup_delete_ne by done;
  rewrite ?lookup_insert_eq; rewrite ?lookup_insert_ne by done;
  rewrite ?lookup_delete_eq;
  try done.

Lemma cacheAgrees_setters env a :
  storeWorks env -> cacheAgrees a ->
  (forall b, cacheAgrees (snd (SafetyProvider.setQuickExitEnabled env b a))) /\
  (forall url, cacheAgrees (snd (SafetyProvider.setQuickExitUrl env url a))) /\
  (forall b, cacheAgrees (snd (SafetyProvider.setIncognitoModeEnabled env b a))) /\
  (forall b, cacheAgrees (snd (SafetyProvider.setShowSafetyTips env b a))) /\
  (forall b, cacheAgrees (snd (SafetyProvider.setNetworkWarningsEnabled env b a))).
Proof.
  intros Hworks Ha. split; [|split; [|split; [|split]]].
  - intros b. unfold SafetyProvider.setQuickExitEnabled.
    rewrite assign_call_notify. unfold setQuickExitEnabled.
    store_at_work Hworks. cache_after_write Ha.
  - intros url. unfold SafetyProvider.setQuickExitUrl.
    rewrite assign_call_notify. unfold setQuickExitUrl.
    store_at_work Hworks. cache_after_write Ha.
  - intros b. unfold SafetyProvider.setIncognitoModeEnabled.
    rewrite assign_then, assign_call_notify.
    rewrite setIncognitoModeEnabled_at_work by done.
    destruct b; cache_after_write Ha.
  - intros b. unfold SafetyProvider.setShowSafetyTips.
    rewrite assign_call_notify. unfold setShowSafetyTips.
    store_at_work Hworks. cache_after_write Ha.
  - intros b. unfold SafetyProvider.setNetworkWarningsEnabled.
    rewrite assign_call_notify. unfold setNetworkWarningsEnabled.
    store_at_work Hworks. cache_after_write Ha.
Qed.

#[local] Arguments Dart.firstWhere : simpl never.

Lemma cacheAgrees_disguise env a :
  storeWorks env -> cacheAgrees a ->
  (forall icon, icon ∈ disguisedIcons ->
     cacheAgrees (snd (SafetyProvider.applyDisguisedIcon env icon a))) /\
  cacheAgrees (snd (SafetyProvider.resetToDefaultIcon env a)).
Proof.
  intros Hworks Ha. split.
  - intros icon Hicon. unfold SafetyProvider.applyDisguisedIcon.
    rewrite call_then_follow.
    destruct (applyDisguisedIcon_at_work env (dai_id icon) (SafetyProvider.world a)
                Hworks) as (Hfinal & result & Hresult & Hsuccess & _).
    destruct (applyDisguisedIcon env (dai_id icon) (SafetyProvider.world a))
      as [[result'|e] w']; [|done].
    simpl in Hfinal, Hresult. injection Hresult as ->. subst w'.
    rewrite Hsuccess. cache_after_write Ha.
    by rewrite disguisedIcons_first_by_id.
  - unfold SafetyProvider.resetToDefaultIcon. rewrite call_then_follow.
    destruct (resetToDefaultIcon_at_work env (SafetyProvider.world a) Hworks)
      as (Hfinal & result & Hresult & Hsuccess & _).
    destruct (resetToDefaultIcon env (SafetyProvider.world a))
      as [[result'|e] w']; [|done].
    simpl in Hfinal, Hresult. injection Hresult as ->. subst w'.
    rewrite Hsuccess. cache_after_write Ha.
Qed.

Lemma cacheAgrees_initialize env a :
  storeWorks env -> wellTyped (store (SafetyProvider.world a)) ->
  SafetyProvider._initialized (SafetyProvider.provider a) = false ->
  cacheAgrees (snd (SafetyProvider.initialize env a)).
Proof.
  intros Hworks Hty Hfresh. rewrite initialize_eq, Hfresh.
  destruct (loadSettings_at_work env a (storeWorks_available env _ Hworks) Hty)
    as (_ & Hloaded & _ & Hstore & _).
  destruct Hloaded as (H1 & H2 & H3 & _ & H5 & H6 & _ & H8 & H9 & _).
  unfold cacheAgrees, quickExitUrlOf, incognitoSetting, iconOf in *. simpl.
  rewrite Hstore. by repeat split.
Qed.

(** X25. With a store that works and holds values of the right types,
    the settings the provider caches are the settings stored: the first
    [initialize] makes the seven cached settings (quick exit and its
    URL, incognito mode, safety tips, network warnings, disguised mode
    and the current disguised icon) what the getters of the service
    read, and every method of the provider, a connectivity change and
    disposal keep them so, provided the icon given to
    [applyDisguisedIcon] is one of the catalogue. *)
Theorem provider_cache_follows_store env c a :
  storeWorks env -> wellTyped (store (SafetyProvider.world a)) ->
  cacheAgrees a \/
  (c = PInitialize /\ SafetyProvider._initialized (SafetyProvider.provider a) = false) ->
  (forall icon, c = PApplyDisguisedIcon icon -> icon ∈ disguisedIcons) ->
  cacheAgrees (snd (providerCommand env c a)).
Proof.
  intros Hworks Hty [Ha|[-> Hfresh]] Hicon;
    [|by apply cacheAgrees_initialize].
  destruct (cacheAgrees_setters env a Hworks Ha)
    as (HquickExit & Hurl & Hincognito & Htips & Hwarnings).
  destruct (cacheAgrees_disguise env a Hworks Ha) as [Happly Hreset].
  destruct c; try (by apply (cacheAgrees_kept a), cacheKept_providerCommand);
    unfold providerCommand; rewrite ?discard_final; auto.
  destruct (SafetyProvider._initialized (SafetyProvider.provider a)) eqn:Hinit;
    [|by apply cacheAgrees_initialize].
  by rewrite initialize_eq, Hinit.
Qed.

Lemma provider_cache_follows_store_witness :
  storeWorks workingEnv /\ wellTyped (store browsedWorld) /\
  cacheAgrees (snd (providerCommand workingEnv PInitialize (appOver browsedWorld))) /\
  cacheAgrees
    (snd (providerCommand workingEnv (PApplyDisguisedIcon calculator)
            (snd (providerCommand workingEnv PInitialize (appOver browsedWorld))))).
Proof.
  assert (wellTyped (store browsedWorld)) as Hty by typed_store.
  assert (cacheAgrees (snd (providerCommand workingEnv PInitialize
                              (appOver browsedWorld)))) as Hfirst.
  { apply (provider_cache_follows_store workingEnv PInitialize (appOver browsedWorld)
             storeWorks_workingEnv Hty).
    - right. split; reflexivity.
    - intros icon Hc. discriminate Hc. }
  split; [exact storeWorks_workingEnv|]. split; [exact Hty|].
  split; [exact Hfirst|].
  apply (provider_cache_follows_store workingEnv (PApplyDisguisedIcon calculator)
           (snd (providerCommand workingEnv PInitialize (appOver browsedWorld)))
           storeWorks_workingEnv).
  - typed_store.
  - left. exact Hfirst.
  - intros icon [= <-]. unfold disguisedIcons. apply list_elem_of_here.
Defined.

(** ** Reading, and adding twice *)

Lemma sameData_preferences env w : preserves (sameData w) (_preferences env).
Proof.
  intros w' Hw'. unfold _preferences.
  destruct (_prefs (service w')); [done|].
  by destruct (getInstanceFails env).
Qed.

Ltac read_only_step :=
  lazymatch goal with
  | |- preserves _ (bind _ _) => apply preserves_bind; [|intros ?]
  | |- preserves _ (ret _) => apply preserves_ret
  | |- preserves _ (throw _) => apply preserves_throw
  | |- preserves _ (gets _) => apply preserves_gets
  | |- preserves _ (getBool _) => apply preserves_getBool
  | |- preserves _ (getString _) => apply preserves_getString
  | |- preserves _ (getStringList _) => apply preserves_getStringList
  | |- preserves _ (discard _) => apply preserves_discard
  | |- preserves _ (tryCatch _ _) => apply preserves_tryCatch; [|intros ?]
  | |- preserves _ (_preferences _) => apply sameData_preferences
  | |- preserves _ (modify _) => apply preserves_modify; by intros ? ?
  | |- preserves _ (if ?b then _ else _) => destruct b
  | |- preserves _ (match ?o with Some _ => _ | None => _ end) => destruct o
  end.

(** X26. Reading changes nothing: whatever the collaborators do and
    however the call ends, a getter of the service leaves the whole
    store, the session flag and both session lists as they were. *)
Theorem getters_change_nothing env c w :
  isGetter c = true ->
  store (step env c w) = store w /\
  _isIncognitoSession (service (step env c w)) = _isIncognitoSession (service w) /\
  _sessionRecentPrograms (service (step env c w)) = _sessionRecentPrograms (service w) /\
  _sessionSearchHistory (service (step env c w)) = _sessionSearchHistory (service w).
Proof.
  intros Hc. change (sameData w (step env c w)). unfold step.
  apply preserves_final; [|by repeat split].
  destruct c; try discriminate; unfold_service;
    unfold getNetworkPrivacyStatus, checkConnectivity, emit;
    repeat read_only_step.
Qed.

Lemma getters_change_nothing_witness :
  isGetter GetCurrentDisguisedIcon = true /\
  store (step noStoreEnv GetCurrentDisguisedIcon incognitoWorld) = store incognitoWorld.
Proof.
  split; [reflexivity|].
  exact (proj1 (getters_change_nothing noStoreEnv GetCurrentDisguisedIcon incognitoWorld
                  eq_refl)).
Defined.

Lemma sessionAdd_again x l :
  sessionAdd x (default l (sessionAdd x l)) = Some (default l (sessionAdd x l)).
Proof.
  unfold sessionAdd at 2 3, Dart.contains, Dart.insert0.
  destruct (bool_decide_reflect (x ∈ l)) as [Hin|Hout]; cbn [negb].
  - simpl. unfold sessionAdd, Dart.contains. by rewrite bool_decide_eq_true_2.
  - destruct (Nat.ltb_spec 10 (length (x :: l))) as [Hbig|Hsmall].
    + rewrite removeLast_cons. cbn [length] in Hbig.
      rewrite take_cons_front by lia. simpl.
      unfold sessionAdd, Dart.contains.
      by rewrite bool_decide_eq_true_2 by apply list_elem_of_here.
    + simpl. unfold sessionAdd, Dart.contains.
      by rewrite bool_decide_eq_true_2 by apply list_elem_of_here.
Qed.

Lemma persistedAdd_again x l :
  take 20 (x :: Dart.remove x (take 20 (x :: Dart.remove x l))) =
  take 20 (x :: Dart.remove x l).
Proof.
  cbn [take Dart.remove]. rewrite decide_True by done.
  cbn [take]. by rewrite take_take, Nat.min_id.
Qed.

(** X27. Adding the same entry twice in a row is adding it once: inside
    a session, whatever the store does, and outside a session with a
    store that works, the second [addRecentProgram] (or
    [addSearchQuery]) with the same argument leaves the store and the
    service exactly as the first one left them. *)
Theorem adding_twice_is_adding_once env x w :
  _isIncognitoSession (service w) = true \/
  (storeWorks env /\ wellTyped (store w) /\
   length (storedList (store w) _recentProgramsKey) <= 20 /\
   length (storedList (store w) _searchHistoryKey) <= 20) ->
  step env (AddRecentProgram x) (step env (AddRecentProgram x) w) =
    step env (AddRecentProgram x) w /\
  step env (AddSearchQuery x) (step env (AddSearchQuery x) w) =
    step env (AddSearchQuery x) w.
Proof.
  intros [Hinc|(Hworks & Hty & Hrecent & Hsearch)]; unfold step, command.
  - rewrite (addRecentProgram_in_session env x w),
      (addSearchQuery_in_session env x w) by done.
    cbn [snd]. rewrite addRecentProgram_in_session, addSearchQuery_in_session by done.
    cbn [snd]. unfold withService. simpl. by rewrite !sessionAdd_again.
  - destruct (_isIncognitoSession (service w)) eqn:Hinc.
    { rewrite (addRecentProgram_in_session env x w),
        (addSearchQuery_in_session env x w) by done.
      cbn [snd]. rewrite addRecentProgram_in_session, addSearchQuery_in_session by done.
      cbn [snd]. unfold withService. simpl. by rewrite !sessionAdd_again. }
    rewrite (addRecentProgram_persisted env x w),
      (addSearchQuery_persisted env x w) by done.
    cbn [snd].
    rewrite addRecentProgram_persisted, addSearchQuery_persisted; try done;
      try (by eapply wellTyped_insert; [schema_member|..]);
      try (unfold withStore; cbn [store]; rewrite storedList_insert_eq, length_take; lia).
    cbn [snd]. unfold withStore, withService. cbn [store service trace].
    rewrite !storedList_insert_eq, !persistedAdd_again.
    by rewrite !insert_insert_eq.
Qed.

Lemma adding_twice_is_adding_once_witness :
  storeWorks workingEnv /\
  storedList
    (store (step workingEnv (AddRecentProgram "medi-cal")
              (step workingEnv (AddRecentProgram "medi-cal") browsedWorld)))
    _recentProgramsKey = ["medi-cal"; "calfresh"].
Proof.
  assert (wellTyped (store browsedWorld)) as Hty by typed_store.
  assert (length (storedList (store browsedWorld) _recentProgramsKey) <= 20)
    as Hrecent by (vm_compute; lia).
  assert (length (storedList (store browsedWorld) _searchHistoryKey) <= 20)
    as Hsearch by (vm_compute; lia).
  split; [exact storeWorks_workingEnv|].
  rewrite (proj1 (adding_twice_is_adding_once workingEnv "medi-cal" browsedWorld
                    (or_intror (conj storeWorks_workingEnv
                                  (conj Hty (conj Hrecent Hsearch)))))).
  reflexivity.
Defined.

(** ** A first start without the store *)

(** X28. When the store cannot be obtained at the first [initialize] of
    a new provider, nothing is loaded and nothing is tried again: the
    method returns normally and notifies once, every cached setting
    keeps the initial value of its field, the provider is marked
    initialised, it is not subscribed to the network stream and has no
    network status, so that the network indicator shows nothing; and no
    session is started, whatever the persisted incognito setting is.  A
    later [initialize], under any behaviour of the store, changes
    nothing. *)
Theorem initialize_without_store_keeps_defaults env w :
  _prefs (service w) = false -> getInstanceFails env = true ->
  fst (SafetyProvider.initialize env (appOver w)) = Ok tt /\
  SafetyProvider.provider (snd (SafetyProvider.initialize env (appOver w))) =
    SafetyProvider.set_initialized true SafetyProvider.fresh /\
  store (SafetyProvider.world (snd (SafetyProvider.initialize env (appOver w)))) =
    store w /\
  service (SafetyProvider.world (snd (SafetyProvider.initialize env (appOver w)))) =
    service w /\
  map fst (trace (SafetyProvider.world
                    (snd (SafetyProvider.initialize env (appOver w))))) =
    (map fst (trace w) ++ [NotifyListeners])%list /\
  (forall compact,
     NetworkPrivacyIndicator.build compact
       (SafetyProvider.provider (snd (SafetyProvider.initialize env (appOver w)))) =
       NetworkPrivacyIndicator.Shrink) /\
  (forall env',
     SafetyProvider.initialize env' (snd (SafetyProvider.initialize env (appOver w))) =
       (Ok tt, snd (SafetyProvider.initialize env (appOver w)))).
Proof.
  intros Hp Hf.
  assert (SafetyProvider.loadSettings env (appOver w) =
          (Thrown StoreUnavailable, appOver w)) as Hload.
  { unfold SafetyProvider.loadSettings. unfold bind at 1.
    unfold SafetyProvider._safetyService, lift, isQuickExitEnabled.
    unfold bind at 1. cbn [appOver SafetyProvider.world].
    by rewrite preferences_unavailable. }
  rewrite initialize_eq. cbn [appOver SafetyProvider.provider SafetyProvider.fresh
                              SafetyProvider._initialized].
  rewrite Hload. cbn [fst snd appOver SafetyProvider.provider SafetyProvider.world].
  repeat split. simpl. by rewrite map_app.
Qed.

Lemma initialize_without_store_keeps_defaults_witness :
  incognitoSetting (withStore (insert _incognitoModeKey (PBool true)) browsedWorld) = true /\
  _isIncognitoSession
    (service (SafetyProvider.world
                (snd (SafetyProvider.initialize noStoreEnv
                        (appOver (withStore (insert _incognitoModeKey (PBool true))
                                    browsedWorld)))))) = false.
Proof.
  split; [reflexivity|].
  rewrite (proj1 (proj2 (proj2 (proj2
             (initialize_without_store_keeps_defaults noStoreEnv
                (withStore (insert _incognitoModeKey (PBool true)) browsedWorld)
                eq_refl eq_refl))))).
  reflexivity.
Defined.
